(** * pc28-bot: ingestion orchestrator, memory cache, verification and statistics

    A shallow embedding of the parts of the Go sources that the
    specification speaks about, followed by the properties proved of them.

    Conventions.
    - A Go method [func (x *T) M(...)] is embedded as [T_M].
    - Go [int] (64 bit) is [Z]; arithmetic that can leave the 64-bit range
      is wrapped explicitly with [wrap64].
    - [time.Time] and [time.Duration] are [Z] (nanoseconds on one clock);
      every [time.Now()] of the source is an explicit argument.
    - Go strings are [string] (byte strings).
    - A fallible Go function [(T, error)] returns [Result T].
    - The MySQL tables are lists of rows; the bookkeeping columns [id],
      [created_at], [updated_at] and the unused [confidence_score] are left
      out, and the store itself is taken as reliable (connection errors of
      the driver are not part of the model). *)

From Stdlib Require Import ZArith QArith Qround String Ascii List Bool Lia.
From Stdlib Require Import DecimalString DecimalPos Lqa.
From stdpp Require Import gmap strings list fin_maps.

Local Open Scope string_scope.
Local Open Scope Z_scope.

(* ===================================================================== *)
(** * Results of fallible functions *)
(* ===================================================================== *)

Inductive Result (A : Type) : Type :=
| Ok (a : A)
| Err (msg : string).
Arguments Ok {A} a.
Arguments Err {A} msg.

Definition is_Ok {A} (r : Result A) : bool :=
  match r with Ok _ => true | Err _ => false end.

(** Go's [if err != nil { return ..., err }] chaining, with stdpp's monad
    notation [x ← r; k]. *)
#[global] Instance Result_ret : MRet Result := fun A a => Ok a.
#[global] Instance Result_bind : MBind Result := fun A B k r =>
  match r with
  | Ok a => k a
  | Err e => Err e
  end.

(* ===================================================================== *)
(** * The Go library functions the sources call *)
(* ===================================================================== *)

Definition minInt64 : Z := - 2 ^ 63.
Definition maxInt64 : Z := 2 ^ 63 - 1.

(** Two's-complement wrap-around of Go's [int] arithmetic. *)
Definition wrap64 (z : Z) : Z := (z + 2 ^ 63) mod 2 ^ 64 - 2 ^ 63.

Definition in_int64 (z : Z) : bool := (minInt64 <=? z) && (z <=? maxInt64).

Definition is_digit (c : ascii) : bool :=
  let n := nat_of_ascii c in (48 <=? n)%nat && (n <=? 57)%nat.

Definition digit_val (c : ascii) : Z := Z.of_nat (nat_of_ascii c) - 48.

(** The digit loop of [strconv]: [n = n*10 + int(ch - '0')]; [None] on a
    byte that is no decimal digit. *)
Fixpoint digits_acc (s : string) (acc : Z) : option Z :=
  match s with
  | EmptyString => Some acc
  | String c r => if is_digit c then digits_acc r (acc * 10 + digit_val c) else None
  end.

(** Value of a non-empty string of decimal digits. *)
Definition digits_value (s : string) : option Z :=
  match s with
  | EmptyString => None
  | _ => digits_acc s 0
  end.

(** [strconv.ParseInt(s, 10, 64)] and [strconv.Atoi(s)] on a 64-bit
    platform: an optional sign, at least one digit, nothing else, and the
    value must fit [int64]. *)
Definition ParseInt (s : string) : option Z :=
  let '(neg, body) :=
    match s with
    | String "-" r => (true, r)
    | String "+" r => (false, r)
    | _ => (false, s)
    end in
  match digits_value body with
  | Some n =>
      let v := if neg then - n else n in
      if in_int64 v then Some v else None
  | None => None
  end.

Definition Atoi (s : string) : option Z := ParseInt s.

(** [fmt.Sprintf("%d", n)]. *)
Definition FormatInt (n : Z) : string := NilZero.string_of_int (Z.to_int n).

(** Left padding with ['0'] up to [w] bytes. *)
Definition pad0 (w : nat) (s : string) : string :=
  Nat.iter (w - String.length s) (String "0") s.

(** [fmt.Sprintf("%03d", n)]: the sign counts in the width. *)
Definition FormatInt03 (n : Z) : string :=
  if n <? 0 then String "-" (pad0 2 (FormatInt (- n))) else pad0 3 (FormatInt n).

(** ASCII white space as [strings.TrimSpace] and [fmt]'s scanner see it
    (the non-ASCII Unicode spaces are outside this byte-level model). *)
Definition is_space (c : ascii) : bool :=
  let n := nat_of_ascii c in
  (n =? 32)%nat || ((9 <=? n)%nat && (n <=? 13)%nat).

Fixpoint trim_left (s : string) : string :=
  match s with
  | String c r => if is_space c then trim_left r else s
  | EmptyString => EmptyString
  end.

Fixpoint trim_right (s : string) : string :=
  match s with
  | EmptyString => EmptyString
  | String c r =>
      match trim_right r with
      | EmptyString => if is_space c then EmptyString else String c EmptyString
      | r' => String c r'
      end
  end.

(** [strings.TrimSpace]. *)
Definition TrimSpace (s : string) : string := trim_right (trim_left s).

(** [strings.Split(s, sep)] for a one-byte separator: always at least one
    part. *)
Fixpoint Split (s : string) (sep : ascii) : list string :=
  match s with
  | EmptyString => [EmptyString]
  | String c r =>
      if Ascii.eqb c sep then EmptyString :: Split r sep
      else match Split r sep with
           | h :: t => String c h :: t
           | [] => [String c EmptyString]
           end
  end.

(** The scanner of [fmt.Sscanf(s, "%d", &n)] with [n] an [int]:
    leading blanks are skipped (a newline there is an error), then an
    optional sign and the longest run of bytes of ["0123456789_"] form the
    token, which [strconv.ParseInt(tok, 10, 64)] must accept; input after
    the token is ignored. *)
Fixpoint skip_space (s : string) : option string :=
  match s with
  | EmptyString => Some EmptyString
  | String c r =>
      if Ascii.eqb c "010" then
        None
      else if is_space c then skip_space r
      else Some s
  end.

Definition is_scan_digit (c : ascii) : bool := is_digit c || Ascii.eqb c "_".

Fixpoint scan_token (s : string) : string :=
  match s with
  | String c r => if is_scan_digit c then String c (scan_token r) else EmptyString
  | EmptyString => EmptyString
  end.

Definition Sscanf_d (s : string) : option Z :=
  match skip_space s with
  | None => None
  | Some EmptyString => None
  | Some (String c r as s') =>
      let '(sgn, rest) :=
        if Ascii.eqb c "+" || Ascii.eqb c "-" then (String c EmptyString, r)
        else (EmptyString, s') in
      match scan_token rest with
      | EmptyString => None
      | tok => ParseInt (sgn ++ tok)
      end
  end.

(* ===================================================================== *)
(** * package database: models *)
(* ===================================================================== *)

(** [LotteryResult]: one row of [lottery_results]. *)
Record LotteryResult : Type := {
  lr_Qihao : string;
  lr_OpenTime : Z;
  lr_OpenTimeString : string;
  lr_OpenNum : string;
  lr_SumValue : Z
}.

(** [Prediction]: one row of [predictions]; the pointer fields of the Go
    struct (NULL-able columns) are options. *)
Record Prediction : Type := {
  p_TargetQihao : string;
  p_PredictedNum : string;
  p_PredictedSum : Z;
  p_PredictedOddEven : string;
  p_ActualNum : option string;
  p_ActualSum : option Z;
  p_ActualOddEven : option string;
  p_IsCorrect : option bool;
  p_AlgorithmVersion : string;
  p_PredictedAt : Z;
  p_VerifiedAt : option Z
}.

(** [PredictionStats]; [AccuracyRate] is the DECIMAL value MySQL returns
    (the Go field holds the [float64] nearest to it). *)
Record PredictionStats : Type := {
  TotalPredictions : Z;
  CorrectPredictions : Z;
  AccuracyRate : Q;
  FirstPrediction : Z;
  LastPrediction : Z
}.

Record APILotteryData : Type := {
  api_Qihao : string;
  api_OpenTime : string;
  api_OpenNum : string;
  api_Sum : string
}.

Record APIResponse : Type := {
  Data : list APILotteryData;
  Message : string
}.

Record PredictionResult : Type := {
  pr_TargetQihao : string;
  pr_PredictedNum : string;
  pr_AlgorithmVersion : string;
  pr_Timestamp : Z
}.

Definition odd_label : string := "单".
Definition even_label : string := "双".

(** [CalculateOddEven]: Go's [%] truncates towards zero as [Z.rem]. *)
Definition CalculateOddEven (sum : Z) : string :=
  if Z.rem sum 2 =? 0 then even_label else odd_label.

(** [CalculateSum]: [sum += num] over the slice, in Go's [int]. *)
Definition CalculateSum (nums : list Z) : Z :=
  fold_left (fun sum num => wrap64 (sum + num)) nums 0.

(** The loop of [ParseOpenNum] over the parts. *)
Fixpoint parse_parts (parts : list string) : Result (list Z) :=
  match parts with
  | [] => Ok []
  | part :: rest =>
      match Atoi (TrimSpace part) with
      | None => Err ("failed to parse number: " ++ part)
      | Some num =>
          match parse_parts rest with
          | Ok nums => Ok (num :: nums)
          | Err e => Err e
          end
      end
  end.

(** [ParseOpenNum]. *)
Definition ParseOpenNum (openNum : string) : Result (list Z) :=
  let parts := Split openNum "+" in
  if negb (length parts =? 3)%nat then Err ("invalid opennum format: " ++ openNum)
  else parse_parts parts.

(** [FormatOpenNum]. *)
Definition FormatOpenNum (nums : list Z) : string :=
  match nums with
  | [a; b; c] => FormatInt a ++ "+" ++ FormatInt b ++ "+" ++ FormatInt c
  | _ => ""
  end.

(* ===================================================================== *)
(** * package database: the store *)
(* ===================================================================== *)

(** The two tables. [lottery_results.qihao] carries a UNIQUE key in the
    schema; [predictions] has none on [target_qihao]. *)
Record MySQLDB : Type := {
  lottery_results : list LotteryResult;
  predictions : list Prediction
}.

Definition with_predictions (m : MySQLDB) (rows : list Prediction) : MySQLDB :=
  {| lottery_results := lottery_results m; predictions := rows |}.

(** [ORDER BY key DESC]: a stable insertion sort (MySQL leaves the order
    of rows with equal keys open; the properties below do not depend on
    how ties fall). *)
Fixpoint insert_desc {A} (key : A -> Z) (x : A) (l : list A) : list A :=
  match l with
  | [] => [x]
  | y :: l' => if key y <=? key x then x :: l else y :: insert_desc key x l'
  end.

Definition order_by_desc {A} (key : A -> Z) (l : list A) : list A :=
  foldr (insert_desc key) [] l.

(** [LIMIT n]. *)
Definition limit {A} (n : Z) (l : list A) : list A := take (Z.to_nat n) l.

(** [CAST(s AS UNSIGNED)] on the identifiers: the value of the leading
    run of digits, 0 when there is none. *)
Fixpoint leading_digits (s : string) : string :=
  match s with
  | String c r => if is_digit c then String c (leading_digits r) else EmptyString
  | EmptyString => EmptyString
  end.

Definition cast_unsigned (s : string) : Z :=
  match digits_value (leading_digits s) with
  | Some n => n
  | None => 0
  end.

(** [WHERE target_qihao = ?] / [WHERE qihao = ?] (byte equality; the
    column collation is not modelled). *)
Definition targets (qihao : string) (p : Prediction) : bool :=
  String.eqb (p_TargetQihao p) qihao.

(** [SaveLotteryResult]: [INSERT ... ON DUPLICATE KEY UPDATE] on the
    unique [qihao]. *)
Fixpoint upsert_result (result : LotteryResult) (rows : list LotteryResult)
  : list LotteryResult :=
  match rows with
  | [] => [result]
  | row :: rest =>
      if String.eqb (lr_Qihao row) (lr_Qihao result) then result :: rest
      else row :: upsert_result result rest
  end.

Definition MySQLDB_SaveLotteryResult (m : MySQLDB) (result : LotteryResult) : MySQLDB :=
  {| lottery_results := upsert_result result (lottery_results m);
     predictions := predictions m |}.

(** [GetLatestLotteryResults]: [ORDER BY opentime DESC LIMIT ?]. *)
Definition MySQLDB_GetLatestLotteryResults (m : MySQLDB) (n : Z) : list LotteryResult :=
  limit n (order_by_desc lr_OpenTime (lottery_results m)).

(** [SavePrediction]: returns the store and the caller's struct, whose
    [PredictedSum] the method overwrites. *)
Definition MySQLDB_SavePrediction (m : MySQLDB) (prediction : Prediction)
  : MySQLDB * Prediction :=
  let predictedSum :=
    if p_PredictedSum prediction =? 0 then
      match ParseOpenNum (p_PredictedNum prediction) with
      | Ok nums => CalculateSum nums
      | Err _ => p_PredictedSum prediction
      end
    else p_PredictedSum prediction in
  let predictedOddEven :=
    if String.eqb (p_PredictedOddEven prediction) "" then CalculateOddEven predictedSum
    else p_PredictedOddEven prediction in
  let row :=
    {| p_TargetQihao := p_TargetQihao prediction;
       p_PredictedNum := p_PredictedNum prediction;
       p_PredictedSum := predictedSum;
       p_PredictedOddEven := predictedOddEven;
       p_ActualNum := None; p_ActualSum := None; p_ActualOddEven := None;
       p_IsCorrect := None;
       p_AlgorithmVersion := p_AlgorithmVersion prediction;
       p_PredictedAt := p_PredictedAt prediction;
       p_VerifiedAt := None |} in
  ({| lottery_results := lottery_results m;
      predictions := predictions m ++ [row] |},
   {| p_TargetQihao := p_TargetQihao prediction;
      p_PredictedNum := p_PredictedNum prediction;
      p_PredictedSum := predictedSum;
      p_PredictedOddEven := p_PredictedOddEven prediction;
      p_ActualNum := p_ActualNum prediction;
      p_ActualSum := p_ActualSum prediction;
      p_ActualOddEven := p_ActualOddEven prediction;
      p_IsCorrect := p_IsCorrect prediction;
      p_AlgorithmVersion := p_AlgorithmVersion prediction;
      p_PredictedAt := p_PredictedAt prediction;
      p_VerifiedAt := p_VerifiedAt prediction |}).

(** The row after [UPDATE predictions SET actual_num = ?, is_correct = ?,
    verified_at = NOW()]. *)
Definition set_result (actualNum : string) (isCorrect : bool) (now : Z)
  (p : Prediction) : Prediction :=
  {| p_TargetQihao := p_TargetQihao p;
     p_PredictedNum := p_PredictedNum p;
     p_PredictedSum := p_PredictedSum p;
     p_PredictedOddEven := p_PredictedOddEven p;
     p_ActualNum := Some actualNum;
     p_ActualSum := p_ActualSum p;
     p_ActualOddEven := p_ActualOddEven p;
     p_IsCorrect := Some isCorrect;
     p_AlgorithmVersion := p_AlgorithmVersion p;
     p_PredictedAt := p_PredictedAt p;
     p_VerifiedAt := Some now |}.

(** [UpdatePredictionResult]: the UPDATE has no condition besides the
    target identifier. *)
Definition MySQLDB_UpdatePredictionResult (m : MySQLDB) (qihao actualNum : string)
  (isCorrect : bool) (now : Z) : MySQLDB :=
  {| lottery_results := lottery_results m;
     predictions :=
       map (fun p => if targets qihao p then set_result actualNum isCorrect now p else p)
           (predictions m) |}.

(** [GetLatestPredictions]:
    [ORDER BY CAST(target_qihao AS UNSIGNED) DESC LIMIT ?]. *)
Definition MySQLDB_GetLatestPredictions (m : MySQLDB) (n : Z) : list Prediction :=
  limit n (order_by_desc (fun p => cast_unsigned (p_TargetQihao p)) (predictions m)).

(** The row after the UPDATE of [MySQLDB.ValidatePrediction]. *)
Definition set_verified (actual : LotteryResult) (actualOddEven : string)
  (isCorrect : bool) (now : Z) (p : Prediction) : Prediction :=
  {| p_TargetQihao := p_TargetQihao p;
     p_PredictedNum := p_PredictedNum p;
     p_PredictedSum := p_PredictedSum p;
     p_PredictedOddEven := p_PredictedOddEven p;
     p_ActualNum := Some (lr_OpenNum actual);
     p_ActualSum := Some (lr_SumValue actual);
     p_ActualOddEven := Some actualOddEven;
     p_IsCorrect := Some isCorrect;
     p_AlgorithmVersion := p_AlgorithmVersion p;
     p_PredictedAt := p_PredictedAt p;
     p_VerifiedAt := Some now |}.

(** [MySQLDB.ValidatePrediction]: the newest forecast row of the target
    ([ORDER BY predicted_at DESC LIMIT 1]) gives the predicted parity, the
    flag is the equality of the two parity labels, and the UPDATE writes
    every row of the target. *)
Definition MySQLDB_ValidatePrediction (m : MySQLDB) (qihao : string)
  (actualResult : LotteryResult) (now : Z) : Result bool * MySQLDB :=
  match limit 1 (order_by_desc p_PredictedAt (filter (fun p => targets qihao p = true) (predictions m))) with
  | [] => (Err ("no prediction found for qihao: " ++ qihao), m)
  | row :: _ =>
      let actualOddEven := CalculateOddEven (lr_SumValue actualResult) in
      let isCorrect := String.eqb (p_PredictedOddEven row) actualOddEven in
      (Ok isCorrect,
       {| lottery_results := lottery_results m;
          predictions :=
            map (fun p => if targets qihao p
                          then set_verified actualResult actualOddEven isCorrect now p
                          else p)
                (predictions m) |})
  end.

(** [CheckNewQihao]: [SELECT COUNT( * ) ... WHERE qihao = ?] is 0. *)
Definition MySQLDB_CheckNewQihao (m : MySQLDB) (qihao : string) : bool :=
  (length (filter (fun r => String.eqb (lr_Qihao r) qihao = true) (lottery_results m)) =? 0)%nat.

(** MySQL's [ROUND(x, 2)] on an exact (DECIMAL) value: half away from
    zero. The quotient under it is taken as exact; the intermediate
    precision of MySQL's DECIMAL division is not part of the model. *)
Definition ROUND2 (x : Q) : Q :=
  if Qle_bool 0 x then (Qfloor (x * 100 + (1 # 2)) # 100)%Q
  else (- (Qfloor (- x * 100 + (1 # 2)) # 100))%Q.

Definition verified (p : Prediction) : bool :=
  match p_IsCorrect p with Some _ => true | None => false end.

Definition correct (p : Prediction) : bool :=
  match p_IsCorrect p with Some true => true | _ => false end.

Definition list_min (l : list Z) (d : Z) : Z := fold_right Z.min d l.
Definition list_max (l : list Z) (d : Z) : Z := fold_right Z.max d l.

(** [GetPredictionStats]: the aggregates over [WHERE is_correct IS NOT
    NULL]. Over no rows SUM, ROUND, MIN and MAX are NULL and the [Scan]
    into the Go struct fails. *)
Definition MySQLDB_GetPredictionStats (m : MySQLDB) : Result PredictionStats :=
  match filter (fun p => verified p = true) (predictions m) with
  | [] => Err "failed to get prediction stats"
  | p0 :: rest =>
      let rows := p0 :: rest in
      let total := Z.of_nat (length rows) in
      let sum := Z.of_nat (length (filter (fun p => correct p = true) rows)) in
      Ok {| TotalPredictions := total;
            CorrectPredictions := sum;
            AccuracyRate := ROUND2 (inject_Z sum * 100 / inject_Z total)%Q;
            FirstPrediction := list_min (map p_PredictedAt rest) (p_PredictedAt p0);
            LastPrediction := list_max (map p_PredictedAt rest) (p_PredictedAt p0) |}
  end.

(* ===================================================================== *)
(** * package api: the client of the round source *)
(* ===================================================================== *)

Section Client.

(** [time.Parse(layout, value)] of the Go library and the year of
    [time.Now()]. *)
Variable time_Parse : string -> string -> option Z.
Variable currentYear : Z.

Definition layouts : list string :=
  ["2006-01-02 15:04:05"; "2006-1-2 15:04:05"; "2006-01-2 15:04:05"; "2006-1-02 15:04:05"].

Fixpoint first_layout (ls : list string) (fullTimeStr timeStr : string) : Result Z :=
  match ls with
  | [] => Err ("unable to parse time: " ++ timeStr)
  | layout :: rest =>
      match time_Parse layout fullTimeStr with
      | Some t => Ok t
      | None => first_layout rest fullTimeStr timeStr
      end
  end.

(** [parseOpenTime]. *)
Definition Client_parseOpenTime (timeStr : string) : Result Z :=
  first_layout layouts (FormatInt currentYear ++ "-" ++ timeStr) timeStr.

Fixpoint validate_parts (parts : list string) : Result unit :=
  match parts with
  | [] => Ok tt
  | part :: rest =>
      match Atoi (TrimSpace part) with
      | None => Err ("invalid number in part: " ++ part)
      | Some num =>
          if (num <? 0) || (num >? 9) then Err ("number out of range (0-9): " ++ part)
          else validate_parts rest
      end
  end.

(** [validateOpenNum]. *)
Definition Client_validateOpenNum (openNum : string) : Result unit :=
  let parts := Split openNum "+" in
  if negb (length parts =? 3)%nat then Err "open number should have 3 parts"
  else validate_parts parts.

(** [ConvertAPIDataToLotteryResult]: the sum is the source's string,
    parsed. *)
Definition Client_ConvertAPIDataToLotteryResult (apiData : APILotteryData)
  : Result LotteryResult :=
  openTime ← Client_parseOpenTime (api_OpenTime apiData);
  sumValue ← match Atoi (api_Sum apiData) with
             | Some n => Ok n
             | None => Err "failed to parse sum value"
             end;
  _ ← Client_validateOpenNum (api_OpenNum apiData);
  Ok {| lr_Qihao := api_Qihao apiData;
        lr_OpenTime := openTime;
        lr_OpenTimeString := api_OpenTime apiData;
        lr_OpenNum := api_OpenNum apiData;
        lr_SumValue := sumValue |}.

(** [FetchAndValidateLatestData]; [fetched] is what
    [c.FetchLotteryData(10)] returned. *)
Definition Client_FetchAndValidateLatestData (fetched : Result APIResponse)
  : Result LotteryResult :=
  apiResponse ← fetched;
  match Data apiResponse with
  | [] => Err "no data returned from API"
  | latestAPIData :: _ =>
      lotteryResult ← Client_ConvertAPIDataToLotteryResult latestAPIData;
      nums ← ParseOpenNum (lr_OpenNum lotteryResult);
      let calculatedSum := CalculateSum nums in
      if negb (calculatedSum =? lr_SumValue lotteryResult) then
        Ok {| lr_Qihao := lr_Qihao lotteryResult;
              lr_OpenTime := lr_OpenTime lotteryResult;
              lr_OpenTimeString := lr_OpenTimeString lotteryResult;
              lr_OpenNum := lr_OpenNum lotteryResult;
              lr_SumValue := calculatedSum |}
      else Ok lotteryResult
  end.

(** The loop of [GetHistoricalData]: entries that do not convert are
    skipped. *)
Fixpoint convert_all (data : list APILotteryData) : list LotteryResult :=
  match data with
  | [] => []
  | apiData :: rest =>
      match Client_ConvertAPIDataToLotteryResult apiData with
      | Ok result => result :: convert_all rest
      | Err _ => convert_all rest
      end
  end.

(** [GetHistoricalData]; [fetched] is what [c.FetchLotteryData(limit)]
    returned. *)
Definition Client_GetHistoricalData (fetched : Result APIResponse)
  : Result (list LotteryResult) :=
  apiResponse ← fetched;
  match convert_all (Data apiResponse) with
  | [] => Err "no valid data could be converted"
  | results => Ok results
  end.

End Client.

(* ===================================================================== *)
(** * package predictor: the default algorithm *)
(* ===================================================================== *)

(** [DefaultPredictor.generateNextQihao]. *)
Definition DefaultPredictor_generateNextQihao (latestQihao : string) : string :=
  let fallback := "3326999" in
  if (7 <=? String.length latestQihao)%nat then
    match Sscanf_d latestQihao with
    | Some qihaoNum => FormatInt (wrap64 (qihaoNum + 1))
    | None =>
        if (String.length latestQihao =? 7)%nat then
          let prefix := String.substring 0 4 latestQihao in
          let numStr := String.substring 4 3 latestQihao in
          match Sscanf_d numStr with
          | Some num => prefix ++ FormatInt03 (wrap64 (num + 1))
          | None => fallback
          end
        else fallback
    end
  else fallback.

(** [App.generateNextQihao] of the main package. *)
Definition App_generateNextQihao (latestQihao : string) : string :=
  match Sscanf_d latestQihao with
  | Some qihaoNum => FormatInt (wrap64 (qihaoNum + 1))
  | None => "3326999"
  end.

Definition GetRequiredHistorySize : Z := 3.

Fixpoint validate_history (history : list LotteryResult) : Result unit :=
  match history with
  | [] => Ok tt
  | result :: rest =>
      if String.eqb (lr_Qihao result) "" then Err "empty qihao in history"
      else if String.eqb (lr_OpenNum result) "" then Err "empty opennum in history"
      else match ParseOpenNum (lr_OpenNum result) with
           | Err e => Err ("invalid opennum format in history: " ++ e)
           | Ok _ => validate_history rest
           end
  end.

(** [ValidateInput]. *)
Definition DefaultPredictor_ValidateInput (history : list LotteryResult) : Result unit :=
  if Z.of_nat (length history) <? GetRequiredHistorySize then Err "insufficient history data"
  else validate_history history.

(** One position of the double loop of [fixedOddEvenPrediction]. *)
Definition position_sum (allNums : list (list Z)) (pos : nat) : Z :=
  fold_left (fun sum nums =>
               match nums !! pos with
               | Some x => wrap64 (sum + x)
               | None => sum
               end) (take 3 allNums) 0.

(** [fixedOddEvenPrediction]. *)
Definition DefaultPredictor_fixedOddEvenPrediction (allNums : list (list Z)) : list Z :=
  if (length allNums <? 3)%nat then [1; 2; 3]
  else
    let totalSum :=
      wrap64 (wrap64 (position_sum allNums 0 + position_sum allNums 1)
              + position_sum allNums 2) in
    let average := Z.quot totalSum 3 in
    if Z.rem average 2 =? 0 then [2; 4; 0] else [1; 3; 1].

(** [analyzeAndPredict]: rows that do not parse are dropped. *)
Definition DefaultPredictor_analyzeAndPredict (history : list LotteryResult) : list Z :=
  let allNums :=
    flat_map (fun result => match ParseOpenNum (lr_OpenNum result) with
                            | Ok nums => [nums]
                            | Err _ => []
                            end) history in
  DefaultPredictor_fixedOddEvenPrediction allNums.

(** [DefaultPredictor.Predict], which [PredictorManager.Predict] calls
    for the registered default predictor (version ["v1.0"]). *)
Definition DefaultPredictor_Predict (history : list LotteryResult) (now : Z)
  : Result PredictionResult :=
  _ ← DefaultPredictor_ValidateInput history;
  let recent3 := take 3 history in
  match recent3 with
  | [] => Err "insufficient history data"
  | newest :: _ =>
      let predictedNums := DefaultPredictor_analyzeAndPredict recent3 in
      let nextQihao := DefaultPredictor_generateNextQihao (lr_Qihao newest) in
      Ok {| pr_TargetQihao := nextQihao;
            pr_PredictedNum := FormatOpenNum predictedNums;
            pr_AlgorithmVersion := "v1.0";
            pr_Timestamp := now |}
  end.

(* ===================================================================== *)
(** * package predictor: the validator *)
(* ===================================================================== *)

Record ValidationResult : Type := {
  vr_IsCorrect : bool;
  vr_MatchType : string;
  vr_MatchedPositions : list Z;
  vr_PredictedNumbers : list Z;
  vr_ActualNumbers : list Z;
  vr_PredictedSum : Z;
  vr_ActualSum : Z;
  vr_ValidationTime : Z
}.

(** [isExactMatch]. *)
Fixpoint Validator_isExactMatch (predicted actual : list Z) : bool :=
  match predicted, actual with
  | [], [] => true
  | p :: ps, a :: acts => if p =? a then Validator_isExactMatch ps acts else false
  | _, _ => false
  end.

Fixpoint matched_from (i : Z) (predicted actual : list Z) : list Z :=
  match predicted, actual with
  | p :: ps, a :: acts =>
      if p =? a then i :: matched_from (i + 1) ps acts
      else matched_from (i + 1) ps acts
  | _, _ => []
  end.

(** [getMatchedPositions]. *)
Definition Validator_getMatchedPositions (predicted actual : list Z) : list Z :=
  matched_from 0 predicted actual.

(** [performDetailedValidation] ([ValidationTime] is set by the caller). *)
Definition Validator_performDetailedValidation (predicted actual : list Z) (now : Z)
  : ValidationResult :=
  let mk isCorrect matchType positions :=
    {| vr_IsCorrect := isCorrect;
       vr_MatchType := matchType;
       vr_MatchedPositions := positions;
       vr_PredictedNumbers := predicted;
       vr_ActualNumbers := actual;
       vr_PredictedSum := CalculateSum predicted;
       vr_ActualSum := CalculateSum actual;
       vr_ValidationTime := now |} in
  if Validator_isExactMatch predicted actual then mk true "exact" [0; 1; 2]
  else
    let matchedPositions := Validator_getMatchedPositions predicted actual in
    if (0 <? length matchedPositions)%nat then
      mk (2 <=? length matchedPositions)%nat "partial" matchedPositions
    else mk false "none" [].

Definition with_IsCorrect (isCorrect : bool) (r : ValidationResult) : ValidationResult :=
  {| vr_IsCorrect := isCorrect;
     vr_MatchType := vr_MatchType r;
     vr_MatchedPositions := vr_MatchedPositions r;
     vr_PredictedNumbers := vr_PredictedNumbers r;
     vr_ActualNumbers := vr_ActualNumbers r;
     vr_PredictedSum := vr_PredictedSum r;
     vr_ActualSum := vr_ActualSum r;
     vr_ValidationTime := vr_ValidationTime r |}.

(** [Validator.ValidatePrediction]: the detailed result is computed from
    the positions, then [result.IsCorrect] is replaced by what the store's
    [ValidatePrediction] decided and wrote. [now] stands for both clock
    readings, Go's [time.Now()] and the store's [NOW()]. *)
Definition Validator_ValidatePrediction (m : MySQLDB) (qihao : string)
  (actualResult : LotteryResult) (now : Z) : Result ValidationResult * MySQLDB :=
  match List.find (targets qihao) (MySQLDB_GetLatestPredictions m 20) with
  | None => (Err ("no prediction found for qihao: " ++ qihao), m)
  | Some targetPrediction =>
      match ParseOpenNum (p_PredictedNum targetPrediction) with
      | Err e => (Err ("failed to parse predicted numbers: " ++ e), m)
      | Ok predictedNums =>
          match ParseOpenNum (lr_OpenNum actualResult) with
          | Err e => (Err ("failed to parse actual numbers: " ++ e), m)
          | Ok actualNums =>
              let result := Validator_performDetailedValidation predictedNums actualNums now in
              match MySQLDB_ValidatePrediction m qihao actualResult now with
              | (Err _, m') => (Ok result, m')
              | (Ok isCorrect, m') => (Ok (with_IsCorrect isCorrect result), m')
              end
          end
      end
  end.

(* ===================================================================== *)
(** * package main: the orchestrator *)
(* ===================================================================== *)

(** The calls an orchestrator cycle makes on its collaborators, in the
    order it makes them. *)
Inductive Call : Type :=
| CallFetchAndValidateLatestData
| CallCheckNewQihao (qihao : string)
| CallSaveLotteryResult (result : LotteryResult)
| CallOnNewLotteryData (data : LotteryResult)
| CallValidatePrediction (qihao : string) (actualResult : LotteryResult)
| CallOnPredictionVerified (qihao : string) (isCorrect : bool)
| CallGetLast3LotteryData
| CallPredict (history : list LotteryResult)
| CallSavePrediction (prediction : Prediction)
| CallOnPredictionGenerated (prediction : Prediction)
| CallGetLatestLotteryData
| CallBroadcastNewPrediction (prediction : Prediction).

(** The fields of [App] that a cycle reads or writes. The cache manager
    is read-through over the store and [OnNewLotteryData] has repopulated
    ["lottery:last3"] from the store when the cycle reads it, so
    [GetLast3LotteryData] is the store's [GetLatestLotteryResults(3)];
    its hooks appear as calls. *)
Record App : Type := {
  mysql : MySQLDB;
  lastAPIError : string;
  lastDBError : string
}.

(** State of the application and the calls made so far. *)
Definition Eff (A : Type) : Type := App -> A * App * list Call.

#[global] Instance Eff_ret : MRet Eff := fun A a s => (a, s, []).
#[global] Instance Eff_bind : MBind Eff := fun A B k m s =>
  let '(a, s1, t1) := m s in
  let '(b, s2, t2) := k a s1 in
  (b, s2, (t1 ++ t2)%list).

Definition call (c : Call) : Eff unit := fun s => (tt, s, [c]).
Definition get_mysql : Eff MySQLDB := fun s => (mysql s, s, []).
Definition put_mysql (m : MySQLDB) : Eff unit := fun s =>
  (tt, {| mysql := m; lastAPIError := lastAPIError s; lastDBError := lastDBError s |}, []).
Definition set_lastAPIError (e : string) : Eff unit := fun s =>
  (tt, {| mysql := mysql s; lastAPIError := e; lastDBError := lastDBError s |}, []).
Definition set_lastDBError (e : string) : Eff unit := fun s =>
  (tt, {| mysql := mysql s; lastAPIError := lastAPIError s; lastDBError := e |}, []).

(** [verifyPreviousPrediction]. *)
Definition App_verifyPreviousPrediction (actualResult : LotteryResult) (now : Z)
  : Eff (Result unit) :=
  _ ← call (CallValidatePrediction (lr_Qihao actualResult) actualResult);
  m ← get_mysql;
  let '(r, m') := Validator_ValidatePrediction m (lr_Qihao actualResult) actualResult now in
  _ ← put_mysql m';
  match r with
  | Err e => mret (Err ("validation failed: " ++ e))
  | Ok validation =>
      _ ← call (CallOnPredictionVerified (lr_Qihao actualResult) (vr_IsCorrect validation));
      mret (Ok tt)
  end.

(** [generateNewPrediction]. *)
Definition App_generateNewPrediction (now : Z) : Eff (Result unit) :=
  _ ← call CallGetLast3LotteryData;
  m ← get_mysql;
  let historyData := MySQLDB_GetLatestLotteryResults m 3 in
  if (length historyData <? 3)%nat then mret (Err "insufficient history data for prediction")
  else
    _ ← call (CallPredict historyData);
    match DefaultPredictor_Predict historyData now with
    | Err e => mret (Err ("prediction generation failed: " ++ e))
    | Ok predictionResult =>
        let predictedSum :=
          match ParseOpenNum (pr_PredictedNum predictionResult) with
          | Ok predictedNums => CalculateSum predictedNums
          | Err _ => 0
          end in
        let prediction :=
          {| p_TargetQihao := pr_TargetQihao predictionResult;
             p_PredictedNum := pr_PredictedNum predictionResult;
             p_PredictedSum := predictedSum;
             p_PredictedOddEven := CalculateOddEven predictedSum;
             p_ActualNum := None; p_ActualSum := None; p_ActualOddEven := None;
             p_IsCorrect := None;
             p_AlgorithmVersion := pr_AlgorithmVersion predictionResult;
             p_PredictedAt := pr_Timestamp predictionResult;
             p_VerifiedAt := None |} in
        _ ← call (CallSavePrediction prediction);
        let '(m', prediction') := MySQLDB_SavePrediction m prediction in
        _ ← put_mysql m';
        _ ← call (CallOnPredictionGenerated prediction');
        _ ← call CallGetLatestLotteryData;
        _ ← call (CallBroadcastNewPrediction prediction');
        mret (Ok tt)
    end.

Section App.

Variable time_Parse : string -> string -> option Z.
Variable currentYear : Z.

(** [processDataUpdate]: one cycle of the monitor loop; [fetched] is the
    outcome of the HTTP request (with its retries) of this cycle. *)
Definition App_processDataUpdate (fetched : Result APIResponse) (now : Z)
  : Eff (Result unit) :=
  _ ← call CallFetchAndValidateLatestData;
  match Client_FetchAndValidateLatestData time_Parse currentYear fetched with
  | Err e =>
      _ ← set_lastAPIError e;
      mret (Err ("failed to fetch latest data: " ++ e))
  | Ok latestData =>
      _ ← set_lastAPIError "";
      _ ← call (CallCheckNewQihao (lr_Qihao latestData));
      m ← get_mysql;
      let isNew := MySQLDB_CheckNewQihao m (lr_Qihao latestData) in
      _ ← set_lastDBError "";
      if negb isNew then mret (Ok tt)
      else
        _ ← call (CallSaveLotteryResult latestData);
        _ ← put_mysql (MySQLDB_SaveLotteryResult m latestData);
        _ ← call (CallOnNewLotteryData latestData);
        _ ← App_verifyPreviousPrediction latestData now;
        r ← App_generateNewPrediction now;
        match r with
        | Err e => mret (Err e)
        | Ok _ => mret (Ok tt)
        end
  end.

End App.

(* ===================================================================== *)
(** * package cache: the memory cache *)
(* ===================================================================== *)

Section MemoryCache.

(** The cached values ([interface{}] in Go) and their JSON encoding. *)
Context {V Data : Type}.

(** [MemoryItem]. *)
Record MemoryItem : Type := {
  mi_Value : V;
  mi_ExpiresAt : Z;
  mi_CreatedAt : Z
}.

(** [MemoryCache]: the [sync.Map] and the separate entry counter. *)
Record MemoryCache : Type := {
  mc_items : gmap string MemoryItem;
  mc_maxSize : Z;
  mc_size : Z
}.

(** [json.Marshal(item.Value)] and [json.Unmarshal(data, dest)]. *)
Variable Marshal : V -> option Data.
Variable Unmarshal : Data -> option V.

(** The order in which [sync.Map.Range] visits the entries: the
    language leaves it open, the properties assume only that every entry
    is visited once. *)
Variable Range : gmap string MemoryItem -> list (string * MemoryItem).

(** [NewMemoryCache]. *)
Definition NewMemoryCache (maxSize : Z) : MemoryCache :=
  {| mc_items := ∅; mc_maxSize := maxSize; mc_size := 0 |}.

(** [IsExpired]: [time.Now().After(item.ExpiresAt)]. *)
Definition MemoryItem_IsExpired (item : MemoryItem) (now : Z) : bool :=
  mi_ExpiresAt item <? now.

(** The callback of [evictOldest], on the pair (oldestKey, oldestTime);
    [None] is the nil [oldestKey]. *)
Definition older (acc : option (string * Z)) (entry : string * MemoryItem)
  : option (string * Z) :=
  match acc with
  | None => Some (entry.1, mi_CreatedAt entry.2)
  | Some (_, oldestTime) =>
      if mi_CreatedAt entry.2 <? oldestTime then Some (entry.1, mi_CreatedAt entry.2)
      else acc
  end.

Definition oldest (entries : list (string * MemoryItem)) : option (string * Z) :=
  fold_left older entries None.

(** [evictOldest]. *)
Definition MemoryCache_evictOldest (m : MemoryCache) : MemoryCache :=
  match oldest (Range (mc_items m)) with
  | None => m
  | Some (oldestKey, _) =>
      match mc_items m !! oldestKey with
      | Some _ =>
          {| mc_items := delete oldestKey (mc_items m);
             mc_maxSize := mc_maxSize m;
             mc_size := mc_size m - 1 |}
      | None => m
      end
  end.

(** [Set]; [now1] and [now2] are its two readings of the clock. *)
Definition MemoryCache_Set (m : MemoryCache) (key : string) (value : V) (ttl : Z)
  (now1 now2 : Z) : MemoryCache :=
  let item := {| mi_Value := value; mi_ExpiresAt := now1 + ttl; mi_CreatedAt := now2 |} in
  let m1 := if mc_maxSize m <=? mc_size m then MemoryCache_evictOldest m else m in
  let size' :=
    match mc_items m1 !! key with
    | Some _ => mc_size m1
    | None => mc_size m1 + 1
    end in
  {| mc_items := <[key := item]> (delete key (mc_items m1));
     mc_maxSize := mc_maxSize m1;
     mc_size := size' |}.

Inductive GetResult : Type :=
| Hit (dest : V)
| CacheMiss
| CacheExpired
| MarshalFailed
| UnmarshalFailed.

Definition is_Hit (r : GetResult) : bool :=
  match r with Hit _ => true | _ => false end.

(** [Get]: the result and the cache it leaves. *)
Definition MemoryCache_Get (m : MemoryCache) (key : string) (now : Z)
  : GetResult * MemoryCache :=
  match mc_items m !! key with
  | None => (CacheMiss, m)
  | Some item =>
      if MemoryItem_IsExpired item now then
        (CacheExpired,
         {| mc_items := delete key (mc_items m);
            mc_maxSize := mc_maxSize m;
            mc_size := mc_size m - 1 |})
      else
        match Marshal (mi_Value item) with
        | None => (MarshalFailed, m)
        | Some data =>
            match Unmarshal data with
            | None => (UnmarshalFailed, m)
            | Some dest => (Hit dest, m)
            end
        end
  end.

(** [Delete]. *)
Definition MemoryCache_Delete (m : MemoryCache) (key : string) : MemoryCache :=
  match mc_items m !! key with
  | Some _ =>
      {| mc_items := delete key (mc_items m);
         mc_maxSize := mc_maxSize m;
         mc_size := mc_size m - 1 |}
  | None => m
  end.

(** [Exists]. *)
Definition MemoryCache_Exists (m : MemoryCache) (key : string) (now : Z)
  : bool * MemoryCache :=
  match mc_items m !! key with
  | None => (false, m)
  | Some item =>
      if MemoryItem_IsExpired item now then
        (false,
         {| mc_items := delete key (mc_items m);
            mc_maxSize := mc_maxSize m;
            mc_size := mc_size m - 1 |})
      else (true, m)
  end.

(** [r] names an entry of [l] whose creation time is the least in [l]. *)
Definition least_created (l : list (string * MemoryItem)) (r : string * Z) : Prop :=
  (exists item, (r.1, item) ∈ l /\ mi_CreatedAt item = r.2) /\
  (forall k item, (k, item) ∈ l -> r.2 <= mi_CreatedAt item).

(** The counter agrees with the map. *)
Definition counted (m : MemoryCache) : Prop :=
  mc_size m = Z.of_nat (base.size (mc_items m)).

End MemoryCache.

Arguments MemoryItem : clear implicits.
Arguments MemoryCache : clear implicits.
Arguments GetResult : clear implicits.

(* ===================================================================== *)
(** * package main: start-up *)
(* ===================================================================== *)

(** [GetLotteryResultByQihao]. *)
Definition MySQLDB_GetLotteryResultByQihao (m : MySQLDB) (qihao : string)
  : option LotteryResult :=
  List.find (fun r => String.eqb (lr_Qihao r) qihao) (lottery_results m).

(** The first loop of [initializeHistoricalData]: every round of the
    historical window that the store lacks is saved as it was fetched. *)
Definition App_saveHistoricalData (m : MySQLDB) (historicalData : list LotteryResult)
  : MySQLDB :=
  fold_left (fun m data =>
               match MySQLDB_GetLotteryResultByQihao m (lr_Qihao data) with
               | None => MySQLDB_SaveLotteryResult m data
               | Some _ => m
               end) historicalData m.

(* ===================================================================== *)
(** * The steps of a cycle *)
(* ===================================================================== *)

(** The step of the cycle that a call belongs to. *)
Inductive Step : Type :=
| StepFetch
| StepNoveltyCheck
| StepVerify
| StepPersistRound
| StepCacheRounds
| StepCacheStats
| StepReadWindow
| StepGenerate
| StepPersistForecast
| StepCacheForecasts
| StepReadLatest
| StepNotify.

#[global] Instance Step_eq_dec : EqDecision Step.
Proof. solve_decision. Defined.

Definition step_of (c : Call) : Step :=
  match c with
  | CallFetchAndValidateLatestData => StepFetch
  | CallCheckNewQihao _ => StepNoveltyCheck
  | CallSaveLotteryResult _ => StepPersistRound
  | CallOnNewLotteryData _ => StepCacheRounds
  | CallValidatePrediction _ _ => StepVerify
  | CallOnPredictionVerified _ _ => StepCacheStats
  | CallGetLast3LotteryData => StepReadWindow
  | CallPredict _ => StepGenerate
  | CallSavePrediction _ => StepPersistForecast
  | CallOnPredictionGenerated _ => StepCacheForecasts
  | CallGetLatestLotteryData => StepReadLatest
  | CallBroadcastNewPrediction _ => StepNotify
  end.

(** The steps of [generateNewPrediction], in its order. *)
Definition generate_steps : list Step :=
  [StepReadWindow; StepGenerate; StepPersistForecast; StepCacheForecasts;
   StepReadLatest; StepNotify].

(** Calls that write a round or a forecast to the store, or notify. *)
Definition writes_or_notifies (c : Call) : bool :=
  match c with
  | CallSaveLotteryResult _ | CallValidatePrediction _ _ | CallSavePrediction _
  | CallBroadcastNewPrediction _ => true
  | _ => false
  end.


(* ===================================================================== *)
(** * package cache: the other operations of the memory cache *)
(* ===================================================================== *)

(** [matchPattern]: a lone ["*"] matches every key, a pattern that ends
    in ['*'] matches the keys that start with the rest of it, any other
    pattern matches itself only. *)
Definition matchPattern (pattern str : string) : bool :=
  if String.eqb pattern "*" then true
  else
    match String.get (String.length pattern - 1) pattern with
    | Some "*"%char =>
        let prefix := String.substring 0 (String.length pattern - 1) pattern in
        (String.length prefix <=? String.length str)%nat
        && String.eqb (String.substring 0 (String.length prefix) str) prefix
    | _ => String.eqb pattern str
    end.

Section MemoryCacheSweeps.

Context {V : Type}.

(** The visiting order of [sync.Map.Range], as for [evictOldest]. *)
Variable Range : gmap string (MemoryItem V) -> list (string * MemoryItem V).

(** The loop [for _, key := range keys] over [LoadAndDelete], with its
    count of the keys that were present. *)
Definition delete_counting (keys : list string) (items : gmap string (MemoryItem V))
  : gmap string (MemoryItem V) * Z :=
  fold_left (fun acc key =>
               match acc.1 !! key with
               | Some _ => (delete key acc.1, acc.2 + 1)
               | None => acc
               end) keys (items, 0).

Definition purge (keys : list string) (m : MemoryCache V) : MemoryCache V :=
  let result := delete_counting keys (mc_items m) in
  {| mc_items := result.1;
     mc_maxSize := mc_maxSize m;
     mc_size := if 0 <? result.2 then mc_size m - result.2 else mc_size m |}.

(** [DeletePattern]. *)
Definition MemoryCache_DeletePattern (m : MemoryCache V) (pattern : string) : MemoryCache V :=
  let keysToDelete :=
    map fst (List.filter (fun entry => matchPattern pattern entry.1) (Range (mc_items m))) in
  purge keysToDelete m.

(** The keys that [cleanupExpired] collects: [IsExpired] reads the clock
    once for every visited entry; [clock i] is the reading for the [i]-th
    visit. *)
Fixpoint expired_from (clock : nat -> Z) (i : nat) (entries : list (string * MemoryItem V))
  : list string :=
  match entries with
  | [] => []
  | entry :: rest =>
      if MemoryItem_IsExpired entry.2 (clock i)
      then entry.1 :: expired_from clock (S i) rest
      else expired_from clock (S i) rest
  end.

(** [cleanupExpired], one sweep. *)
Definition MemoryCache_cleanupExpired (m : MemoryCache V) (clock : nat -> Z) : MemoryCache V :=
  purge (expired_from clock 0 (Range (mc_items m))) m.

(** [SetTTL]: no test of expiry; the creation time stays. *)
Definition MemoryCache_SetTTL (m : MemoryCache V) (key : string) (ttl now : Z)
  : Result unit * MemoryCache V :=
  match mc_items m !! key with
  | None => (Err ("cache key not found: " ++ key), m)
  | Some item =>
      (Ok tt,
       {| mc_items :=
            <[key := {| mi_Value := mi_Value item;
                        mi_ExpiresAt := now + ttl;
                        mi_CreatedAt := mi_CreatedAt item |}]> (mc_items m);
          mc_maxSize := mc_maxSize m;
          mc_size := mc_size m |})
  end.

(** [GetTTL]: [now1] is the clock of [IsExpired], [now2] that of
    [time.Until]; the saturation of a [time.Duration] at the ends of
    [int64], some 292 years, is left out. *)
Definition MemoryCache_GetTTL (m : MemoryCache V) (key : string) (now1 now2 : Z)
  : Result Z :=
  match mc_items m !! key with
  | None => Err ("cache key not found: " ++ key)
  | Some item =>
      if MemoryItem_IsExpired item now1 then Ok 0
      else Ok (mi_ExpiresAt item - now2)
  end.

(** [Clear]. *)
Definition MemoryCache_Clear (m : MemoryCache V) : MemoryCache V :=
  {| mc_items := ∅; mc_maxSize := mc_maxSize m; mc_size := 0 |}.

(** [Size]. *)
Definition MemoryCache_Size (m : MemoryCache V) : Z := mc_size m.

(** The values of the map that [Stats] returns. *)
Record CacheStats : Type := {
  total_size : Z;
  valid_items : Z;
  expired_items : Z;
  max_size : Z
}.

(** The counting loop of [Stats]: (valid, expired). *)
Fixpoint count_from (clock : nat -> Z) (i : nat) (entries : list (string * MemoryItem V))
  : Z * Z :=
  match entries with
  | [] => (0, 0)
  | entry :: rest =>
      let counts := count_from clock (S i) rest in
      if MemoryItem_IsExpired entry.2 (clock i) then (counts.1, counts.2 + 1)
      else (counts.1 + 1, counts.2)
  end.

(** [Stats]. *)
Definition MemoryCache_Stats (m : MemoryCache V) (clock : nat -> Z) : CacheStats :=
  let counts := count_from clock 0 (Range (mc_items m)) in
  {| total_size := mc_size m;
     valid_items := counts.1;
     expired_items := counts.2;
     max_size := mc_maxSize m |}.

(** The operations a user of the cache can issue, with the clock readings
    each one takes. *)
Inductive CacheOp : Type :=
| OpSet (key : string) (value : V) (ttl now1 now2 : Z)
| OpGet (key : string) (now : Z)
| OpDelete (key : string)
| OpDeletePattern (pattern : string)
| OpExists (key : string) (now : Z)
| OpSetTTL (key : string) (ttl now : Z)
| OpCleanup (clock : nat -> Z)
| OpClear.

(** The counter counts the entries and does not exceed the maximum, or
    1 when the maximum is below 1. *)
Definition within_capacity (m : MemoryCache V) : Prop :=
  counted m /\ mc_size m <= Z.max (mc_maxSize m) 1.

End MemoryCacheSweeps.

Arguments CacheOp : clear implicits.

Section MemoryCacheRuns.

Context {V Data : Type}.
Variable Marshal : V -> option Data.
Variable Unmarshal : Data -> option V.
Variable Range : gmap string (MemoryItem V) -> list (string * MemoryItem V).

(** The cache after one operation. *)
Definition apply_op (m : MemoryCache V) (op : CacheOp V) : MemoryCache V :=
  match op with
  | OpSet key value ttl now1 now2 => MemoryCache_Set Range m key value ttl now1 now2
  | OpGet key now => (MemoryCache_Get Marshal Unmarshal m key now).2
  | OpDelete key => MemoryCache_Delete m key
  | OpDeletePattern pattern => MemoryCache_DeletePattern Range m pattern
  | OpExists key now => (MemoryCache_Exists m key now).2
  | OpSetTTL key ttl now => (MemoryCache_SetTTL m key ttl now).2
  | OpCleanup clock => MemoryCache_cleanupExpired Range m clock
  | OpClear => MemoryCache_Clear m
  end.

(** The cache after a sequence of operations. *)
Definition run_ops (m : MemoryCache V) (ops : list (CacheOp V)) : MemoryCache V :=
  fold_left apply_op ops m.

End MemoryCacheRuns.

(* ===================================================================== *)
(** * package database: the remaining queries *)
(* ===================================================================== *)

(** [ParseOddEven]. *)
Definition ParseOddEven (oddEvenStr : string) : string :=
  if String.eqb oddEvenStr "双" || String.eqb oddEvenStr "偶" || String.eqb oddEvenStr "even"
  then "双"
  else "单".

(** [WHERE is_correct IS NULL AND actual_num IS NULL]. *)
Definition unverified (p : Prediction) : bool :=
  match p_IsCorrect p, p_ActualNum p with
  | None, None => true
  | _, _ => false
  end.

(** [GetUnverifiedPredictions]: [ORDER BY predicted_at DESC], no LIMIT. *)
Definition MySQLDB_GetUnverifiedPredictions (m : MySQLDB) : list Prediction :=
  order_by_desc p_PredictedAt (filter (fun p => unverified p = true) (predictions m)).

Section Collation.

(** [a < b] on the column [target_qihao] under its collation
    (utf8mb4_unicode_ci), which this development leaves open. *)
Variable qihao_lt : string -> string -> bool.

(** [WHERE target_qihao < ? AND is_correct IS NULL AND actual_num IS NULL]. *)
Definition expired_pending (latestQihao : string) (p : Prediction) : bool :=
  qihao_lt (p_TargetQihao p) latestQihao && unverified p.

(** [CleanupExpiredPredictions]: the DELETE and its [RowsAffected]. *)
Definition MySQLDB_CleanupExpiredPredictions (m : MySQLDB) (latestQihao : string)
  : Z * MySQLDB :=
  (Z.of_nat (length (filter (fun p => expired_pending latestQihao p = true) (predictions m))),
   with_predictions m
     (filter (fun p => expired_pending latestQihao p = false) (predictions m))).

(** [App.cleanupExpiredPredictions]: the first entry of the window gives
    the identifier. *)
Definition App_cleanupExpiredPredictions (m : MySQLDB) (historicalData : list LotteryResult)
  : Z * MySQLDB :=
  match historicalData with
  | [] => (0, m)
  | latest :: _ => MySQLDB_CleanupExpiredPredictions m (lr_Qihao latest)
  end.

End Collation.

(** The map [lotteryMap] of [syncPredictionVerifications]: a later entry
    of the window replaces an earlier one of the same identifier. *)
Definition lotteryMap (historicalData : list LotteryResult) : gmap string LotteryResult :=
  fold_left (fun acc data => <[lr_Qihao data := data]> acc) historicalData ∅.

(** The loop of [syncPredictionVerifications] over the forecasts that were
    pending when it started; [clock i] is the time at which the [i]-th of
    them is handled. A failed validation is skipped. The count stays far
    below the range of [int]. *)
Fixpoint sync_loop (lm : gmap string LotteryResult) (clock : nat -> Z) (i : nat)
  (unverifiedPredictions : list Prediction) (m : MySQLDB) (verifiedCount : Z)
  : Z * MySQLDB :=
  match unverifiedPredictions with
  | [] => (verifiedCount, m)
  | prediction :: rest =>
      match lm !! p_TargetQihao prediction with
      | Some lotteryResult =>
          match Validator_ValidatePrediction m (p_TargetQihao prediction) lotteryResult
                  (clock i) with
          | (Err _, m') => sync_loop lm clock (S i) rest m' verifiedCount
          | (Ok _, m') => sync_loop lm clock (S i) rest m' (verifiedCount + 1)
          end
      | None => sync_loop lm clock (S i) rest m verifiedCount
      end
  end.

(** [syncPredictionVerifications]. *)
Definition App_syncPredictionVerifications (m : MySQLDB)
  (historicalData : list LotteryResult) (clock : nat -> Z) : Z * MySQLDB :=
  match MySQLDB_GetUnverifiedPredictions m with
  | [] => (0, m)
  | unverifiedPredictions =>
      sync_loop (lotteryMap historicalData) clock 0 unverifiedPredictions m 0
  end.

(** A forecast row after a synchronisation with the window [lm]: as it
    was, or verified against the round the window holds for its target. *)
Definition synced (lm : gmap string LotteryResult) (p p' : Prediction) : Prop :=
  p' = p \/
  exists lotteryResult isCorrect now,
    lm !! p_TargetQihao p = Some lotteryResult /\
    p' = set_verified lotteryResult (CalculateOddEven (lr_SumValue lotteryResult))
           isCorrect now p.

(** The keys of [l] never increase from one row to a later one. *)
Fixpoint descending {A} (key : A -> Z) (l : list A) : Prop :=
  match l with
  | [] => True
  | x :: l' => Forall (fun y => key y <= key x) l' /\ descending key l'
  end.

(** [result] holds [n] rows of [table] (all of them if there are fewer)
    with the greatest keys, greatest first. *)
Definition greatest_first {A} (key : A -> Z) (n : nat) (table result : list A) : Prop :=
  length result = Nat.min n (length table) /\
  descending key result /\
  exists others,
    table ≡ₚ (result ++ others)%list /\
    forall r r', In r result -> In r' others -> key r' <= key r.

(* ===================================================================== *)
(** * package api: requests and retries *)
(* ===================================================================== *)

(** What one [httpClient.Get] gives: a transport error, or a status code
    with the body (or the error of reading it). *)
Inductive HTTPOutcome : Type :=
| GetFailed (e : string)
| Responded (StatusCode : Z) (body : Result string).

(** What [FetchLotteryData] does besides computing: it sleeps and it
    sends requests; [Requested i] is the request of attempt [i]. *)
Inductive FetchEvent : Type :=
| Slept (d : Z)
| Requested (attempt : nat).

Section Requests.

(** [json.Unmarshal(body, &apiResponse)] of the Go library. *)
Variable json_Unmarshal : string -> Result APIResponse.

(** [makeRequest], on the outcome of its GET. *)
Definition Client_makeRequest (outcome : HTTPOutcome) : Result APIResponse :=
  match outcome with
  | GetFailed e => Err ("HTTP request failed: " ++ e)
  | Responded StatusCode body =>
      if negb (StatusCode =? 200)
      then Err ("HTTP request failed with status: " ++ FormatInt StatusCode)
      else
        match body with
        | Err e => Err ("failed to read response body: " ++ e)
        | Ok body =>
            match json_Unmarshal body with
            | Err e => Err ("failed to unmarshal response: " ++ e)
            | Ok apiResponse =>
                if negb (String.eqb (Message apiResponse) "success")
                then Err ("API returned error message: " ++ Message apiResponse)
                else Ok apiResponse
            end
        end
  end.

(** The fields of [Client] that the retry loop reads. *)
Variable retryCount : Z.
Variable retryDelay : Z.

(** The outcome of the GET of each attempt. *)
Variable outcomes : nat -> HTTPOutcome.

(** The loop [for attempt := 0; attempt <= c.retryCount; attempt++] with
    [remaining] iterations to go. *)
Fixpoint fetch_attempts (remaining attempt : nat) (lastErr : string)
  (events : list FetchEvent) : Result APIResponse * list FetchEvent :=
  match remaining with
  | O =>
      (Err ("failed to fetch lottery data after " ++ FormatInt retryCount
            ++ " attempts: " ++ lastErr), events)
  | S remaining' =>
      let events' :=
        ((if (0 <? attempt)%nat
          then events ++ [Slept (wrap64 (retryDelay * Z.of_nat attempt))]
          else events) ++ [Requested attempt])%list in
      match Client_makeRequest (outcomes attempt) with
      | Err e => fetch_attempts remaining' (S attempt) e events'
      | Ok resp => (Ok resp, events')
      end
  end.

(** [FetchLotteryData]: [retryCount + 1] attempts at most, none when
    [retryCount] is negative ([lastErr] is then still nil). A
    [retryCount] of [math.MaxInt64], with which the loop of the source
    has no bound, is outside this definition. *)
Definition Client_FetchLotteryData : Result APIResponse * list FetchEvent :=
  fetch_attempts (Z.to_nat (retryCount + 1)) 0 "<nil>" [].

(** The events of the attempts [0 .. n-1]: a sleep of [attempt] times
    the delay before every attempt but the first. *)
Definition attempt_events (n : nat) : list FetchEvent :=
  flat_map (fun attempt =>
              if (0 <? attempt)%nat
              then [Slept (wrap64 (retryDelay * Z.of_nat attempt)); Requested attempt]
              else [Requested attempt]) (seq 0 n).

End Requests.

(** [time.Duration] subtraction saturates at the ends of [int64]. *)
Definition saturate64 (z : Z) : Z := Z.max minInt64 (Z.min maxInt64 z).

Definition Second : Z := 1000000000.
Definition Minute : Z := 60 * Second.

(** [CheckDataFreshness]; [now] is the clock of [time.Since]. *)
Definition Client_CheckDataFreshness (latestTime now : Z) : bool :=
  let expectedInterval := 3 * Minute + 30 * Second in
  let timeSinceLatest := saturate64 (now - latestTime) in
  let threshold := 5 * Minute in
  if threshold <? timeSinceLatest then false
  else if expectedInterval <? timeSinceLatest then false
  else true.

(* ===================================================================== *)
(** * package predictor: the statistics calculator *)
(* ===================================================================== *)

(** [Statistics]. [AverageConfidence] averages the column
    [confidence_score], which the rows of this development leave out. *)
Record Statistics : Type := {
  st_TotalPredictions : Z;
  st_CorrectPredictions : Z;
  st_IncorrectPredictions : Z;
  st_AccuracyRate : Q;
  st_ExactMatches : Z;
  st_PartialMatches : Z;
  st_NoMatches : Z;
  st_LastUpdateTime : Z
}.

Definition with_matches (stats : Statistics) (exact partial none : Z) : Statistics :=
  {| st_TotalPredictions := st_TotalPredictions stats;
     st_CorrectPredictions := st_CorrectPredictions stats;
     st_IncorrectPredictions := st_IncorrectPredictions stats;
     st_AccuracyRate := st_AccuracyRate stats;
     st_ExactMatches := exact;
     st_PartialMatches := partial;
     st_NoMatches := none;
     st_LastUpdateTime := st_LastUpdateTime stats |}.

(** The loop [for i := 0; i < 3; i++] of [categorizeMatch] on slices of
    length 3: ([exactMatch], [matchCount]). *)
Definition match_count (predictedNums actualNums : list Z) : bool * Z :=
  fold_left (fun state i =>
               if nth i predictedNums 0 =? nth i actualNums 0
               then (state.1, state.2 + 1)
               else (false, state.2))
            [0; 1; 2]%nat (true, 0).

(** [categorizeMatch]: the error it returns and the statistics it leaves. *)
Definition StatisticsCalculator_categorizeMatch (pred : Prediction) (stats : Statistics)
  : Result unit * Statistics :=
  match p_ActualNum pred with
  | None => (Err "actual number is nil", stats)
  | Some actualNum =>
      match ParseOpenNum (p_PredictedNum pred) with
      | Err e => (Err ("failed to parse predicted numbers: " ++ e), stats)
      | Ok predictedNums =>
          match ParseOpenNum actualNum with
          | Err e => (Err ("failed to parse actual numbers: " ++ e), stats)
          | Ok actualNums =>
              if (length predictedNums =? 3)%nat && (length actualNums =? 3)%nat then
                let '(exactMatch, matchCount) := match_count predictedNums actualNums in
                if exactMatch then
                  (Ok tt, with_matches stats (wrap64 (st_ExactMatches stats + 1))
                            (st_PartialMatches stats) (st_NoMatches stats))
                else if 0 <? matchCount then
                  (Ok tt, with_matches stats (st_ExactMatches stats)
                            (wrap64 (st_PartialMatches stats + 1)) (st_NoMatches stats))
                else
                  (Ok tt, with_matches stats (st_ExactMatches stats)
                            (st_PartialMatches stats) (wrap64 (st_NoMatches stats + 1)))
              else (Ok tt, stats)
          end
      end
  end.

(** [calculateDetailedStats]: the classification of the verified rows;
    an error of [categorizeMatch] is logged and the loop goes on. *)
Definition StatisticsCalculator_calculateDetailedStats (predictions : list Prediction)
  (stats : Statistics) : Statistics :=
  fold_left (fun stats pred =>
               match p_IsCorrect pred, p_ActualNum pred with
               | Some _, Some _ => (StatisticsCalculator_categorizeMatch pred stats).2
               | _, _ => stats
               end) predictions stats.

(** [CalculateStatistics]: the totals come from the aggregate query over
    all verified rows, the match classes from the latest 100 rows. The
    two totals are counts of rows of one table, so their difference needs
    no wrapping. *)
Definition StatisticsCalculator_CalculateStatistics (m : MySQLDB) (now : Z)
  : Result Statistics :=
  match MySQLDB_GetPredictionStats m with
  | Err e => Err ("failed to get prediction stats from database: " ++ e)
  | Ok dbStats =>
      let predictions := MySQLDB_GetLatestPredictions m 100 in
      let stats :=
        {| st_TotalPredictions := TotalPredictions dbStats;
           st_CorrectPredictions := CorrectPredictions dbStats;
           st_IncorrectPredictions := TotalPredictions dbStats - CorrectPredictions dbStats;
           st_AccuracyRate := AccuracyRate dbStats;
           st_ExactMatches := 0;
           st_PartialMatches := 0;
           st_NoMatches := 0;
           st_LastUpdateTime := now |} in
      Ok (StatisticsCalculator_calculateDetailedStats predictions stats)
  end.

(** [ValidateBatch]: every round is validated against the forecast of its
    own identifier; a round whose validation fails is skipped; [clock i]
    is the time of the [i]-th validation. *)
Fixpoint validate_batch (clock : nat -> Z) (i : nat) (results : list LotteryResult)
  (m : MySQLDB) : list ValidationResult * MySQLDB :=
  match results with
  | [] => ([], m)
  | result :: rest =>
      match Validator_ValidatePrediction m (lr_Qihao result) result (clock i) with
      | (Err _, m') => validate_batch clock (S i) rest m'
      | (Ok validation, m') =>
          let '(validationResults, m'') := validate_batch clock (S i) rest m' in
          (validation :: validationResults, m'')
      end
  end.

Definition Validator_ValidateBatch (m : MySQLDB) (results : list LotteryResult)
  (clock : nat -> Z) : list ValidationResult * MySQLDB :=
  validate_batch clock 0 results m.

(* ===================================================================== *)
(** * package cache: the cache manager *)
(* ===================================================================== *)

(** The values the manager stores in the memory cache ([interface{}] in
    Go), with their dynamic type: a struct or a pointer to it ([ptr]), or
    a slice. A stored pointer is taken as the struct it points to when it
    is stored. *)
Inductive CacheValue : Type :=
| VLotteryResult (ptr : bool) (result : LotteryResult)
| VLotteryResults (results : list LotteryResult)
| VPrediction (ptr : bool) (prediction : Prediction)
| VPredictions (predictions : list Prediction)
| VPredictionStats (ptr : bool) (stats : PredictionStats).

(** The type of the variable that a read fills ([dest]). *)
Inductive Dest : Type :=
| DLotteryResult
| DLotteryResults
| DPrediction
| DPredictions
| DPredictionStats.

(** The static type behind a stored value, and the value as a variable of
    that type holds it. *)
Definition Dest_of (v : CacheValue) : Dest :=
  match v with
  | VLotteryResult _ _ => DLotteryResult
  | VLotteryResults _ => DLotteryResults
  | VPrediction _ _ => DPrediction
  | VPredictions _ => DPredictions
  | VPredictionStats _ _ => DPredictionStats
  end.

Definition content (v : CacheValue) : CacheValue :=
  match v with
  | VLotteryResult _ result => VLotteryResult false result
  | VLotteryResults results => VLotteryResults results
  | VPrediction _ prediction => VPrediction false prediction
  | VPredictions predictions => VPredictions predictions
  | VPredictionStats _ stats => VPredictionStats false stats
  end.

(** [copyData]: the type switch has cases for the structs and the
    slices, none for a pointer; the result is what [dest] holds. *)
Definition CacheManager_copyData (src : CacheValue) (dest : Dest) : Result CacheValue :=
  match src, dest with
  | VLotteryResult false result, DLotteryResult => Ok (VLotteryResult false result)
  | VLotteryResults results, DLotteryResults => Ok (VLotteryResults results)
  | VPrediction false prediction, DPrediction => Ok (VPrediction false prediction)
  | VPredictions predictions, DPredictions => Ok (VPredictions predictions)
  | VPredictionStats false stats, DPredictionStats => Ok (VPredictionStats false stats)
  | _, _ => Err "unsupported type conversion"
  end.

(** [getFromDatabase]. *)
Definition CacheManager_getFromDatabase (mysql : MySQLDB) (key : string) : Result CacheValue :=
  if String.eqb key "lottery:latest" then
    match MySQLDB_GetLatestLotteryResults mysql 1 with
    | [] => Err "no latest lottery data"
    | result :: _ => Ok (VLotteryResult false result)
    end
  else if String.eqb key "lottery:last3" then
    Ok (VLotteryResults (MySQLDB_GetLatestLotteryResults mysql 3))
  else if String.eqb key "lottery:last10" then
    Ok (VLotteryResults (MySQLDB_GetLatestLotteryResults mysql 10))
  else if String.eqb key "prediction:latest" then
    match MySQLDB_GetLatestPredictions mysql 1 with
    | [] => Err "no latest prediction"
    | prediction :: _ => Ok (VPrediction false prediction)
    end
  else if String.eqb key "prediction:history:10" then
    Ok (VPredictions (MySQLDB_GetLatestPredictions mysql 10))
  else if String.eqb key "stats:accuracy" then
    match MySQLDB_GetPredictionStats mysql with
    | Ok stats => Ok (VPredictionStats true stats)
    | Err e => Err e
    end
  else Err ("unknown cache key: " ++ key).

Section CacheManager.

(** The JSON encoding: [json.Marshal(value)], and
    [json.Unmarshal(data, dest)] for a [dest] of the given type, with
    the value it leaves in [dest]. *)
Context {Data : Type}.
Variable Marshal : CacheValue -> option Data.
Variable Unmarshal : Data -> Dest -> option CacheValue.

Variable Range : gmap string (MemoryItem CacheValue) -> list (string * MemoryItem CacheValue).

(** The manager's memory cache and its default lifetime; the store is
    an argument of the operations that read it. *)
Record CacheManager : Type := {
  cm_memory : MemoryCache CacheValue;
  cm_defaultTTL : Z
}.

Definition with_memory (cm : CacheManager) (memory : MemoryCache CacheValue) : CacheManager :=
  {| cm_memory := memory; cm_defaultTTL := cm_defaultTTL cm |}.

(** [NewCacheManager]: a memory cache of at most 1000 entries. *)
Definition NewCacheManager (defaultTTL : Z) : CacheManager :=
  {| cm_memory := NewMemoryCache 1000; cm_defaultTTL := defaultTTL |}.

(** [CacheManager.Set]; [now1] and [now2] are the clock readings of
    [memory.Set], which never fails. *)
Definition CacheManager_Set (cm : CacheManager) (key : string) (value : CacheValue)
  (ttl now1 now2 : Z) : CacheManager :=
  let ttl := if ttl =? 0 then cm_defaultTTL cm else ttl in
  with_memory cm (MemoryCache_Set Range (cm_memory cm) key value ttl now1 now2).

(** [CacheManager.Get] into a [dest] of type [dest]; [clock 0] is the
    reading of [memory.Get], [clock 1] and [clock 2] are those of the
    [memory.Set] that refills the cache. *)
Definition CacheManager_Get (cm : CacheManager) (mysql : MySQLDB) (key : string)
  (dest : Dest) (clock : nat -> Z) : Result CacheValue * CacheManager :=
  match MemoryCache_Get Marshal (fun data => Unmarshal data dest) (cm_memory cm) key
          (clock 0%nat) with
  | (Hit value, memory) => (Ok value, with_memory cm memory)
  | (_, memory) =>
      match CacheManager_getFromDatabase mysql key with
      | Err _ => (Err ("cache miss: " ++ key), with_memory cm memory)
      | Ok data =>
          (CacheManager_copyData data dest,
           with_memory cm
             (MemoryCache_Set Range memory key data (cm_defaultTTL cm)
                (clock 1%nat) (clock 2%nat)))
      end
  end.

(** [InvalidatePattern]. *)
Definition CacheManager_InvalidatePattern (cm : CacheManager) (pattern : string)
  : CacheManager :=
  with_memory cm (MemoryCache_DeletePattern Range (cm_memory cm) pattern).

(** [OnNewLotteryData]; [clock i] is the [i]-th clock reading. *)
Definition CacheManager_OnNewLotteryData (cm : CacheManager) (mysql : MySQLDB)
  (data : LotteryResult) (clock : nat -> Z) : CacheManager :=
  let cm := CacheManager_InvalidatePattern cm "lottery:*" in
  let cm := CacheManager_InvalidatePattern cm "prediction:*" in
  let cm := CacheManager_Set cm "lottery:latest" (VLotteryResult true data)
              (cm_defaultTTL cm) (clock 0%nat) (clock 1%nat) in
  let cm := CacheManager_Set cm "lottery:last3"
              (VLotteryResults (MySQLDB_GetLatestLotteryResults mysql 3))
              (cm_defaultTTL cm) (clock 2%nat) (clock 3%nat) in
  CacheManager_Set cm "lottery:last10"
    (VLotteryResults (MySQLDB_GetLatestLotteryResults mysql 10))
    (cm_defaultTTL cm) (clock 4%nat) (clock 5%nat).

(** [GetLast3LotteryData]; [clock 3] and [clock 4] are the readings of
    its own [Set]. A successful [Get] has filled the slice. *)
Definition CacheManager_GetLast3LotteryData (cm : CacheManager) (mysql : MySQLDB)
  (clock : nat -> Z) : Result (list LotteryResult) * CacheManager :=
  match CacheManager_Get cm mysql "lottery:last3" DLotteryResults clock with
  | (Ok (VLotteryResults results), cm') => (Ok results, cm')
  | (_, cm') =>
      let results := MySQLDB_GetLatestLotteryResults mysql 3 in
      (Ok results,
       CacheManager_Set cm' "lottery:last3" (VLotteryResults results) (cm_defaultTTL cm')
         (clock 3%nat) (clock 4%nat))
  end.

(** [GetLatestLotteryData]. *)
Definition CacheManager_GetLatestLotteryData (cm : CacheManager) (mysql : MySQLDB)
  (clock : nat -> Z) : Result LotteryResult * CacheManager :=
  match CacheManager_Get cm mysql "lottery:latest" DLotteryResult clock with
  | (Ok (VLotteryResult _ result), cm') => (Ok result, cm')
  | (_, cm') =>
      match MySQLDB_GetLatestLotteryResults mysql 1 with
      | [] => (Err "no lottery data found", cm')
      | result :: _ =>
          (Ok result,
           CacheManager_Set cm' "lottery:latest" (VLotteryResult false result)
             (cm_defaultTTL cm') (clock 3%nat) (clock 4%nat))
      end
  end.

(** The JSON encoding is faithful: what is decoded into a variable has
    the type of the variable, and decoding the encoding of a value of
    that type gives its content back. *)
Definition json_faithful : Prop :=
  (forall data dest value,
     Unmarshal data dest = Some value -> Dest_of value = dest /\ content value = value) /\
  (forall stored data value,
     Marshal stored = Some data ->
     Unmarshal data (Dest_of stored) = Some value -> value = content stored).

End CacheManager.

#[global] Instance Dest_eq_dec : EqDecision Dest.
Proof. solve_decision. Defined.

(** The operation stores a value under [key]. *)
Definition sets_key {V} (key : string) (op : CacheOp V) : bool :=
  match op with
  | OpSet key' _ _ _ _ => String.eqb key' key
  | _ => false
  end.

(** Under [key] the cache holds [value] or nothing. *)
Definition holds_or_misses {V} (memory : MemoryCache V) (key : string) (value : V) : Prop :=
  forall item, mc_items memory !! key = Some item -> mi_Value item = value.

(* ===================================================================== *)
(** * package predictor: the trend analysis *)
(* ===================================================================== *)

From Stdlib Require Import Floats.

(** Go's [float64(n)] for an [int] above the least one: the nearest
    binary64 number. *)
Definition float64_of_int (z : Z) : float :=
  if z <? 0 then PrimFloat.opp (PrimFloat.of_uint63 (Uint63.of_Z (- z)))
  else PrimFloat.of_uint63 (Uint63.of_Z z).

(** The inner loop of [calculateMovingAverage]: the number of correct
    entries among [accuracy[i-window+1 .. i]]. *)
Definition window_correct (accuracy : list bool) (window i : Z) : Z :=
  Z.of_nat (length (List.filter (fun correct => correct)
                      (take (Z.to_nat window) (drop (Z.to_nat (i - window + 1)) accuracy)))).

(** [calculateMovingAverage]: one average for every [i] from
    [window - 1] to the last index. *)
Definition StatisticsCalculator_calculateMovingAverage (accuracy : list bool) (window : Z)
  : list float :=
  if Z.of_nat (length accuracy) <? window then []
  else
    map (fun k =>
           let i := window - 1 + Z.of_nat k in
           PrimFloat.mul
             (PrimFloat.div (float64_of_int (window_correct accuracy window i))
                (float64_of_int window))
             100%float)
        (seq 0 (Z.to_nat (Z.of_nat (length accuracy) - window + 1))).

(** [analyzeTrendDirection]. *)
Definition StatisticsCalculator_analyzeTrendDirection (movingAverage : list float) : string :=
  if (length movingAverage <? 2)%nat then "insufficient_data"
  else
    let recent := nth (length movingAverage - 1) movingAverage 0%float in
    let previous := nth (length movingAverage - 2) movingAverage 0%float in
    if PrimFloat.ltb (PrimFloat.add previous 1%float) recent then "improving"
    else if PrimFloat.ltb recent (PrimFloat.sub previous 1%float) then "declining"
    else "stable".

(** The entries of the map that [GetTrendAnalysis] returns;
    [confidence_trend] lists the column [confidence_score], which the
    rows of this development leave out. *)
Record TrendAnalysis : Type := {
  recent_accuracy : list bool;
  moving_average : list float;
  trend_direction : string;
  analysis_time : Z
}.

(** [GetTrendAnalysis]: the verdicts of the verified forecasts among the
    latest 50, in the order of [GetLatestPredictions] (greatest target
    first). *)
Definition StatisticsCalculator_GetTrendAnalysis (m : MySQLDB) (now : Z) : TrendAnalysis :=
  let predictions := MySQLDB_GetLatestPredictions m 50 in
  let recentAccuracy :=
    flat_map (fun pred => match p_IsCorrect pred with
                          | Some isCorrect => [isCorrect]
                          | None => []
                          end) predictions in
  let movingAverage := StatisticsCalculator_calculateMovingAverage recentAccuracy 10 in
  {| recent_accuracy := recentAccuracy;
     moving_average := movingAverage;
     trend_direction := StatisticsCalculator_analyzeTrendDirection movingAverage;
     analysis_time := now |}.

(* ===================================================================== *)
(** * package telegram: the labels of the messages *)
(* ===================================================================== *)

(** [analyzeOddEvenPattern]. *)
Definition Bot_analyzeOddEvenPattern (sum : Z) : string :=
  if Z.rem sum 2 =? 0 then "Even" else "Odd".

(** [translateOddEven]. *)
Definition Bot_translateOddEven (oddEven : string) : string :=
  if String.eqb oddEven "单" then "Odd"
  else if String.eqb oddEven "双" then "Even"
  else oddEven.

(* ===================================================================== *)
(** * package predictor: the predictor manager *)
(* ===================================================================== *)

(** The interface [Predictor]; [Predict] takes the clock it reads. *)
Class Predictor (T : Type) : Type := {
  Predict : T -> list LotteryResult -> Z -> Result PredictionResult;
  GetName : T -> string;
  GetVersion : T -> string;
  ValidateInput : T -> list LotteryResult -> Result unit;
  GetRequiredHistorySize_of : T -> Z
}.

(** [DefaultPredictor] with its two fields. *)
Record DefaultPredictor : Type := {
  dp_name : string;
  dp_version : string
}.

(** [NewDefaultPredictor]. *)
Definition NewDefaultPredictor : DefaultPredictor :=
  {| dp_name := "default"; dp_version := "v1.0" |}.

(** The methods of [DefaultPredictor]; [Predict] stamps the result with
    the version of the receiver. *)
#[global] Instance DefaultPredictor_Predictor : Predictor DefaultPredictor := {
  Predict dp history now :=
    match DefaultPredictor_Predict history now with
    | Ok result =>
        Ok {| pr_TargetQihao := pr_TargetQihao result;
              pr_PredictedNum := pr_PredictedNum result;
              pr_AlgorithmVersion := dp_version dp;
              pr_Timestamp := pr_Timestamp result |}
    | Err e => Err e
    end;
  GetName dp := dp_name dp;
  GetVersion dp := dp_version dp;
  ValidateInput dp history := DefaultPredictor_ValidateInput history;
  GetRequiredHistorySize_of dp := GetRequiredHistorySize
}.

(** A value of interface type: an implementation with its methods. *)
Record AnyPredictor : Type := {
  ap_type : Type;
  ap_methods : Predictor ap_type;
  ap_value : ap_type
}.

Definition AnyPredictor_Predict (p : AnyPredictor) (history : list LotteryResult) (now : Z)
  : Result PredictionResult :=
  @Predict (ap_type p) (ap_methods p) (ap_value p) history now.

Definition AnyPredictor_GetName (p : AnyPredictor) : string :=
  @GetName (ap_type p) (ap_methods p) (ap_value p).

(** [PredictorManager]; [None] is the nil [current]. *)
Record PredictorManager : Type := {
  pm_predictors : gmap string AnyPredictor;
  pm_current : option AnyPredictor
}.

(** [RegisterPredictor]. *)
Definition PredictorManager_RegisterPredictor (pm : PredictorManager) (predictor : AnyPredictor)
  : PredictorManager :=
  {| pm_predictors := <[AnyPredictor_GetName predictor := predictor]> (pm_predictors pm);
     pm_current := pm_current pm |}.

(** [SetCurrentPredictor]. *)
Definition PredictorManager_SetCurrentPredictor (pm : PredictorManager) (name : string)
  : Result unit * PredictorManager :=
  match pm_predictors pm !! name with
  | None => (Err ("predictor not found: " ++ name), pm)
  | Some predictor =>
      (Ok tt, {| pm_predictors := pm_predictors pm; pm_current := Some predictor |})
  end.

(** [NewPredictorManager]. *)
Definition NewPredictorManager : PredictorManager :=
  let manager := {| pm_predictors := ∅; pm_current := None |} in
  let defaultPredictor :=
    {| ap_type := DefaultPredictor; ap_methods := DefaultPredictor_Predictor;
       ap_value := NewDefaultPredictor |} in
  let manager := PredictorManager_RegisterPredictor manager defaultPredictor in
  (PredictorManager_SetCurrentPredictor manager "default").2.

(** [PredictorManager.Predict]. *)
Definition PredictorManager_Predict (pm : PredictorManager) (history : list LotteryResult)
  (now : Z) : Result PredictionResult :=
  match pm_current pm with
  | None => Err "no current predictor set"
  | Some current => AnyPredictor_Predict current history now
  end.

(* ===================================================================== *)
(** * Batches of validations *)
(* ===================================================================== *)

(** A forecast row after a batch validation over [results]: as it was,
    or verified against a round of the batch that carries its target. *)
Definition batch_verified (results : list LotteryResult) (p p' : Prediction) : Prop :=
  p' = p \/
  exists result isCorrect now,
    In result results /\ lr_Qihao result = p_TargetQihao p /\
    p' = set_verified result (CalculateOddEven (lr_SumValue result)) isCorrect now p.

(* ===================================================================== *)
(** * Sample data *)
(* ===================================================================== *)

(** A pending forecast as [generateNewPrediction] stores it. *)
Definition pending_forecast (target predicted : string) (predictedAt : Z) : Prediction :=
  let sum := match ParseOpenNum predicted with Ok nums => CalculateSum nums | Err _ => 0 end in
  {| p_TargetQihao := target;
     p_PredictedNum := predicted;
     p_PredictedSum := sum;
     p_PredictedOddEven := CalculateOddEven sum;
     p_ActualNum := None; p_ActualSum := None; p_ActualOddEven := None;
     p_IsCorrect := None;
     p_AlgorithmVersion := "v1.0";
     p_PredictedAt := predictedAt;
     p_VerifiedAt := None |}.

Definition sample_round (qihao openNum : string) (sum openTime : Z) : LotteryResult :=
  {| lr_Qihao := qihao;
     lr_OpenTime := openTime;
     lr_OpenTimeString := "08-23 01:16:00";
     lr_OpenNum := openNum;
     lr_SumValue := sum |}.

(** Three stored rounds and the pending forecast for round 3326100. *)
Definition sample_store : MySQLDB :=
  {| lottery_results :=
       [sample_round "3326097" "4+0+3" 7 1;
        sample_round "3326098" "6+6+6" 18 2;
        sample_round "3326099" "1+7+9" 17 3];
     predictions := [pending_forecast "3326100" "2+4+0" 4] |}.

(** Three verified forecasts, one of them correct, and a pending one. *)
Definition sample_verified_store : MySQLDB :=
  (MySQLDB_ValidatePrediction
     (MySQLDB_ValidatePrediction
        (MySQLDB_ValidatePrediction
           {| lottery_results := [];
              predictions := [pending_forecast "3326097" "2+4+0" 1;
                              pending_forecast "3326098" "2+4+0" 11;
                              pending_forecast "3326099" "2+4+0" 21;
                              pending_forecast "3326100" "2+4+0" 31] |}
           "3326097" (sample_round "3326097" "4+0+3" 7 10) 12).2
        "3326098" (sample_round "3326098" "6+6+6" 18 20) 22).2
     "3326099" (sample_round "3326099" "1+7+9" 17 30) 32).2.

(** A stand-in for [time.Parse]: it accepts the first layout only. *)
Definition sample_time_Parse (layout value : string) : option Z :=
  if String.eqb layout "2006-01-02 15:04:05" then Some (Z.of_nat (String.length value))
  else None.

(** The source's answer of the specification's example: draw "4+3+0"
    with the sum reported as "8". *)
Definition sample_response : APIResponse :=
  {| Data := [{| api_Qihao := "3326100"; api_OpenTime := "08-23 01:16:00";
                 api_OpenNum := "4+3+0"; api_Sum := "8" |}];
     Message := "success" |}.

Definition sample_app : App :=
  {| mysql := sample_store; lastAPIError := ""; lastDBError := "" |}.

Definition sample_item (value created expires : Z) : MemoryItem Z :=
  {| mi_Value := value; mi_ExpiresAt := expires; mi_CreatedAt := created |}.

(** A cache of at most two entries that holds two, "a" the older. *)
Definition sample_cache : MemoryCache Z :=
  {| mc_items := {["a" := sample_item 1 5 100; "b" := sample_item 2 6 100]};
     mc_maxSize := 2;
     mc_size := 2 |}.


(** Statistics with every counter at zero. *)
Definition sample_statistics : Statistics :=
  {| st_TotalPredictions := 0; st_CorrectPredictions := 0; st_IncorrectPredictions := 0;
     st_AccuracyRate := 0; st_ExactMatches := 0; st_PartialMatches := 0; st_NoMatches := 0;
     st_LastUpdateTime := 0 |}.

(** The forecast "2+4+0" for round 3326097, verified against the draw
    "4+0+3". *)
Definition sample_verified_forecast : Prediction :=
  set_verified (sample_round "3326097" "4+0+3" 7 10) odd_label false 12
    (pending_forecast "3326097" "2+4+0" 1).

(** A JSON encoding that keeps the content and the type of a value. *)
Definition sample_Marshal (value : CacheValue) : option CacheValue := Some value.

Definition sample_Unmarshal (data : CacheValue) (dest : Dest) : option CacheValue :=
  if decide (Dest_of data = dest) then Some (content data) else None.

(** A store in which round 3326099 carries a later open time than the
    round 3326100 of [sample_response] will get, and the forecast for
    3326100 is pending. *)
Definition sample_late_app : App :=
  {| mysql :=
       {| lottery_results :=
            [sample_round "3326097" "4+0+3" 7 1;
             sample_round "3326098" "6+6+6" 18 2;
             sample_round "3326099" "1+7+9" 17 30];
          predictions := [pending_forecast "3326100" "2+4+0" 4] |};
     lastAPIError := ""; lastDBError := "" |}.

(** The historical window that start-up gets for [sample_response]. *)
Definition sample_window : list LotteryResult :=
  match Client_GetHistoricalData sample_time_Parse 2025 (Ok sample_response) with
  | Ok historicalData => historicalData
  | Err _ => []
  end.

(* ===================================================================== *)
(** * Tactics *)
(* ===================================================================== *)

Local Open Scope list_scope.

(** One digit of a printed number, read by [digits_acc]. *)
Ltac read_digit :=
  cbn [NilEmpty.string_of_uint digits_acc];
  match goal with
  | |- context [is_digit ?c] =>
      let b := eval vm_compute in (is_digit c) in
      change (is_digit c) with b;
      let v := eval vm_compute in (digit_val c) in
      change (digit_val c) with v
  end;
  cbv iota.

(** Unfolding of the calls of a cycle. *)
Ltac run_eff :=
  unfold mbind, mret, Eff_bind, Eff_ret, call, get_mysql, put_mysql,
    set_lastAPIError, set_lastDBError; cbn.


(* ===================================================================== *)
(** * The embedding on sample inputs *)
(* ===================================================================== *)

Example Atoi_7 : Atoi "7" = Some 7.
Proof. reflexivity. Qed.

Example FormatInt03_5 : FormatInt03 5 = "005".
Proof. reflexivity. Qed.

Example FormatInt03_neg : FormatInt03 (-1) = "-01".
Proof. reflexivity. Qed.

Example FormatInt03_wide : FormatInt03 1000 = "1000".
Proof. reflexivity. Qed.

Example Sscanf_d_trailing : Sscanf_d " 3326100abc" = Some 3326100.
Proof. reflexivity. Qed.

Example ParseOpenNum_430 : ParseOpenNum "4+3+0" = Ok [4; 3; 0].
Proof. reflexivity. Qed.

Example ParseOpenNum_blank : ParseOpenNum " 4 + 3+-1" = Ok [4; 3; -1].
Proof. reflexivity. Qed.

Example ParseOpenNum_two : is_Ok (ParseOpenNum "4+3") = false.
Proof. reflexivity. Qed.

Example FormatOpenNum_240 : FormatOpenNum [2; 4; 0] = "2+4+0".
Proof. reflexivity. Qed.

Example CalculateOddEven_7 : CalculateOddEven 7 = odd_label.
Proof. reflexivity. Qed.

Example generateNextQihao_3326106 : DefaultPredictor_generateNextQihao "3326106" = "3326107".
Proof. reflexivity. Qed.

Example generateNextQihao_split : DefaultPredictor_generateNextQihao "abcd099" = "abcd100".
Proof. reflexivity. Qed.

(* ===================================================================== *)
(** * Properties of the memory cache *)
(* ===================================================================== *)

Section MemoryCacheProps.

Context {V Data : Type}.
Variable Marshal : V -> option Data.
Variable Unmarshal : Data -> option V.
Variable Range : gmap string (MemoryItem V) -> list (string * MemoryItem V).

(** [Range] visits every entry of the map exactly once. *)
Hypothesis Range_visits : forall items, Range items ≡ₚ map_to_list items.

Lemma older_least (l : list (string * MemoryItem V)) acc entry :
  match acc with
  | None => l = []
  | Some r => least_created l r
  end ->
  exists r, older acc entry = Some r /\ least_created (l ++ [entry]) r.
Proof.
  destruct entry as [k item]. destruct acc as [[k0 t0]|]; simpl.
  - intros [[item0 [Hin Ht]] Hmin]. simpl in *.
    destruct (Z.ltb_spec (mi_CreatedAt item) t0) as [Hlt|Hge].
    + exists (k, mi_CreatedAt item). split; [done|]. split; simpl.
      * exists item. split; [|done]. apply elem_of_app. right. by apply list_elem_of_singleton.
      * intros k' item' [Hin'|Hin']%elem_of_app.
        -- specialize (Hmin _ _ Hin'). lia.
        -- apply list_elem_of_singleton in Hin'. inversion Hin'; subst. lia.
    + exists (k0, t0). split; [done|]. split; simpl.
      * exists item0. split; [|done]. apply elem_of_app. by left.
      * intros k' item' [Hin'|Hin']%elem_of_app.
        -- by apply (Hmin k' item').
        -- apply list_elem_of_singleton in Hin'. inversion Hin'; subst. lia.
  - intros ->. exists (k, mi_CreatedAt item). split; [done|]. split; simpl.
    + exists item. split; [|done]. by apply list_elem_of_singleton.
    + intros k' item' Hin'. apply list_elem_of_singleton in Hin'. inversion Hin'; subst. lia.
Qed.

Lemma fold_older_least l2 : forall (l1 : list (string * MemoryItem V)) acc,
  match acc with
  | None => l1 = []
  | Some r => least_created l1 r
  end ->
  match fold_left older l2 acc with
  | None => l1 ++ l2 = []
  | Some r => least_created (l1 ++ l2) r
  end.
Proof.
  induction l2 as [|entry l2 IH]; intros l1 acc Hacc; simpl.
  - rewrite app_nil_r. exact Hacc.
  - destruct (older_least l1 acc entry Hacc) as [r [Hr Hleast]].
    rewrite Hr. specialize (IH (l1 ++ [entry]) (Some r) Hleast).
    by rewrite <- app_assoc in IH.
Qed.

(** On a non-empty list [oldest] returns the key of an entry with the
    least creation time. *)
Lemma oldest_least (l : list (string * MemoryItem V)) :
  l <> [] -> exists r, oldest l = Some r /\ least_created l r.
Proof.
  intros Hne. unfold oldest.
  pose proof (fold_older_least l [] None eq_refl) as H. simpl in H.
  destruct (fold_left older l None) as [r|]; [eauto | contradiction].
Qed.

(** What [evictOldest] does to a non-empty map. *)
Lemma evictOldest_nonempty (m : MemoryCache V) :
  mc_items m <> ∅ ->
  exists k0 item0,
    mc_items m !! k0 = Some item0 /\
    (forall k item, mc_items m !! k = Some item -> mi_CreatedAt item0 <= mi_CreatedAt item) /\
    MemoryCache_evictOldest Range m =
      {| mc_items := delete k0 (mc_items m);
         mc_maxSize := mc_maxSize m;
         mc_size := mc_size m - 1 |}.
Proof.
  intros Hne.
  assert (Range (mc_items m) <> []) as Hl.
  { intros Hnil. apply Hne. apply map_to_list_empty_iff.
    apply Permutation_nil_r. rewrite <- Hnil. symmetry. apply Range_visits. }
  destruct (oldest_least _ Hl) as [[k0 t0] [Hold [[item0 [Hin Ht]] Hmin]]].
  simpl in *. rewrite Range_visits in Hin. apply elem_of_map_to_list in Hin.
  exists k0, item0. split; [done|]. split.
  - intros k item Hk. rewrite Ht. apply (Hmin k item).
    rewrite Range_visits. by apply elem_of_map_to_list.
  - unfold MemoryCache_evictOldest. by rewrite Hold, Hin.
Qed.

Lemma size_delete_present (items : gmap string (MemoryItem V)) k item :
  items !! k = Some item ->
  Z.of_nat (base.size (delete k items)) = Z.of_nat (base.size items) - 1.
Proof.
  intros Hk.
  assert (base.size items = S (base.size (delete k items))) as ->; [|lia].
  rewrite <- (insert_id items k item) at 1 by done.
  rewrite <- insert_delete_eq. apply map_size_insert_None, lookup_delete_eq.
Qed.

(** The counter stays in step with the map under every operation. *)
Lemma evictOldest_counted (m : MemoryCache V) :
  counted m -> counted (MemoryCache_evictOldest Range m).
Proof.
  unfold counted, MemoryCache_evictOldest. intros Hc.
  destruct (oldest (Range (mc_items m))) as [[k t]|]; [|done].
  destruct (mc_items m !! k) as [item|] eqn:Hk; [|done]. simpl.
  pose proof (size_delete_present (mc_items m) k item Hk) as Hs. lia.
Qed.

Lemma Set_counted (m : MemoryCache V) key value ttl now1 now2 :
  counted m -> counted (MemoryCache_Set Range m key value ttl now1 now2).
Proof.
  intros Hc. unfold MemoryCache_Set.
  set (m1 := if mc_maxSize m <=? mc_size m then MemoryCache_evictOldest Range m else m).
  assert (counted m1) as Hc1.
  { subst m1. destruct (mc_maxSize m <=? mc_size m); [by apply evictOldest_counted|done]. }
  unfold counted in *. simpl.
  rewrite map_size_insert_None by apply lookup_delete_eq.
  destruct (mc_items m1 !! key) as [old|] eqn:Hk.
  - pose proof (size_delete_present (mc_items m1) key old Hk) as Hs. lia.
  - rewrite delete_id by done. lia.
Qed.

Lemma Get_counted (m : MemoryCache V) key now :
  counted m -> counted (MemoryCache_Get Marshal Unmarshal m key now).2.
Proof.
  intros Hc. unfold MemoryCache_Get.
  destruct (mc_items m !! key) as [item|] eqn:Hk; [|done].
  destruct (MemoryItem_IsExpired item now).
  - unfold counted in *. simpl.
    pose proof (size_delete_present (mc_items m) key item Hk) as Hs. lia.
  - destruct (Marshal (mi_Value item)) as [data|]; [|done].
    by destruct (Unmarshal data).
Qed.

Lemma Delete_counted (m : MemoryCache V) key :
  counted m -> counted (MemoryCache_Delete m key).
Proof.
  intros Hc. unfold MemoryCache_Delete.
  destruct (mc_items m !! key) as [item|] eqn:Hk; [|done].
  unfold counted in *. simpl.
  pose proof (size_delete_present (mc_items m) key item Hk) as Hs. lia.
Qed.

(** C8, as the code has it. At capacity with a positive maximum (the
    counter, which counts the entries, equals the maximum, and the
    maximum is at least 1), [Set] of a key that is not in the cache
    evicts exactly one entry, one whose creation time is the least among
    the entries, and then stores the new entry: the map afterwards is the
    old one without the evicted key and with the new key, and the cache
    is at capacity again. *)
Theorem Set_new_key_at_capacity_evicts_oldest
  (m : MemoryCache V) (key : string) (value : V) (ttl now1 now2 : Z) :
  counted m ->
  mc_size m = mc_maxSize m ->
  0 < mc_maxSize m ->
  mc_items m !! key = None ->
  exists k0 item0,
    mc_items m !! k0 = Some item0 /\
    (forall k item, mc_items m !! k = Some item -> mi_CreatedAt item0 <= mi_CreatedAt item) /\
    mc_items (MemoryCache_Set Range m key value ttl now1 now2) =
      <[key := {| mi_Value := value; mi_ExpiresAt := now1 + ttl; mi_CreatedAt := now2 |}]>
        (delete k0 (mc_items m)) /\
    mc_items (MemoryCache_Set Range m key value ttl now1 now2) !! k0 = None /\
    (forall k, k <> k0 -> k <> key ->
       mc_items (MemoryCache_Set Range m key value ttl now1 now2) !! k = mc_items m !! k) /\
    base.size (mc_items (MemoryCache_Set Range m key value ttl now1 now2)) =
      base.size (mc_items m) /\
    mc_size (MemoryCache_Set Range m key value ttl now1 now2) = mc_maxSize m.
Proof.
  intros Hc Hfull Hpos Hfresh.
  assert (mc_items m <> ∅) as Hne.
  { intros He. unfold counted in Hc. rewrite He, map_size_empty in Hc. lia. }
  destruct (evictOldest_nonempty m Hne) as (k0 & item0 & Hk0 & Hmin & Hev).
  assert (k0 <> key) as Hneq by (intros ->; congruence).
  exists k0, item0. split; [done|]. split; [done|].
  unfold MemoryCache_Set.
  replace (mc_maxSize m <=? mc_size m) with true by (symmetry; apply Z.leb_le; lia).
  rewrite Hev. simpl.
  rewrite (lookup_delete_ne (mc_items m)) by done. rewrite Hfresh.
  rewrite (delete_id (delete k0 (mc_items m)) key)
    by (rewrite lookup_delete_ne by done; done).
  split; [done|]. split.
  { rewrite lookup_insert_ne by done. apply lookup_delete_eq. }
  split.
  { intros k Hk1 Hk2. rewrite lookup_insert_ne by done. by rewrite lookup_delete_ne. }
  split.
  { rewrite map_size_insert_None by (rewrite lookup_delete_ne by done; done).
    pose proof (size_delete_present (mc_items m) k0 item0 Hk0). lia. }
  lia.
Qed.

(** C10. The capacity check comes first: with the counter at or above
    the maximum, [Set] of a key that is already present still runs the
    eviction, which removes an entry of least creation time, and only
    then replaces the key. Unless the evicted entry is that of the key
    itself, the cache has lost an entry. *)
Theorem Set_present_key_at_capacity_still_evicts
  (m : MemoryCache V) (key : string) (old : MemoryItem V) (value : V) (ttl now1 now2 : Z) :
  mc_maxSize m <= mc_size m ->
  mc_items m !! key = Some old ->
  exists k0 item0,
    mc_items m !! k0 = Some item0 /\
    (forall k item, mc_items m !! k = Some item -> mi_CreatedAt item0 <= mi_CreatedAt item) /\
    MemoryCache_evictOldest Range m =
      {| mc_items := delete k0 (mc_items m);
         mc_maxSize := mc_maxSize m;
         mc_size := mc_size m - 1 |} /\
    mc_items (MemoryCache_Set Range m key value ttl now1 now2) =
      <[key := {| mi_Value := value; mi_ExpiresAt := now1 + ttl; mi_CreatedAt := now2 |}]>
        (delete k0 (mc_items m)) /\
    (k0 <> key ->
       mc_items (MemoryCache_Set Range m key value ttl now1 now2) !! k0 = None /\
       mc_size (MemoryCache_Set Range m key value ttl now1 now2) = mc_size m - 1) /\
    (k0 = key -> mc_size (MemoryCache_Set Range m key value ttl now1 now2) = mc_size m).
Proof.
  intros Hfull Hkey.
  assert (mc_items m <> ∅) as Hne.
  { intros He. rewrite He, lookup_empty in Hkey. discriminate. }
  destruct (evictOldest_nonempty m Hne) as (k0 & item0 & Hk0 & Hmin & Hev).
  exists k0, item0. split; [done|]. split; [done|]. split; [done|].
  unfold MemoryCache_Set.
  replace (mc_maxSize m <=? mc_size m) with true by (symmetry; apply Z.leb_le; lia).
  rewrite Hev. simpl. rewrite insert_delete_eq. split; [done|]. split.
  - intros Hneq. rewrite lookup_insert_ne by done. rewrite lookup_delete_eq.
    split; [done|]. rewrite lookup_delete_ne by done. by rewrite Hkey.
  - intros ->. rewrite lookup_delete_eq. lia.
Qed.

(** C9, as the code has it. After [Set(k, v, ttl)], with [v] a value
    that survives the JSON copy, [Get(k)] returns [v] at every time up
    to and including the expiry instant [now1 + ttl] (the clock reading
    taken for [ExpiresAt]), and reports the entry expired at every time
    strictly after it; then the entry is also removed, and [Exists]
    answers false. An entry is visible iff [now <= expiry]. *)
Theorem Get_after_Set_until_expiry
  (m : MemoryCache V) (key : string) (value : V) (data : Data) (ttl now1 now2 now : Z) :
  Marshal value = Some data ->
  Unmarshal data = Some value ->
  (now <= now1 + ttl ->
     MemoryCache_Get Marshal Unmarshal
       (MemoryCache_Set Range m key value ttl now1 now2) key now =
     (Hit value, MemoryCache_Set Range m key value ttl now1 now2)) /\
  (now1 + ttl < now ->
     (MemoryCache_Get Marshal Unmarshal
        (MemoryCache_Set Range m key value ttl now1 now2) key now).1 = CacheExpired /\
     mc_items (MemoryCache_Get Marshal Unmarshal
        (MemoryCache_Set Range m key value ttl now1 now2) key now).2 !! key = None /\
     (MemoryCache_Exists (MemoryCache_Set Range m key value ttl now1 now2) key now).1 = false) /\
  (is_Hit (MemoryCache_Get Marshal Unmarshal
        (MemoryCache_Set Range m key value ttl now1 now2) key now).1 = true
     <-> now <= now1 + ttl).
Proof.
  intros Hm Hu.
  set (m' := MemoryCache_Set Range m key value ttl now1 now2).
  assert (mc_items m' !! key =
          Some {| mi_Value := value; mi_ExpiresAt := now1 + ttl; mi_CreatedAt := now2 |}) as Hk.
  { subst m'. unfold MemoryCache_Set. simpl. apply lookup_insert_eq. }
  unfold MemoryCache_Get, MemoryCache_Exists, MemoryItem_IsExpired. rewrite Hk. simpl.
  destruct (Z.ltb_spec (now1 + ttl) now) as [Hlt|Hge]; simpl.
  - split; [lia|]. split.
    + intros _. split; [done|]. split; [apply lookup_delete_eq|done].
    + split; [discriminate|lia].
  - rewrite Hm, Hu. simpl. split; [done|]. split; [lia|done].
Qed.

End MemoryCacheProps.

(** C8 at the full sample cache and a third key. *)
Lemma Set_new_key_at_capacity_evicts_oldest_witness :
  exists k0 item0,
    mc_items sample_cache !! k0 = Some item0 /\
    mc_items (MemoryCache_Set map_to_list sample_cache "c" 3 60 7 7) !! k0 = None /\
    base.size (mc_items (MemoryCache_Set map_to_list sample_cache "c" 3 60 7 7)) =
      base.size (mc_items sample_cache).
Proof.
  destruct (Set_new_key_at_capacity_evicts_oldest map_to_list (fun _ => reflexivity _)
              sample_cache "c" 3 60 7 7)
    as (k0 & item0 & H1 & _ & _ & H2 & _ & H3 & _).
  - reflexivity.
  - reflexivity.
  - reflexivity.
  - reflexivity.
  - exists k0, item0. split; [exact H1|]. split; [exact H2|exact H3].
Defined.

Example Set_new_key_evicts_a :
  map_to_list (mc_items (MemoryCache_Set map_to_list sample_cache "c" 3 60 7 7)) ≡ₚ
    [("b", sample_item 2 6 100); ("c", sample_item 3 7 67)].
Proof. vm_compute. apply perm_swap || reflexivity. Qed.

(** C10 at the full sample cache: overwriting "b" evicts "a". *)
Lemma Set_present_key_at_capacity_still_evicts_witness :
  exists k0 item0,
    mc_items sample_cache !! k0 = Some item0 /\
    MemoryCache_evictOldest map_to_list sample_cache =
      {| mc_items := delete k0 (mc_items sample_cache);
         mc_maxSize := mc_maxSize sample_cache;
         mc_size := mc_size sample_cache - 1 |} /\
    mc_items (MemoryCache_Set map_to_list sample_cache "b" 9 60 7 7) =
      <[ "b" := {| mi_Value := 9; mi_ExpiresAt := 7 + 60; mi_CreatedAt := 7 |} ]>
        (delete k0 (mc_items sample_cache)).
Proof.
  destruct (Set_present_key_at_capacity_still_evicts map_to_list (fun _ => reflexivity _)
              sample_cache "b" (sample_item 2 6 100) 9 60 7 7)
    as (k0 & item0 & H1 & _ & H2 & H3 & _).
  - vm_compute. discriminate.
  - reflexivity.
  - exists k0, item0. split; [exact H1|]. split; [exact H2|exact H3].
Defined.

Example Set_present_key_evicts_a :
  map_to_list (mc_items (MemoryCache_Set map_to_list sample_cache "b" 9 60 7 7)) =
    [("b", sample_item 9 7 67)] /\
  mc_size (MemoryCache_Set map_to_list sample_cache "b" 9 60 7 7) = 1.
Proof. split; reflexivity. Qed.

(** C9 with values that JSON copies faithfully. *)
Lemma Get_after_Set_until_expiry_witness :
  MemoryCache_Get Some Some (MemoryCache_Set map_to_list sample_cache "k" 42 10 0 0) "k" 10 =
    (Hit 42, MemoryCache_Set map_to_list sample_cache "k" 42 10 0 0).
Proof.
  destruct (Get_after_Set_until_expiry (V := Z) (Data := Z) Some Some map_to_list
              sample_cache "k" 42 42 10 0 0 10) as (H & _).
  - reflexivity.
  - reflexivity.
  - apply H. lia.
Defined.

(** C8 as stated fails for a maximum of 0: the new cache is empty and
    at capacity, [Set] of a key finds no entry to evict and stores the
    new entry all the same, so the cache then holds one entry, above its
    maximum. *)
Lemma Set_at_capacity_zero_evicts_nothing :
  counted (NewMemoryCache (V := Z) 0) /\
  mc_size (NewMemoryCache (V := Z) 0) = mc_maxSize (NewMemoryCache (V := Z) 0) /\
  mc_items (NewMemoryCache (V := Z) 0) !! "a" = None /\
  MemoryCache_evictOldest map_to_list (NewMemoryCache (V := Z) 0) = NewMemoryCache 0 /\
  base.size (mc_items (MemoryCache_Set map_to_list (NewMemoryCache 0) "a" 1 60 0 0)) = 1%nat /\
  mc_items (MemoryCache_Set map_to_list (NewMemoryCache 0) "a" 1 60 0 0) !! "a" =
    Some {| mi_Value := 1; mi_ExpiresAt := 0 + 60; mi_CreatedAt := 0 |} /\
  mc_size (MemoryCache_Set map_to_list (NewMemoryCache 0) "a" 1 60 0 0) = 1 /\
  mc_maxSize (MemoryCache_Set map_to_list (NewMemoryCache 0) "a" 1 60 0 0) = 0.
Proof. repeat split. Qed.

(** C9 as stated fails at the expiry instant: an entry set at time 0
    with a ttl of 10 is still returned at time 10, which is at (not
    before) its expiry; it is gone at time 11. *)
Lemma Get_at_expiry_instant_is_a_hit :
  mi_ExpiresAt {| mi_Value := 42; mi_ExpiresAt := 0 + 10; mi_CreatedAt := 0 |} = 10 /\
  (MemoryCache_Get Some Some
     (MemoryCache_Set map_to_list (NewMemoryCache 1000) "k" 42 10 0 0) "k" 10).1 = Hit 42 /\
  (MemoryCache_Get Some Some
     (MemoryCache_Set map_to_list (NewMemoryCache 1000) "k" 42 10 0 0) "k" 11).1 = CacheExpired.
Proof. repeat split. Qed.

(* ===================================================================== *)
(** * Properties of the statistics *)
(* ===================================================================== *)

(** [ROUND2] is rounding to two decimals, half up: the result is a
    number of hundredths within half a hundredth of the argument. *)
Lemma ROUND2_nearest (x : Q) :
  (0 <= x)%Q ->
  (exists n : Z, ROUND2 x = n # 100) /\
  (ROUND2 x - x <= 1 # 200)%Q /\ (x - ROUND2 x < 1 # 200)%Q.
Proof.
  intros Hx. unfold ROUND2.
  destruct (Qle_bool 0 x) eqn:Hb; [|apply Qle_bool_iff in Hx; congruence].
  set (n := Qfloor (x * 100 + (1 # 2))).
  pose proof (Qfloor_le (x * 100 + (1 # 2))) as Hlo.
  pose proof (Qlt_floor (x * 100 + (1 # 2))) as Hhi.
  fold n in Hlo, Hhi.
  assert ((n # 100) == inject_Z n * (1 # 100))%Q as Hn.
  { unfold Qeq, inject_Z, Qmult. simpl. lia. }
  split; [by exists n|].
  rewrite Hn. rewrite inject_Z_plus in Hhi.
  change (inject_Z 1) with 1%Q in Hhi.
  set (y := inject_Z n) in *.
  split; lra.
Qed.

Lemma filter_verified_pending (l1 l2 : list Prediction) (p : Prediction) :
  p_IsCorrect p = None ->
  filter (fun p => verified p = true) (l1 ++ p :: l2) =
  filter (fun p => verified p = true) (l1 ++ l2).
Proof.
  intros Hp. rewrite !filter_app, filter_cons_False; [done|].
  unfold verified. rewrite Hp. discriminate.
Qed.

Lemma filter_correct_verified (l : list Prediction) :
  filter (fun p => correct p = true) (filter (fun p => verified p = true) l) =
  filter (fun p => correct p = true) l.
Proof.
  induction l as [|p l IH]; [done|].
  rewrite (filter_cons (fun p => verified p = true)).
  destruct (decide (verified p = true)) as [Hv|Hv].
  - rewrite !(filter_cons (fun p => correct p = true)). by rewrite IH.
  - rewrite IH. rewrite (filter_cons_False (fun p => correct p = true)); [done|].
    intros Hc. apply Hv. unfold verified, correct in *.
    by destruct (p_IsCorrect p) as [[|]|].
Qed.

(** C3, as the code has it. With [N > 0] verified forecasts of which [C]
    are correct, the statistics report [N], [C] and the percentage
    [100 * C / N] rounded to two decimals (not the fraction [C / N]); the
    timestamps are the least and greatest [predicted_at] of the verified
    forecasts; and a pending forecast, wherever it is added or removed,
    leaves the statistics unchanged. *)
Theorem GetPredictionStats_percentage (m : MySQLDB) :
  (0 < length (filter (fun p => verified p = true) (predictions m)))%nat ->
  (exists stats,
     MySQLDB_GetPredictionStats m = Ok stats /\
     TotalPredictions stats =
       Z.of_nat (length (filter (fun p => verified p = true) (predictions m))) /\
     CorrectPredictions stats =
       Z.of_nat (length (filter (fun p => correct p = true) (predictions m))) /\
     AccuracyRate stats =
       ROUND2 (inject_Z (CorrectPredictions stats) * 100 / inject_Z (TotalPredictions stats)) /\
     (exists n : Z, AccuracyRate stats = n # 100) /\
     (AccuracyRate stats
        - inject_Z (CorrectPredictions stats) * 100 / inject_Z (TotalPredictions stats)
        <= 1 # 200)%Q /\
     (inject_Z (CorrectPredictions stats) * 100 / inject_Z (TotalPredictions stats)
        - AccuracyRate stats < 1 # 200)%Q /\
     In (FirstPrediction stats)
        (map p_PredictedAt (filter (fun p => verified p = true) (predictions m))) /\
     In (LastPrediction stats)
        (map p_PredictedAt (filter (fun p => verified p = true) (predictions m))) /\
     (forall p, In p (predictions m) -> verified p = true ->
        FirstPrediction stats <= p_PredictedAt p <= LastPrediction stats)) /\
  (forall l1 l2 p,
     p_IsCorrect p = None ->
     MySQLDB_GetPredictionStats (with_predictions m (l1 ++ p :: l2)) =
     MySQLDB_GetPredictionStats (with_predictions m (l1 ++ l2))).
Proof.
  intros HN. split.
  - unfold MySQLDB_GetPredictionStats.
    rewrite <- (filter_correct_verified (predictions m)).
    assert (forall p, In p (predictions m) -> verified p = true ->
              p ∈ filter (fun p => verified p = true) (predictions m)) as Hin.
    { intros p Hp Hv. apply list_elem_of_filter. split; [done|]. by apply list_elem_of_In. }
    revert HN Hin.
    generalize (filter (fun p => verified p = true) (predictions m)). intros rows HN Hin.
    destruct rows as [|p0 rows']; [simpl in HN; lia|].
    eexists. split; [reflexivity|]. cbn [TotalPredictions CorrectPredictions AccuracyRate
                                         FirstPrediction LastPrediction].
    split; [done|]. split; [done|]. split; [done|].
    set (C := Z.of_nat (length (filter (fun p => correct p = true) (p0 :: rows')))).
    set (N := Z.of_nat (length (p0 :: rows'))).
    assert (0 < N) as HNpos by (subst N; simpl; lia).
    assert (0 <= C) as HC by (subst C; lia).
    assert (0 <= inject_Z C * 100 / inject_Z N)%Q as Hx.
    { apply Qle_shift_div_l.
      - unfold Qlt, inject_Z. simpl. lia.
      - unfold Qle, inject_Z, Qmult. simpl. lia. }
    destruct (ROUND2_nearest _ Hx) as (Hn & Hup & Hdown).
    split; [done|]. split; [done|]. split; [done|].
    split.
    { clear. cbn [map]. generalize (p_PredictedAt p0) as d. intros d.
      induction (map p_PredictedAt rows') as [|t ts IH]; [by left|].
      unfold list_min in *. cbn [fold_right].
      destruct (Z.min_spec t (fold_right Z.min d ts)) as [[_ ->]|[_ ->]];
        [by right; left|]. destruct IH as [IH|IH]; [by left|by right; right]. }
    split.
    { clear. cbn [map]. generalize (p_PredictedAt p0) as d. intros d.
      induction (map p_PredictedAt rows') as [|t ts IH]; [by left|].
      unfold list_max in *. cbn [fold_right].
      destruct (Z.max_spec t (fold_right Z.max d ts)) as [[_ ->]|[_ ->]];
        [|by right; left]. destruct IH as [IH|IH]; [by left|by right; right]. }
    intros p Hp Hv. specialize (Hin p Hp Hv).
    apply elem_of_cons in Hin as [->|Hin].
    + clear. generalize (p_PredictedAt p0) as d. intros d.
      induction rows' as [|q l IH]; unfold list_min, list_max in *; simpl; lia.
    + clear -Hin. generalize (p_PredictedAt p0) as d. intros d.
      induction rows' as [|q l IH].
      * by apply elem_of_nil in Hin.
      * apply elem_of_cons in Hin as [->|Hin]; unfold list_min, list_max in *; simpl.
        -- lia.
        -- specialize (IH Hin). lia.
  - intros l1 l2 p Hp. unfold MySQLDB_GetPredictionStats, with_predictions. simpl.
    by rewrite (filter_verified_pending l1 l2 p Hp).
Qed.

(** C3 at a store with three verified forecasts and a pending one. *)
Lemma GetPredictionStats_percentage_witness :
  exists stats,
    MySQLDB_GetPredictionStats sample_verified_store = Ok stats /\
    TotalPredictions stats = 3 /\
    CorrectPredictions stats = 1.
Proof.
  destruct (GetPredictionStats_percentage sample_verified_store) as [(stats & H1 & H2 & H3 & _) _].
  - vm_compute. lia.
  - exists stats. split; [exact H1|]. split; [exact H2|exact H3].
Defined.

(** C3 as stated fails: with one correct forecast of three the rate is
    33.33, while [1/3] rounded to two decimals is 0.33 (as a percentage,
    33.00). *)
Lemma GetPredictionStats_third_is_33_33 :
  exists stats,
    MySQLDB_GetPredictionStats sample_verified_store = Ok stats /\
    TotalPredictions stats = 3 /\
    CorrectPredictions stats = 1 /\
    AccuracyRate stats = 3333 # 100 /\
    ROUND2 (inject_Z 1 / inject_Z 3) = 33 # 100 /\
    Qeq_bool (AccuracyRate stats) (ROUND2 (inject_Z 1 / inject_Z 3)) = false /\
    Qeq_bool (AccuracyRate stats) (100 * ROUND2 (inject_Z 1 / inject_Z 3)) = false.
Proof.
  eexists. split; [reflexivity|]. repeat split.
Qed.

(* ===================================================================== *)
(** * Properties of verification *)
(* ===================================================================== *)

Lemma insert_desc_not_nil {A} (key : A -> Z) x l : insert_desc key x l <> [].
Proof. destruct l as [|y l]; simpl; [done|]. by destruct (key y <=? key x). Qed.

Lemma insert_desc_In {A} (key : A -> Z) x y l :
  In y (insert_desc key x l) <-> y = x \/ In y l.
Proof.
  induction l as [|z l IH]; simpl.
  - intuition congruence.
  - destruct (key z <=? key x); simpl; [intuition congruence|]. rewrite IH. intuition congruence.
Qed.

Lemma order_by_desc_In {A} (key : A -> Z) y l :
  In y (order_by_desc key l) <-> In y l.
Proof.
  induction l as [|x l IH]; simpl; [done|].
  rewrite insert_desc_In, IH. intuition congruence.
Qed.

(** The first row of [ORDER BY key DESC] is a row of the table with the
    greatest key. *)
Lemma order_by_desc_head {A} (key : A -> Z) l r rest :
  order_by_desc key l = r :: rest ->
  In r l /\ forall y, In y l -> key y <= key r.
Proof.
  revert r rest. induction l as [|x l IH]; intros r rest; simpl; [discriminate|].
  destruct (order_by_desc key l) as [|y0 s] eqn:Hs; simpl.
  - intros [= <- <-]. split; [by left|].
    intros y [<-|Hy]; [lia|].
    apply (order_by_desc_In key) in Hy. rewrite Hs in Hy. destruct Hy.
  - destruct (IH y0 s eq_refl) as [Hin Hmax].
    destruct (Z.leb_spec (key y0) (key x)) as [Hle|Hgt]; intros [= <- <-].
    + split; [by left|]. intros y [<-|Hy]; [lia|]. specialize (Hmax y Hy). lia.
    + split; [by right|]. intros y [<-|Hy]; [lia|]. by apply Hmax.
Qed.

Lemma In_limit {A} (n : Z) (x : A) l : In x (limit n l) -> In x l.
Proof.
  unfold limit. rewrite <- !list_elem_of_In. apply (subseteq_take (Z.to_nat n) l).
Qed.

Lemma parse_parts_length parts nums :
  parse_parts parts = Ok nums -> length nums = length parts.
Proof.
  revert nums. induction parts as [|part rest IH]; intros nums; simpl.
  - by intros [= <-].
  - destruct (Atoi (TrimSpace part)); [|discriminate].
    destruct (parse_parts rest) as [nums'|]; [|discriminate].
    intros [= <-]. simpl. by rewrite (IH nums').
Qed.

(** A draw that parses has three slots. *)
Lemma ParseOpenNum_three openNum nums :
  ParseOpenNum openNum = Ok nums -> exists a b c, nums = [a; b; c].
Proof.
  unfold ParseOpenNum.
  destruct (length (Split openNum "+") =? 3)%nat eqn:Hlen; simpl; [|discriminate].
  intros Hp%parse_parts_length. apply Nat.eqb_eq in Hlen. rewrite Hlen in Hp.
  destruct nums as [|a [|b [|c [|d nums]]]]; simpl in Hp; try lia. eauto.
Qed.

(** On three-slot draws the match type follows the number of equal
    positions: 3 exact, 2 or 1 partial, 0 none; the positional verdict is
    "at least two". *)
Lemma performDetailedValidation_three (a b c x y z now : Z) :
  let n := length (Validator_getMatchedPositions [a; b; c] [x; y; z]) in
  vr_MatchType (Validator_performDetailedValidation [a; b; c] [x; y; z] now) =
    match n with
    | 3%nat => "exact"
    | O => "none"
    | _ => "partial"
    end /\
  vr_IsCorrect (Validator_performDetailedValidation [a; b; c] [x; y; z] now) = (2 <=? n)%nat.
Proof.
  unfold Validator_performDetailedValidation, Validator_getMatchedPositions. simpl.
  destruct (a =? x), (b =? y), (c =? z); simpl; done.
Qed.

Lemma ValidatePrediction_rows (m : MySQLDB) qihao actual now :
  match (MySQLDB_ValidatePrediction m qihao actual now).1 with
  | Ok flag =>
      exists row,
        In row (predictions m) /\ targets qihao row = true /\
        (forall p, In p (predictions m) -> targets qihao p = true ->
           p_PredictedAt p <= p_PredictedAt row) /\
        flag = String.eqb (p_PredictedOddEven row) (CalculateOddEven (lr_SumValue actual)) /\
        predictions (MySQLDB_ValidatePrediction m qihao actual now).2 =
          map (fun p => if targets qihao p
                        then set_verified actual (CalculateOddEven (lr_SumValue actual)) flag now p
                        else p) (predictions m)
  | Err _ =>
      (forall p, In p (predictions m) -> targets qihao p = false) /\
      (MySQLDB_ValidatePrediction m qihao actual now).2 = m
  end.
Proof.
  unfold MySQLDB_ValidatePrediction.
  destruct (order_by_desc p_PredictedAt
              (filter (fun p => targets qihao p = true) (predictions m))) as [|row rest] eqn:Hs.
  - simpl. split; [|done]. intros p Hp.
    destruct (targets qihao p) eqn:Ht; [|done]. exfalso.
    assert (In p (order_by_desc p_PredictedAt
                    (filter (fun p => targets qihao p = true) (predictions m)))) as Hin.
    { apply order_by_desc_In, list_elem_of_In, list_elem_of_filter.
      split; [done|]. by apply list_elem_of_In. }
    rewrite Hs in Hin. destruct Hin.
  - unfold limit. simpl.
    destruct (order_by_desc_head _ _ _ _ Hs) as [Hin Hmax].
    apply list_elem_of_In, list_elem_of_filter in Hin as [Ht Hin].
    exists row. split; [by apply list_elem_of_In|]. split; [done|]. split; [|done].
    intros p Hp Hpt. apply Hmax, list_elem_of_In, list_elem_of_filter.
    split; [done|]. by apply list_elem_of_In.
Qed.

(** C1, as the code has it. When [Validator.ValidatePrediction]
    succeeds, the flag it returns and the flag stored on every forecast
    row of the target is decided by parity alone: it is the equality of
    the predicted odd/even label of the newest forecast of the target with
    the odd/even label of the actual sum. The positions decide only the
    match type: 3 equal positions "exact", 2 or 1 "partial", 0 "none". *)
Theorem ValidatePrediction_flag_is_parity
  (m m' : MySQLDB) (qihao : string) (actual : LotteryResult) (now : Z)
  (result : ValidationResult) :
  Validator_ValidatePrediction m qihao actual now = (Ok result, m') ->
  exists row target predictedNums actualNums,
    In row (predictions m) /\ targets qihao row = true /\
    (forall p, In p (predictions m) -> targets qihao p = true ->
       p_PredictedAt p <= p_PredictedAt row) /\
    vr_IsCorrect result =
      String.eqb (p_PredictedOddEven row) (CalculateOddEven (lr_SumValue actual)) /\
    (forall p', In p' (predictions m') -> targets qihao p' = true ->
       p_IsCorrect p' = Some (vr_IsCorrect result)) /\
    In target (predictions m) /\ targets qihao target = true /\
    ParseOpenNum (p_PredictedNum target) = Ok predictedNums /\
    ParseOpenNum (lr_OpenNum actual) = Ok actualNums /\
    vr_MatchType result =
      match length (Validator_getMatchedPositions predictedNums actualNums) with
      | 3%nat => "exact"
      | O => "none"
      | _ => "partial"
      end.
Proof.
  unfold Validator_ValidatePrediction.
  destruct (find (targets qihao) (MySQLDB_GetLatestPredictions m 20)) as [target|] eqn:Hfind;
    [|discriminate].
  apply find_some in Hfind as [Htin Htt].
  apply In_limit, order_by_desc_In in Htin.
  destruct (ParseOpenNum (p_PredictedNum target)) as [predictedNums|] eqn:Hpp; [|discriminate].
  destruct (ParseOpenNum (lr_OpenNum actual)) as [actualNums|] eqn:Hpa; [|discriminate].
  pose proof (ValidatePrediction_rows m qihao actual now) as Hrows.
  destruct (MySQLDB_ValidatePrediction m qihao actual now) as [[flag|e] m1]; simpl in Hrows.
  - intros [= <- <-].
    destruct Hrows as (row & Hrin & Hrt & Hmax & Hflag & Hm1).
    exists row, target, predictedNums, actualNums.
    split; [done|]. split; [done|]. split; [done|]. split; [done|]. split.
    { intros p' Hp' Ht'. rewrite Hm1 in Hp'. apply in_map_iff in Hp' as (p & <- & Hp).
      destruct (targets qihao p) eqn:Htp; [done|]. congruence. }
    split; [done|]. split; [done|]. split; [done|]. split; [done|].
    destruct (ParseOpenNum_three _ _ Hpp) as (a & b & c & ->).
    destruct (ParseOpenNum_three _ _ Hpa) as (x & y & z & ->).
    apply (performDetailedValidation_three a b c x y z now).
  - destruct Hrows as [Hnone _]. rewrite (Hnone target Htin) in Htt. discriminate.
Qed.

(** The round of the specification's example for round 3326100. *)
Lemma ValidatePrediction_flag_is_parity_witness :
  exists row target predictedNums actualNums,
    In row (predictions sample_store) /\
    In target (predictions sample_store) /\
    ParseOpenNum (p_PredictedNum target) = Ok predictedNums /\
    ParseOpenNum "2+4+1" = Ok actualNums.
Proof.
  destruct (ValidatePrediction_flag_is_parity sample_store
              (Validator_ValidatePrediction sample_store "3326100"
                 (sample_round "3326100" "2+4+1" 7 40) 41).2
              "3326100" (sample_round "3326100" "2+4+1" 7 40) 41
              {| vr_IsCorrect := false; vr_MatchType := "partial";
                 vr_MatchedPositions := [0; 1];
                 vr_PredictedNumbers := [2; 4; 0]; vr_ActualNumbers := [2; 4; 1];
                 vr_PredictedSum := 6; vr_ActualSum := 7; vr_ValidationTime := 41 |})
    as (row & target & ps & acts & H1 & _ & _ & _ & _ & H2 & _ & H3 & H4 & _).
  - reflexivity.
  - exists row, target, ps, acts. split; [exact H1|]. split; [exact H2|]. split; [exact H3|exact H4].
Defined.

(** C1 as stated fails, on the examples of the specification. Forecast
    [2,4,0] against the draw [2,4,1]: two positions are equal, yet the
    stored flag is false (6 is even, 7 is odd). Forecast [2,4,0] against
    the draw [5,6,1]: no position is equal, yet the stored flag is true
    (6 and 12 are even). *)
Lemma ValidatePrediction_positions_do_not_decide :
  length (Validator_getMatchedPositions [2; 4; 0] [2; 4; 1]) = 2%nat /\
  (exists result m',
     Validator_ValidatePrediction sample_store "3326100"
       (sample_round "3326100" "2+4+1" 7 40) 41 = (Ok result, m') /\
     vr_MatchType result = "partial" /\
     vr_IsCorrect result = false /\
     map p_IsCorrect (predictions m') = [Some false]) /\
  length (Validator_getMatchedPositions [2; 4; 0] [5; 6; 1]) = 0%nat /\
  (exists result m',
     Validator_ValidatePrediction sample_store "3326100"
       (sample_round "3326100" "5+6+1" 12 40) 41 = (Ok result, m') /\
     vr_MatchType result = "none" /\
     vr_IsCorrect result = true /\
     map p_IsCorrect (predictions m') = [Some true]).
Proof.
  split; [reflexivity|]. split.
  - eexists _, _. split; [reflexivity|]. repeat split.
  - split; [reflexivity|]. eexists _, _. split; [reflexivity|]. repeat split.
Qed.

(** C2, as the code has it. The store's verification is unconditional.
    [MySQLDB.ValidatePrediction] succeeds whenever some forecast row has
    the target identifier, verified or not, and then every row of the
    target carries the outcome of this call: the actual draw and sum, the
    flag computed now, the time of this call. Rows of other targets are
    untouched. [UpdatePredictionResult] overwrites in the same way. The
    transition is one-way only in that no call turns a verified row back
    into a pending one. *)
Theorem ValidatePrediction_overwrites
  (m : MySQLDB) (qihao : string) (actual : LotteryResult) (now : Z)
  (actualNum : string) (isCorrect : bool) :
  (is_Ok (MySQLDB_ValidatePrediction m qihao actual now).1 = true <->
     exists p, In p (predictions m) /\ targets qihao p = true) /\
  Forall2
    (fun p p' =>
       (verified p = true -> verified p' = true) /\
       if targets qihao p then
         exists flag,
           (MySQLDB_ValidatePrediction m qihao actual now).1 = Ok flag /\
           p' = set_verified actual (CalculateOddEven (lr_SumValue actual)) flag now p
       else p' = p)
    (predictions m) (predictions (MySQLDB_ValidatePrediction m qihao actual now).2) /\
  Forall2
    (fun p p' =>
       (verified p = true -> verified p' = true) /\
       if targets qihao p then p' = set_result actualNum isCorrect now p else p' = p)
    (predictions m)
    (predictions (MySQLDB_UpdatePredictionResult m qihao actualNum isCorrect now)).
Proof.
  pose proof (ValidatePrediction_rows m qihao actual now) as Hrows.
  destruct (MySQLDB_ValidatePrediction m qihao actual now) as [[flag|e] m1]; simpl in *.
  - destruct Hrows as (row & Hrin & Hrt & _ & _ & ->). split; [|split].
    + split; [eauto|done].
    + clear. induction (predictions m) as [|p l IH]; simpl; constructor; [|done].
      destruct (targets qihao p); [|done]. split; [done|]. by exists flag.
    + clear. induction (predictions m) as [|p l IH]; simpl; constructor; [|done].
      by destruct (targets qihao p).
  - destruct Hrows as [Hnone ->]. split; [|split].
    + split; [discriminate|]. intros (p & Hp & Ht). rewrite (Hnone p Hp) in Ht. discriminate.
    + induction (predictions m) as [|p l IH]; constructor.
      * rewrite (Hnone p) by (by left). done.
      * apply IH. intros q Hq. apply Hnone. by right.
    + clear. induction (predictions m) as [|p l IH]; simpl; constructor; [|done].
      by destruct (targets qihao p).
Qed.

(** C2 as stated fails: the forecast for round 3326100 is verified
    against the draw "4+3+0" (sum 7, stored flag false) and then again
    against "2+4+0" (sum 6); the second call is accepted and the stored
    draw, flag and time are those of the second call. *)
Lemma ValidatePrediction_twice_overwrites :
  map (fun p => (p_ActualNum p, p_IsCorrect p, p_VerifiedAt p))
    (predictions
       (MySQLDB_ValidatePrediction sample_store "3326100"
          (sample_round "3326100" "4+3+0" 7 40) 41).2)
  = [(Some "4+3+0", Some false, Some 41)] /\
  (MySQLDB_ValidatePrediction
     (MySQLDB_ValidatePrediction sample_store "3326100"
        (sample_round "3326100" "4+3+0" 7 40) 41).2
     "3326100" (sample_round "3326100" "2+4+0" 6 40) 99).1 = Ok true /\
  map (fun p => (p_ActualNum p, p_IsCorrect p, p_VerifiedAt p))
    (predictions
       (MySQLDB_ValidatePrediction
          (MySQLDB_ValidatePrediction sample_store "3326100"
             (sample_round "3326100" "4+3+0" 7 40) 41).2
          "3326100" (sample_round "3326100" "2+4+0" 6 40) 99).2)
  = [(Some "2+4+0", Some true, Some 99)].
Proof. repeat split. Qed.

(* ===================================================================== *)
(** * Properties of the next identifier *)
(* ===================================================================== *)

Lemma digit_not_blank c :
  is_digit c = true ->
  Ascii.eqb c "010" = false /\ is_space c = false /\
  Ascii.eqb c "+" = false /\ Ascii.eqb c "-" = false /\
  is_scan_digit c = true /\ 0 <= digit_val c <= 9.
Proof.
  destruct c as [[] [] [] [] [] [] [] []]; try discriminate; intros _;
    repeat split; try reflexivity; vm_compute; discriminate.
Qed.

Lemma digits_acc_bounds s : forall acc v,
  digits_acc s acc = Some v -> 0 <= acc -> acc <= v.
Proof.
  induction s as [|c r IH]; intros acc v; simpl.
  - intros [= <-]. lia.
  - destruct (is_digit c) eqn:Hc; [|discriminate].
    intros Hv Hacc. destruct (digit_not_blank c Hc) as (_ & _ & _ & _ & _ & Hd).
    specialize (IH _ _ Hv). lia.
Qed.

Lemma digits_acc_scan_token s : forall acc v,
  digits_acc s acc = Some v -> scan_token s = s.
Proof.
  induction s as [|c r IH]; intros acc v; simpl; [done|].
  destruct (is_digit c) eqn:Hc; [|discriminate].
  destruct (digit_not_blank c Hc) as (_ & _ & _ & _ & -> & _).
  intros Hv. by rewrite (IH _ _ Hv).
Qed.

Lemma ParseInt_digit_head c r :
  is_digit c = true ->
  ParseInt (String c r) =
  match digits_value (String c r) with
  | Some n => if in_int64 n then Some n else None
  | None => None
  end.
Proof.
  destruct c as [[] [] [] [] [] [] [] []]; try discriminate; intros _; reflexivity.
Qed.

(** On a string of digits whose value fits [int], the scanner returns the
    value. *)
Lemma Sscanf_d_digits s v :
  digits_value s = Some v -> v <= maxInt64 -> Sscanf_d s = Some v.
Proof.
  destruct s as [|c r]; [discriminate|]. intros Hv Hmax.
  assert (is_digit c = true) as Hc.
  { simpl in Hv. by destruct (is_digit c). }
  destruct (digit_not_blank c Hc) as (Hnl & Hsp & Hplus & Hminus & _ & _).
  pose proof (digits_acc_scan_token _ _ _ Hv) as Htok.
  pose proof (digits_acc_bounds _ _ _ Hv ltac:(lia)) as Hpos.
  unfold Sscanf_d. simpl skip_space. rewrite Hnl, Hsp, Hplus, Hminus. simpl orb. cbv iota.
  rewrite Htok.
  change ("" +:+ String c r) with (String c r).
  rewrite (ParseInt_digit_head c r Hc).
  rewrite Hv. unfold in_int64, minInt64.
  replace (- 2 ^ 63 <=? v) with true by (symmetry; apply Z.leb_le; lia).
  replace (v <=? maxInt64) with true by (symmetry; apply Z.leb_le; lia).
  done.
Qed.

Lemma wrap64_small z : minInt64 <= z <= maxInt64 -> wrap64 z = z.
Proof.
  unfold wrap64, minInt64, maxInt64. intros Hz.
  rewrite Z.mod_small by lia. lia.
Qed.

(** Reading back what [FormatInt] prints. *)
Lemma digits_acc_of_uint_acc d : forall acc,
  digits_acc (NilEmpty.string_of_uint d) (Z.pos acc) = Some (Z.pos (Pos.of_uint_acc d acc)).
Proof.
  induction d as [|d IH|d IH|d IH|d IH|d IH|d IH|d IH|d IH|d IH|d IH]; intros acc;
    [done|..]; (read_digit; cbn [Pos.of_uint_acc]; rewrite <- IH; f_equal; lia).
Qed.

Lemma digits_acc_of_uint d :
  digits_acc (NilEmpty.string_of_uint d) 0 = Some (Z.of_N (Pos.of_uint d)).
Proof.
  induction d as [|d IH|d IH|d IH|d IH|d IH|d IH|d IH|d IH|d IH|d IH];
    [done| exact IH |..];
    (read_digit; cbn [Pos.of_uint Z.of_N]; rewrite <- digits_acc_of_uint_acc; f_equal).
Qed.

Lemma digits_value_FormatInt n : 0 <= n -> digits_value (FormatInt n) = Some n.
Proof.
  intros Hn. unfold FormatInt. destruct n as [|p|p]; [done| |lia].
  cbn [Z.to_int NilZero.string_of_int].
  pose proof (Unsigned.to_uint_nonnil p) as Hnil.
  pose proof (Unsigned.of_to p) as Hof.
  pose proof (digits_acc_of_uint (Pos.to_uint p)) as Hacc.
  rewrite Hof in Hacc. cbn [Z.of_N] in Hacc.
  destruct (Pos.to_uint p) as [|d|d|d|d|d|d|d|d|d|d]; [done|..]; exact Hacc.
Qed.

(** C4, as the code has it. For an identifier made of decimal digits
    whose value [n] is below the greatest [int], the main package's
    [generateNextQihao] returns the decimal notation of [n + 1]; the
    predictor's does so only when the identifier has at least 7 bytes,
    and returns the fixed default "3326999" for a shorter one. The result
    reads back as [n + 1]. *)
Theorem generateNextQihao_successor (latestQihao : string) (n : Z) :
  digits_value latestQihao = Some n ->
  n < maxInt64 ->
  App_generateNextQihao latestQihao = FormatInt (n + 1) /\
  ((7 <= String.length latestQihao)%nat ->
     DefaultPredictor_generateNextQihao latestQihao = FormatInt (n + 1)) /\
  ((String.length latestQihao < 7)%nat ->
     DefaultPredictor_generateNextQihao latestQihao = "3326999") /\
  digits_value (FormatInt (n + 1)) = Some (n + 1).
Proof.
  intros Hn Hmax.
  assert (0 <= n) as Hpos.
  { destruct latestQihao; [discriminate|]. apply (digits_acc_bounds _ _ _ Hn). lia. }
  pose proof (Sscanf_d_digits _ _ Hn ltac:(lia)) as Hscan.
  assert (wrap64 (n + 1) = n + 1) as Hwrap.
  { apply wrap64_small. unfold minInt64, maxInt64 in *. lia. }
  split; [|split; [|split]].
  - unfold App_generateNextQihao. by rewrite Hscan, Hwrap.
  - intros Hlen. unfold DefaultPredictor_generateNextQihao.
    replace (7 <=? String.length latestQihao)%nat with true
      by (symmetry; apply Nat.leb_le; lia).
    by rewrite Hscan, Hwrap.
  - intros Hlen. unfold DefaultPredictor_generateNextQihao.
    replace (7 <=? String.length latestQihao)%nat with false
      by (symmetry; apply Nat.leb_gt; lia).
    done.
  - apply digits_value_FormatInt. lia.
Qed.

(** C4 at the identifier of the specification's example. *)
Lemma generateNextQihao_successor_witness :
  App_generateNextQihao "3326100" = FormatInt (3326100 + 1) /\
  DefaultPredictor_generateNextQihao "3326100" = FormatInt (3326100 + 1).
Proof.
  destruct (generateNextQihao_successor "3326100" 3326100) as (H1 & H2 & _).
  - reflexivity.
  - reflexivity.
  - split; [exact H1|]. apply H2. simpl. lia.
Defined.

(** C4 as stated fails: the numeric identifier "123" has the successor
    "124", the predictor answers the default; an identifier at the
    greatest [int] wraps around; and one that is no number gets the
    default from both functions. *)
Lemma generateNextQihao_not_always_successor :
  digits_value "123" = Some 123 /\
  FormatInt (123 + 1) = "124" /\
  DefaultPredictor_generateNextQihao "123" = "3326999" /\
  DefaultPredictor_generateNextQihao "9223372036854775807" = "-9223372036854775808" /\
  App_generateNextQihao "9223372036854775807" = "-9223372036854775808" /\
  App_generateNextQihao "round-7" = "3326999".
Proof. repeat split. Qed.

(* ===================================================================== *)
(** * Properties of the fetched rounds *)
(* ===================================================================== *)

Lemma validate_parts_range parts nums :
  validate_parts parts = Ok tt ->
  parse_parts parts = Ok nums ->
  Forall (fun n => 0 <= n <= 9) nums.
Proof.
  revert nums. induction parts as [|part rest IH]; intros nums; simpl.
  - intros _ [= <-]. constructor.
  - destruct (Atoi (TrimSpace part)) as [num|]; [|discriminate].
    destruct (Z.ltb_spec num 0); [discriminate|].
    destruct (Z.gtb_spec num 9); [discriminate|]. simpl.
    intros Hv. destruct (parse_parts rest) as [nums'|]; [|discriminate].
    intros [= <-]. constructor; [lia|]. by apply IH.
Qed.

Lemma CalculateSum_slots a b c :
  0 <= a <= 9 -> 0 <= b <= 9 -> 0 <= c <= 9 -> CalculateSum [a; b; c] = a + b + c.
Proof.
  intros Ha Hb Hc. unfold CalculateSum. cbn [fold_left]. rewrite Z.add_0_l.
  assert (forall z, 0 <= z <= 27 -> wrap64 z = z) as Hw.
  { intros z Hz. apply wrap64_small. unfold minInt64, maxInt64. lia. }
  rewrite (Hw a) by lia. rewrite (Hw (a + b)) by lia. rewrite (Hw (a + b + c)) by lia. done.
Qed.

Section ClientProps.

Variable time_Parse : string -> string -> option Z.
Variable currentYear : Z.

Lemma Convert_Ok apiData result :
  Client_ConvertAPIDataToLotteryResult time_Parse currentYear apiData = Ok result ->
  lr_Qihao result = api_Qihao apiData /\
  lr_OpenNum result = api_OpenNum apiData /\
  Atoi (api_Sum apiData) = Some (lr_SumValue result) /\
  Client_validateOpenNum (api_OpenNum apiData) = Ok tt.
Proof.
  unfold Client_ConvertAPIDataToLotteryResult.
  destruct (Client_parseOpenTime time_Parse currentYear (api_OpenTime apiData)) as [t|];
    simpl; [|discriminate].
  destruct (Atoi (api_Sum apiData)) as [n|]; simpl; [|discriminate].
  destruct (Client_validateOpenNum (api_OpenNum apiData)) as [[]|]; simpl; [|discriminate].
  intros [= <-]. done.
Qed.


(** The latest round, as [FetchAndValidateLatestData] returns it and
    the cycle stores it: its slots are digits and its sum is their
    sum, whatever sum the source reported. *)
Lemma FetchAndValidateLatestData_sum fetched result :
  Client_FetchAndValidateLatestData time_Parse currentYear fetched = Ok result ->
  exists a b c,
    ParseOpenNum (lr_OpenNum result) = Ok [a; b; c] /\
    0 <= a <= 9 /\ 0 <= b <= 9 /\ 0 <= c <= 9 /\
    lr_SumValue result = a + b + c.
Proof.
  unfold Client_FetchAndValidateLatestData.
  destruct fetched as [apiResponse|]; simpl; [|discriminate].
  destruct (Data apiResponse) as [|latestAPIData rest]; [discriminate|].
  destruct (Client_ConvertAPIDataToLotteryResult time_Parse currentYear latestAPIData)
    as [lotteryResult|] eqn:Hconv; simpl; [|discriminate].
  destruct (Convert_Ok _ _ Hconv) as (_ & Hnum & _ & Hvalid).
  destruct (ParseOpenNum (lr_OpenNum lotteryResult)) as [nums|] eqn:Hparse; simpl;
    [|discriminate].
  assert (exists a b c, nums = [a; b; c] /\ 0 <= a <= 9 /\ 0 <= b <= 9 /\ 0 <= c <= 9)
    as (a & b & c & -> & Ha & Hb & Hc).
  { destruct (ParseOpenNum_three _ _ Hparse) as (a & b & c & ->).
    rewrite Hnum in Hparse. unfold ParseOpenNum, Client_validateOpenNum in *.
    destruct (negb (length (Split (api_OpenNum latestAPIData) "+") =? 3)%nat);
      [discriminate|].
    pose proof (validate_parts_range _ _ Hvalid Hparse) as Hall.
    inversion Hall as [|? ? Ha Hall1]; subst.
    inversion Hall1 as [|? ? Hb Hall2]; subst.
    inversion Hall2 as [|? ? Hc _]; subst. eauto 10. }
  pose proof (CalculateSum_slots a b c Ha Hb Hc) as Hsum.
  destruct (Z.eqb_spec (CalculateSum [a; b; c]) (lr_SumValue lotteryResult)) as [He|Hne];
    simpl; intros [= <-]; simpl; exists a, b, c; rewrite ?Hparse; repeat split; lia.
Qed.

(** C5 on the specification's example, draw "4+3+0" with reported sum
    "8". On the single latest round the recomputed sum 7 is returned;
    on the historical window the reported 8 is kept, and start-up stores
    it. *)
Theorem GetHistoricalData_keeps_reported_sum (t : Z) :
  Client_parseOpenTime time_Parse currentYear "08-23 01:16:00" = Ok t ->
  Client_FetchAndValidateLatestData time_Parse currentYear (Ok sample_response) =
    Ok {| lr_Qihao := "3326100"; lr_OpenTime := t;
          lr_OpenTimeString := "08-23 01:16:00"; lr_OpenNum := "4+3+0";
          lr_SumValue := 7 |} /\
  Client_GetHistoricalData time_Parse currentYear (Ok sample_response) =
    Ok [{| lr_Qihao := "3326100"; lr_OpenTime := t;
           lr_OpenTimeString := "08-23 01:16:00"; lr_OpenNum := "4+3+0";
           lr_SumValue := 8 |}] /\
  (exists historicalData,
     Client_GetHistoricalData time_Parse currentYear (Ok sample_response) = Ok historicalData /\
     map (fun r => (lr_OpenNum r, lr_SumValue r))
       (lottery_results
          (App_saveHistoricalData {| lottery_results := []; predictions := [] |}
             historicalData)) = [("4+3+0", 8)]).
Proof.
  intros Ht.
  unfold Client_FetchAndValidateLatestData, Client_GetHistoricalData, convert_all,
    Client_ConvertAPIDataToLotteryResult.
  simpl. rewrite Ht. simpl. split; [done|]. split; [done|].
  eexists. split; [reflexivity|]. done.
Qed.

End ClientProps.

(** C5's example with a clock that reads the entry's time. *)
Lemma GetHistoricalData_keeps_reported_sum_witness :
  map lr_SumValue
    (match Client_GetHistoricalData sample_time_Parse 2025 (Ok sample_response) with
     | Ok results => results
     | Err _ => []
     end) = [8].
Proof.
  destruct (GetHistoricalData_keeps_reported_sum sample_time_Parse 2025 19) as (_ & H & _).
  - reflexivity.
  - rewrite H. reflexivity.
Defined.

(* ===================================================================== *)
(** * Properties of the orchestrator cycle *)
(* ===================================================================== *)

Lemma CheckNewQihao_known (m : MySQLDB) (qihao : string) :
  In qihao (map lr_Qihao (lottery_results m)) -> MySQLDB_CheckNewQihao m qihao = false.
Proof.
  intros (row & Hq & Hin)%in_map_iff. unfold MySQLDB_CheckNewQihao.
  assert (row ∈ filter (fun r => String.eqb (lr_Qihao r) qihao = true) (lottery_results m))
    as Hf.
  { apply list_elem_of_filter. split; [by apply String.eqb_eq|by apply list_elem_of_In]. }
  destruct (filter _ (lottery_results m)); [by apply elem_of_nil in Hf|done].
Qed.

Lemma upsert_result_known (result : LotteryResult) rows :
  In (lr_Qihao result) (map lr_Qihao (upsert_result result rows)).
Proof.
  induction rows as [|row rest IH]; simpl; [by left|].
  destruct (String.eqb (lr_Qihao row) (lr_Qihao result)); simpl; [by left|by right].
Qed.

Lemma Validator_keeps_rounds (m : MySQLDB) qihao actual now :
  lottery_results (Validator_ValidatePrediction m qihao actual now).2 = lottery_results m.
Proof.
  unfold Validator_ValidatePrediction, MySQLDB_ValidatePrediction.
  destruct (find _ _); [|done].
  destruct (ParseOpenNum _); [|done].
  destruct (ParseOpenNum _); [|done].
  by destruct (limit 1 _).
Qed.

(** The verification step: one call on the validator, then the cache
    hook if it succeeded; the rounds of the store are not touched. *)
Lemma verifyPreviousPrediction_steps (actual : LotteryResult) (now : Z) (a : App) :
  match App_verifyPreviousPrediction actual now a with
  | (r, a', calls) =>
      map step_of calls = StepVerify :: (if is_Ok r then [StepCacheStats] else []) /\
      lottery_results (mysql a') = lottery_results (mysql a)
  end.
Proof.
  unfold App_verifyPreviousPrediction.
  pose proof (Validator_keeps_rounds (mysql a) (lr_Qihao actual) actual now) as Hk.
  run_eff. destruct (Validator_ValidatePrediction (mysql a) (lr_Qihao actual) actual now)
    as [[validation|e] m']; cbn in *; done.
Qed.

(** The generation step: its calls are an initial part of
    [generate_steps], all of it exactly when it succeeds; the rounds of
    the store are not touched. *)
Lemma generateNewPrediction_steps (now : Z) (a : App) :
  match App_generateNewPrediction now a with
  | (r, a', calls) =>
      (map step_of calls = [StepReadWindow] \/
       map step_of calls = [StepReadWindow; StepGenerate] \/
       map step_of calls = generate_steps) /\
      (is_Ok r = true <-> map step_of calls = generate_steps) /\
      lottery_results (mysql a') = lottery_results (mysql a)
  end.
Proof.
  unfold App_generateNewPrediction. run_eff.
  destruct (length (MySQLDB_GetLatestLotteryResults (mysql a) 3) <=? 2)%nat; cbn.
  - split; [by left|]. split; [|done]. split; discriminate.
  - destruct (DefaultPredictor_Predict (MySQLDB_GetLatestLotteryResults (mysql a) 3) now)
      as [predictionResult|e]; cbn.
    + split; [by right; right|]. done.
    + split; [by right; left|]. split; [|done]. split; discriminate.
Qed.

Lemma upsert_result_In (x result : LotteryResult) rows :
  In x (upsert_result result rows) -> x = result \/ In x rows.
Proof.
  induction rows as [|row rest IH]; simpl.
  - intros [<-|[]]. by left.
  - destruct (String.eqb (lr_Qihao row) (lr_Qihao result)); simpl.
    + intros [<-|Hin]; [by left|by right; right].
    + intros [<-|Hin]; [by right; left|]. destruct (IH Hin); [by left|by right; right].
Qed.

Lemma upsert_result_has (result : LotteryResult) rows :
  In result (upsert_result result rows).
Proof.
  induction rows as [|row rest IH]; simpl; [by left|].
  destruct (String.eqb (lr_Qihao row) (lr_Qihao result)); simpl; [by left|by right].
Qed.

(** Once saved, a round whose open time is later than that of every
    stored round heads the history window. *)
Lemma GetLatestLotteryResults_newest (m : MySQLDB) (latestData : LotteryResult) :
  (forall row, In row (lottery_results m) -> lr_OpenTime row < lr_OpenTime latestData) ->
  exists rest,
    MySQLDB_GetLatestLotteryResults (MySQLDB_SaveLotteryResult m latestData) 3 =
      latestData :: rest.
Proof.
  intros Hlater. unfold MySQLDB_GetLatestLotteryResults, MySQLDB_SaveLotteryResult. simpl.
  destruct (order_by_desc lr_OpenTime (upsert_result latestData (lottery_results m)))
    as [|r rest] eqn:Hs.
  - pose proof (upsert_result_has latestData (lottery_results m)) as Hin.
    apply (order_by_desc_In lr_OpenTime) in Hin. rewrite Hs in Hin. destruct Hin.
  - destruct (order_by_desc_head _ _ _ _ Hs) as [Hin Hmax].
    specialize (Hmax latestData (upsert_result_has _ _)).
    apply upsert_result_In in Hin as [->|Hin].
    + by exists (take 2 rest).
    + specialize (Hlater r Hin). lia.
Qed.

(** A successful generation appends one pending forecast, whose target
    is [generateNextQihao] of the newest round of the window. *)
Lemma generateNewPrediction_target (now : Z) (a a' : App) (calls : list Call) :
  App_generateNewPrediction now a = (Ok tt, a', calls) ->
  exists newest rest forecast,
    MySQLDB_GetLatestLotteryResults (mysql a) 3 = newest :: rest /\
    predictions (mysql a') = predictions (mysql a) ++ [forecast] /\
    p_TargetQihao forecast = DefaultPredictor_generateNextQihao (lr_Qihao newest) /\
    p_IsCorrect forecast = None.
Proof.
  unfold App_generateNewPrediction. run_eff.
  destruct (length (MySQLDB_GetLatestLotteryResults (mysql a) 3) <=? 2)%nat; cbn;
    [discriminate|].
  destruct (DefaultPredictor_Predict (MySQLDB_GetLatestLotteryResults (mysql a) 3) now)
    as [predictionResult|e] eqn:Hp; cbn; [|discriminate].
  intros [= <- _]. cbn.
  unfold DefaultPredictor_Predict in Hp.
  destruct (DefaultPredictor_ValidateInput _); cbn in Hp; [|discriminate].
  destruct (MySQLDB_GetLatestLotteryResults (mysql a) 3) as [|newest rest];
    [discriminate|].
  cbn in Hp. injection Hp as <-. cbn.
  eexists newest, rest, _. split; [done|]. split; [reflexivity|]. done.
Qed.

Section AppProps.

Variable time_Parse : string -> string -> option Z.
Variable currentYear : Z.

(** The three ways a cycle goes. *)
Lemma processDataUpdate_cases (fetched : Result APIResponse) (now : Z) (a : App) :
  match Client_FetchAndValidateLatestData time_Parse currentYear fetched with
  | Err e =>
      App_processDataUpdate time_Parse currentYear fetched now a =
        (Err ("failed to fetch latest data: " +:+ e),
         {| mysql := mysql a; lastAPIError := e; lastDBError := lastDBError a |},
         [CallFetchAndValidateLatestData])
  | Ok latestData =>
      if MySQLDB_CheckNewQihao (mysql a) (lr_Qihao latestData) then
        let a1 := {| mysql := MySQLDB_SaveLotteryResult (mysql a) latestData;
                     lastAPIError := ""; lastDBError := "" |} in
        match App_verifyPreviousPrediction latestData now a1 with
        | (_, a2, calls_v) =>
            match App_generateNewPrediction now a2 with
            | (r, a3, calls_g) =>
                exists r',
                  App_processDataUpdate time_Parse currentYear fetched now a =
                    (r', a3,
                     [CallFetchAndValidateLatestData;
                      CallCheckNewQihao (lr_Qihao latestData);
                      CallSaveLotteryResult latestData;
                      CallOnNewLotteryData latestData] ++ calls_v ++ calls_g) /\
                  is_Ok r' = is_Ok r
            end
        end
      else
        App_processDataUpdate time_Parse currentYear fetched now a =
          (Ok tt,
           {| mysql := mysql a; lastAPIError := ""; lastDBError := "" |},
           [CallFetchAndValidateLatestData; CallCheckNewQihao (lr_Qihao latestData)])
  end.
Proof.
  unfold App_processDataUpdate.
  destruct (Client_FetchAndValidateLatestData time_Parse currentYear fetched)
    as [latestData|e].
  - unfold mbind, mret, Eff_bind, Eff_ret, call, get_mysql, put_mysql,
      set_lastAPIError, set_lastDBError.
    cbn -[App_verifyPreviousPrediction App_generateNewPrediction
          MySQLDB_CheckNewQihao MySQLDB_SaveLotteryResult].
    destruct (MySQLDB_CheckNewQihao (mysql a) (lr_Qihao latestData));
      cbn -[App_verifyPreviousPrediction App_generateNewPrediction MySQLDB_SaveLotteryResult];
      [|done].
    destruct (App_verifyPreviousPrediction latestData now _) as [[vr a2] calls_v].
    destruct (App_generateNewPrediction now a2) as [[[u|e] a3] calls_g];
      cbn; rewrite app_nil_r; eexists; (split; [reflexivity|done]).
  - by run_eff.
Qed.

Lemma no_write_in_reads qihao :
  Forall (fun c => writes_or_notifies c = false)
    [CallFetchAndValidateLatestData; CallCheckNewQihao qihao].
Proof. repeat constructor. Qed.

(** A cycle whose round the store already holds. *)
Lemma processDataUpdate_known (fetched : Result APIResponse) (now : Z) (a : App)
  (latestData : LotteryResult) :
  Client_FetchAndValidateLatestData time_Parse currentYear fetched = Ok latestData ->
  In (lr_Qihao latestData) (map lr_Qihao (lottery_results (mysql a))) ->
  App_processDataUpdate time_Parse currentYear fetched now a =
    (Ok tt,
     {| mysql := mysql a; lastAPIError := ""; lastDBError := "" |},
     [CallFetchAndValidateLatestData; CallCheckNewQihao (lr_Qihao latestData)]).
Proof.
  intros Hf Hin. pose proof (processDataUpdate_cases fetched now a) as Hc.
  rewrite Hf in Hc. by rewrite (CheckNewQihao_known _ _ Hin) in Hc.
Qed.


(** The same batch twice in a row: whatever the first cycle did, the
    second one writes nothing and notifies nobody. *)
Lemma processDataUpdate_second_pass (fetched : Result APIResponse) (now1 now2 : Z) (a : App) :
  match App_processDataUpdate time_Parse currentYear fetched now1 a with
  | (_, a1, _) =>
      match App_processDataUpdate time_Parse currentYear fetched now2 a1 with
      | (_, a2, calls2) =>
          mysql a2 = mysql a1 /\ Forall (fun c => writes_or_notifies c = false) calls2
      end
  end.
Proof.
  pose proof (processDataUpdate_cases fetched now1 a) as H1.
  destruct (Client_FetchAndValidateLatestData time_Parse currentYear fetched)
    as [latestData|e] eqn:Hf.
  - destruct (MySQLDB_CheckNewQihao (mysql a) (lr_Qihao latestData)) eqn:Hnew.
    + cbv zeta in H1.
      pose proof (verifyPreviousPrediction_steps latestData now1
                    {| mysql := MySQLDB_SaveLotteryResult (mysql a) latestData;
                       lastAPIError := ""; lastDBError := "" |}) as Hv.
      destruct (App_verifyPreviousPrediction latestData now1 _) as [[vr a2] calls_v].
      pose proof (generateNewPrediction_steps now1 a2) as Hg.
      destruct (App_generateNewPrediction now1 a2) as [[gr a3] calls_g].
      destruct H1 as (r' & -> & _). destruct Hv as [_ Hv]. destruct Hg as (_ & _ & Hg).
      assert (In (lr_Qihao latestData) (map lr_Qihao (lottery_results (mysql a3)))) as Hin.
      { rewrite Hg, Hv. simpl. apply upsert_result_known. }
      rewrite (processDataUpdate_known _ now2 a3 _ Hf Hin).
      split; [done|apply no_write_in_reads].
    + rewrite H1.
      assert (In (lr_Qihao latestData) (map lr_Qihao (lottery_results (mysql a)))) as Hin.
      { unfold MySQLDB_CheckNewQihao in Hnew.
        destruct (filter _ (lottery_results (mysql a))) as [|row l] eqn:Hfl; [done|].
        assert (row ∈ filter (fun r => String.eqb (lr_Qihao r) (lr_Qihao latestData) = true)
                        (lottery_results (mysql a))) as Hrow by (rewrite Hfl; by left).
        apply list_elem_of_filter in Hrow as [Heq Hrow].
        apply in_map_iff. exists row. split; [by apply String.eqb_eq|by apply list_elem_of_In]. }
      rewrite (processDataUpdate_known _ now2
                 {| mysql := mysql a; lastAPIError := ""; lastDBError := "" |} _ Hf Hin).
      split; [done|apply no_write_in_reads].
  - rewrite H1. pose proof (processDataUpdate_cases fetched now2
                             {| mysql := mysql a; lastAPIError := e;
                                lastDBError := lastDBError a |}) as H2.
    rewrite Hf in H2. rewrite H2. split; [done|by repeat constructor].
Qed.


(** In a successful cycle on a novel round that is later (by open time)
    than every stored round, the forecast appended to the store targets
    [generateNextQihao] of the observed round. *)
Lemma processDataUpdate_forecast_target
  (fetched : Result APIResponse) (now : Z) (a a' : App) (latestData : LotteryResult)
  (calls : list Call) :
  Client_FetchAndValidateLatestData time_Parse currentYear fetched = Ok latestData ->
  MySQLDB_CheckNewQihao (mysql a) (lr_Qihao latestData) = true ->
  (forall row, In row (lottery_results (mysql a)) ->
     lr_OpenTime row < lr_OpenTime latestData) ->
  App_processDataUpdate time_Parse currentYear fetched now a = (Ok tt, a', calls) ->
  exists older forecast,
    predictions (mysql a') = older ++ [forecast] /\
    p_TargetQihao forecast = DefaultPredictor_generateNextQihao (lr_Qihao latestData) /\
    p_IsCorrect forecast = None.
Proof.
  intros Hf Hnew Hlater Hrun. pose proof (processDataUpdate_cases fetched now a) as Hc.
  rewrite Hf, Hnew in Hc. cbv zeta in Hc.
  pose proof (verifyPreviousPrediction_steps latestData now
                {| mysql := MySQLDB_SaveLotteryResult (mysql a) latestData;
                   lastAPIError := ""; lastDBError := "" |}) as Hv.
  destruct (App_verifyPreviousPrediction latestData now _) as [[vr a2] calls_v].
  destruct (App_generateNewPrediction now a2) as [[gr a3] calls_g] eqn:Hg.
  destruct Hc as (r' & Heq & Hr'). rewrite Hrun in Heq. injection Heq as <- <- _.
  destruct gr as [[]|e]; [|discriminate]. destruct Hv as [_ Hv].
  destruct (generateNewPrediction_target _ _ _ _ Hg) as (newest & rest & forecast & Hw & Hp & Ht & Hn).
  destruct (GetLatestLotteryResults_newest (mysql a) latestData Hlater) as [rest' Hnewest].
  unfold MySQLDB_GetLatestLotteryResults, MySQLDB_SaveLotteryResult in Hw, Hnewest.
  simpl in Hv, Hnewest. rewrite Hv, Hnewest in Hw. injection Hw as <- _.
  by exists (predictions (mysql a2)), forecast.
Qed.

End AppProps.




(** The cycle on the sample store: round 3326100 is stored with the
    recomputed sum, its forecast is verified, and the new forecast
    targets 3326101. *)
Example processDataUpdate_sample_cycle :
  map (fun r => (lr_Qihao r, lr_SumValue r))
    (lottery_results
       (mysql (App_processDataUpdate sample_time_Parse 2025 (Ok sample_response) 50
                 sample_app).1.2)) =
    [("3326097", 7); ("3326098", 18); ("3326099", 17); ("3326100", 7)] /\
  map (fun p => (p_TargetQihao p, p_PredictedNum p, p_IsCorrect p))
    (predictions
       (mysql (App_processDataUpdate sample_time_Parse 2025 (Ok sample_response) 50
                 sample_app).1.2)) =
    [("3326100", "2+4+0", Some false); ("3326101", "2+4+0", None)].
Proof. split; reflexivity. Qed.

(** The window of [generateNewPrediction] is ordered by open time: when
    a stored round carries a later open time than the observed one, the
    new forecast targets the successor of that stored round. *)
Example processDataUpdate_target_follows_open_time :
  map p_TargetQihao
    (predictions
       (mysql (App_processDataUpdate sample_time_Parse 2025 (Ok sample_response) 50
                 {| mysql :=
                      {| lottery_results :=
                           [sample_round "3326097" "4+0+3" 7 1;
                            sample_round "3326098" "6+6+6" 18 2;
                            sample_round "3326099" "1+7+9" 17 30];
                         predictions := [] |};
                    lastAPIError := ""; lastDBError := "" |}).1.2)) =
    ["3326100"].
Proof. reflexivity. Qed.

(* ===================================================================== *)
(** * Properties of the other cache operations *)
(* ===================================================================== *)

Lemma length_snoc (p : string) (c : ascii) :
  String.length (p +:+ String c "") = S (String.length p).
Proof. induction p as [|x p IH]; simpl; [done|]. by rewrite IH. Qed.

Lemma get_snoc (p : string) (c : ascii) :
  String.get (String.length p) (p +:+ String c "") = Some c.
Proof. induction p as [|x p IH]; simpl; done. Qed.

Lemma substring_snoc (p : string) (c : ascii) :
  String.substring 0 (String.length p) (p +:+ String c "") = p.
Proof. induction p as [|x p IH]; simpl; [done|]. by rewrite IH. Qed.

Lemma get_last_snoc (s : string) (c : ascii) :
  String.get (String.length s - 1) s = Some c -> exists p, s = p +:+ String c "".
Proof.
  induction s as [|x s IH]; simpl; [discriminate|].
  destruct s as [|y s].
  - simpl. intros [= ->]. by exists "".
  - simpl in *. rewrite Nat.sub_0_r in *. intros H.
    destruct (IH H) as [p ->]. by exists (String x p).
Qed.

Lemma substring_prefix (p s : string) :
  (String.length p <=? String.length s)%nat
    && String.eqb (String.substring 0 (String.length p) s) p = true
  <-> exists rest, s = p +:+ rest.
Proof.
  rewrite andb_true_iff, Nat.leb_le, String.eqb_eq. split.
  - intros [_ H]. revert s H. induction p as [|x p IH]; intros s; simpl.
    + intros _. by exists s.
    + destruct s as [|y s]; [discriminate|]. intros [= -> H].
      destruct (IH s H) as [rest ->]. by exists rest.
  - intros [rest ->]. induction p as [|x p IH]; simpl.
    + split; [lia|]. by destruct rest.
    + destruct IH as [Hl Hs]. split; [lia|]. by rewrite Hs.
Qed.

(** X1. [matchPattern]: the pattern ["*"] matches every key; a pattern
    [prefix*] matches exactly the keys that begin with [prefix]; a
    pattern that does not end in ['*'] matches exactly itself, so a
    ['*'] anywhere but at the end is an ordinary character. *)
Theorem matchPattern_meaning (pattern str : string) :
  (pattern = "*" -> matchPattern pattern str = true) /\
  (forall prefix, pattern = prefix +:+ "*" ->
     (matchPattern pattern str = true <-> exists rest, str = prefix +:+ rest)) /\
  ((forall prefix, pattern <> prefix +:+ "*") ->
     (matchPattern pattern str = true <-> str = pattern)).
Proof.
  split; [by intros ->|]. split.
  - intros prefix ->. unfold matchPattern.
    destruct (String.eqb_spec (prefix +:+ "*") "*") as [He|Hne].
    + destruct prefix as [|x [|y p]]; try discriminate. split; [|done].
      intros _. by exists str.
    + rewrite length_snoc. simpl. rewrite Nat.sub_0_r, get_snoc, substring_snoc.
      apply substring_prefix.
  - intros Hno. unfold matchPattern.
    destruct (String.eqb_spec pattern "*") as [->|Hne]; [by destruct (Hno "")|].
    destruct (String.get (String.length pattern - 1) pattern) as [c|] eqn:Hget.
    + assert (c <> "*"%char) as Hc.
      { intros ->. destruct (get_last_snoc _ _ Hget) as [p ->]. by destruct (Hno p). }
      assert (forall b, match c with "*"%char => b | _ => String.eqb pattern str end
                        = String.eqb pattern str) as ->.
      { intros b. destruct c as [[] [] [] [] [] [] [] []]; try reflexivity. by destruct Hc. }
      rewrite String.eqb_eq. split; congruence.
    + rewrite String.eqb_eq. split; congruence.
Qed.

Lemma delete_counting_fold {V} (keys : list string) :
  forall (items : gmap string (MemoryItem V)) (n0 : Z),
    let result :=
      fold_left (fun acc key =>
                   match acc.1 !! key with
                   | Some _ => (delete key acc.1, acc.2 + 1)
                   | None => acc
                   end) keys (items, n0) in
    (forall k, result.1 !! k = if decide (k ∈ keys) then None else items !! k) /\
    Z.of_nat (base.size result.1) = Z.of_nat (base.size items) - (result.2 - n0) /\
    n0 <= result.2.
Proof.
  induction keys as [|key rest IH]; intros items n0; simpl.
  - split; [|lia]. intros k. destruct (decide (k ∈ [])) as [Hin|]; [|done].
    by apply elem_of_nil in Hin.
  - destruct (items !! key) as [item|] eqn:Hkey.
    + destruct (IH (delete key items) (n0 + 1)) as (Hlook & Hsize & Hle).
      split; [|split].
      * intros k. rewrite Hlook.
        destruct (decide (k ∈ rest)) as [Hr|Hr].
        -- rewrite decide_True; [done|by right].
        -- destruct (decide (k = key)) as [->|Hne].
           ++ rewrite decide_True by (by left). apply lookup_delete_eq.
           ++ rewrite decide_False by (intros [?|?]%elem_of_cons; done).
              by apply lookup_delete_ne.
      * pose proof (size_delete_present items key item Hkey). lia.
      * lia.
    + destruct (IH items n0) as (Hlook & Hsize & Hle).
      split; [|split; [done|done]].
      intros k. rewrite Hlook.
      destruct (decide (k ∈ rest)) as [Hr|Hr].
      * rewrite decide_True; [done|by right].
      * destruct (decide (k = key)) as [->|Hne].
        -- rewrite decide_True by (by left). done.
        -- rewrite decide_False by (intros [?|?]%elem_of_cons; done). done.
Qed.

(** What [purge] does: the listed keys are gone, the others stay, and
    the counter stays in step. *)
Lemma purge_spec {V} (keys : list string) (m : MemoryCache V) :
  (forall k, mc_items (purge keys m) !! k =
             if decide (k ∈ keys) then None else mc_items m !! k) /\
  (counted m -> counted (purge keys m)) /\
  (counted m -> mc_size (purge keys m) <= mc_size m) /\
  mc_maxSize (purge keys m) = mc_maxSize m.
Proof.
  unfold purge, delete_counting.
  pose proof (delete_counting_fold keys (mc_items m) 0) as H. cbv zeta in H.
  revert H. generalize (fold_left (fun acc key =>
                   match acc.1 !! key with
                   | Some _ => (delete key acc.1, acc.2 + 1)
                   | None => acc
                   end) keys (mc_items m, 0)).
  intros [items' n] (Hlook & Hsize & Hle). simpl in *.
  split; [done|]. unfold counted. simpl.
  destruct (Z.ltb_spec 0 n); (split; [intros Hc; lia|]); (split; [intros Hc; lia|done]).
Qed.

Lemma expired_from_elem {V} (clock : nat -> Z) (entries : list (string * MemoryItem V)) :
  forall i k,
    k ∈ expired_from clock i entries <->
    exists j item, entries !! j = Some (k, item) /\
                   MemoryItem_IsExpired item (clock (i + j)%nat) = true.
Proof.
  induction entries as [|[k0 item0] rest IH]; intros i k; simpl.
  - split; [by intros ?%elem_of_nil|]. by intros (j & item & ? & _).
  - destruct (MemoryItem_IsExpired item0 (clock i)) eqn:He.
    + rewrite elem_of_cons, IH. split.
      * intros [->|(j & item & Hj & Hx)].
        -- exists O, item0. by rewrite Nat.add_0_r.
        -- exists (S j), item. by rewrite Nat.add_succ_r.
      * intros ([|j] & item & Hj & Hx); simpl in Hj.
        -- left. congruence.
        -- right. exists j, item. by rewrite Nat.add_succ_r in Hx.
    + rewrite IH. split.
      * intros (j & item & Hj & Hx). exists (S j), item. by rewrite Nat.add_succ_r.
      * intros ([|j] & item & Hj & Hx); simpl in Hj.
        -- injection Hj as <- <-. rewrite Nat.add_0_r in Hx. congruence.
        -- exists j, item. by rewrite Nat.add_succ_r in Hx.
Qed.

Lemma count_from_total {V} (clock : nat -> Z) (entries : list (string * MemoryItem V)) :
  forall i,
    0 <= (count_from clock i entries).1 /\
    0 <= (count_from clock i entries).2 /\
    (count_from clock i entries).1 + (count_from clock i entries).2 =
      Z.of_nat (length entries).
Proof.
  induction entries as [|entry rest IH]; intros i; simpl; [lia|].
  specialize (IH (S i)).
  destruct (MemoryItem_IsExpired entry.2 (clock i)); simpl; lia.
Qed.

Section MemoryCacheSweepProps.

Context {V Data : Type}.
Variable Marshal : V -> option Data.
Variable Unmarshal : Data -> option V.
Variable Range : gmap string (MemoryItem V) -> list (string * MemoryItem V).

(** [Range] visits every entry of the map exactly once. *)
Hypothesis Range_visits : forall items, Range items ≡ₚ map_to_list items.

Lemma Range_elem (items : gmap string (MemoryItem V)) k item :
  (k, item) ∈ Range items <-> items !! k = Some item.
Proof. rewrite Range_visits. apply elem_of_map_to_list. Qed.

(** X2. [DeletePattern] removes exactly the keys that match the pattern:
    afterwards a matching key is absent and every other key holds what
    it held; the counter stays equal to the number of entries. *)
Theorem DeletePattern_removes_matching (m : MemoryCache V) (pattern : string) :
  (forall k, mc_items (MemoryCache_DeletePattern Range m pattern) !! k =
             if matchPattern pattern k then None else mc_items m !! k) /\
  (counted m -> counted (MemoryCache_DeletePattern Range m pattern)).
Proof.
  unfold MemoryCache_DeletePattern.
  destruct (purge_spec
              (map fst (List.filter (fun entry => matchPattern pattern entry.1)
                          (Range (mc_items m)))) m) as (Hlook & Hc & _).
  split; [|done]. intros k. rewrite Hlook.
  destruct (decide (k ∈ _)) as [Hin|Hnin].
  - apply list_elem_of_fmap in Hin as ([k' item] & -> & Hin). simpl.
    apply list_elem_of_In, filter_In in Hin as [_ Hm]. simpl in Hm. by rewrite Hm.
  - destruct (matchPattern pattern k) eqn:Hm; [|done].
    destruct (mc_items m !! k) as [item|] eqn:Hk; [|done].
    exfalso. apply Hnin. apply list_elem_of_fmap. exists (k, item). split; [done|].
    apply list_elem_of_In, filter_In. split; [|done].
    by apply list_elem_of_In, Range_elem.
Qed.

(** X3. One sweep of [cleanupExpired] whose clock readings all lie
    between [t0] and [t1]: every entry that had expired before [t0] is
    removed, every entry that expires at [t1] or later is kept as it is,
    nothing is added or changed, and the counter stays equal to the
    number of entries. *)
Theorem cleanupExpired_sweeps
  (m : MemoryCache V) (clock : nat -> Z) (t0 t1 : Z) :
  (forall i, t0 <= clock i <= t1) ->
  (forall k item, mc_items m !! k = Some item -> mi_ExpiresAt item < t0 ->
     mc_items (MemoryCache_cleanupExpired Range m clock) !! k = None) /\
  (forall k item, mc_items m !! k = Some item -> t1 <= mi_ExpiresAt item ->
     mc_items (MemoryCache_cleanupExpired Range m clock) !! k = Some item) /\
  (forall k item, mc_items (MemoryCache_cleanupExpired Range m clock) !! k = Some item ->
     mc_items m !! k = Some item) /\
  (counted m -> counted (MemoryCache_cleanupExpired Range m clock)).
Proof.
  intros Hclock. unfold MemoryCache_cleanupExpired.
  destruct (purge_spec (expired_from clock 0 (Range (mc_items m))) m) as (Hlook & Hc & _).
  split; [|split; [|split; [|done]]].
  - intros k item Hk Hexp. rewrite Hlook, decide_True; [done|].
    apply expired_from_elem.
    apply Range_elem, list_elem_of_lookup in Hk as [j Hj].
    exists j, item. split; [done|]. unfold MemoryItem_IsExpired.
    apply Z.ltb_lt. specialize (Hclock (0 + j)%nat). lia.
  - intros k item Hk Hlive. rewrite Hlook, decide_False; [done|].
    intros (j & item' & Hj & Hx)%expired_from_elem.
    apply list_elem_of_lookup_2, Range_elem in Hj.
    assert (item' = item) as -> by congruence.
    unfold MemoryItem_IsExpired in Hx. apply Z.ltb_lt in Hx.
    specialize (Hclock (0 + j)%nat). lia.
  - intros k item. rewrite Hlook. by destruct (decide _).
Qed.

(** X4. [Stats]: with the counter in step, every entry is counted once,
    as valid or as expired, so the two counts add up to [total_size];
    an entry that has expired but is not yet purged is part of it. *)
Theorem Stats_adds_up (m : MemoryCache V) (clock : nat -> Z) :
  counted m ->
  0 <= valid_items (MemoryCache_Stats Range m clock) /\
  0 <= expired_items (MemoryCache_Stats Range m clock) /\
  valid_items (MemoryCache_Stats Range m clock)
    + expired_items (MemoryCache_Stats Range m clock)
    = total_size (MemoryCache_Stats Range m clock) /\
  total_size (MemoryCache_Stats Range m clock) = Z.of_nat (base.size (mc_items m)).
Proof.
  intros Hc. unfold MemoryCache_Stats. simpl.
  destruct (count_from_total clock (Range (mc_items m)) 0) as (Hv & He & Hsum).
  rewrite (Permutation_length (Range_visits (mc_items m))), length_map_to_list in Hsum.
  unfold counted in Hc. lia.
Qed.

End MemoryCacheSweepProps.

Section MemoryCacheRunProps.

Context {V Data : Type}.
Variable Marshal : V -> option Data.
Variable Unmarshal : Data -> option V.
Variable Range : gmap string (MemoryItem V) -> list (string * MemoryItem V).

(** [Range] visits every entry of the map exactly once. *)
Hypothesis Range_visits : forall items, Range items ≡ₚ map_to_list items.

Lemma evictOldest_empty (m : MemoryCache V) :
  mc_items m = ∅ -> MemoryCache_evictOldest Range m = m.
Proof.
  intros He. unfold MemoryCache_evictOldest.
  assert (Range (mc_items m) = []) as ->; [|done].
  apply Permutation_nil_r. rewrite Range_visits, He. by rewrite map_to_list_empty.
Qed.

Lemma Set_within_capacity (m : MemoryCache V) key value ttl now1 now2 :
  within_capacity m ->
  within_capacity (MemoryCache_Set Range m key value ttl now1 now2) /\
  mc_maxSize (MemoryCache_Set Range m key value ttl now1 now2) = mc_maxSize m.
Proof.
  intros [Hc Hb]. split; [split; [by apply Set_counted|]|].
  - unfold MemoryCache_Set.
    destruct (Z.leb_spec (mc_maxSize m) (mc_size m)) as [Hfull|Hfree].
    + destruct (decide (mc_items m = ∅)) as [He|Hne].
      * rewrite (evictOldest_empty m He). simpl.
        unfold counted in Hc. rewrite He, map_size_empty in Hc.
        rewrite He, lookup_empty. lia.
      * destruct (evictOldest_nonempty Range Range_visits m Hne) as (k0 & item0 & _ & _ & ->).
        simpl. destruct (delete k0 (mc_items m) !! key); lia.
    + simpl. destruct (mc_items m !! key); lia.
  - unfold MemoryCache_Set, MemoryCache_evictOldest.
    destruct (mc_maxSize m <=? mc_size m); [|done].
    destruct (oldest (Range (mc_items m))) as [[k t]|]; [|done].
    by destruct (mc_items m !! k).
Qed.

Lemma apply_op_within_capacity (m : MemoryCache V) (op : CacheOp V) :
  within_capacity m ->
  within_capacity (apply_op Marshal Unmarshal Range m op) /\
  mc_maxSize (apply_op Marshal Unmarshal Range m op) = mc_maxSize m.
Proof.
  intros Hw. destruct op as [key value ttl now1 now2|key now|key|pattern|key now|key ttl now|clock|];
    simpl.
  - by apply Set_within_capacity.
  - destruct Hw as [Hc Hb]. pose proof (Get_counted Marshal Unmarshal m key now Hc) as Hc'.
    unfold within_capacity. unfold MemoryCache_Get in *.
    destruct (mc_items m !! key) as [item|]; [|done].
    destruct (MemoryItem_IsExpired item now); simpl in *; [split; [split; [done|lia]|done]|].
    destruct (Marshal (mi_Value item)) as [data|]; [|done]. by destruct (Unmarshal data).
  - destruct Hw as [Hc Hb]. pose proof (Delete_counted m key Hc) as Hc'.
    unfold within_capacity. unfold MemoryCache_Delete in *.
    destruct (mc_items m !! key); simpl in *; [split; [split; [done|lia]|done]|done].
  - destruct Hw as [Hc Hb]. unfold MemoryCache_DeletePattern.
    destruct (purge_spec (map fst (List.filter (fun entry => matchPattern pattern entry.1)
                                     (Range (mc_items m)))) m) as (_ & Hc' & Hle & Hmax).
    unfold within_capacity. rewrite Hmax. specialize (Hle Hc). split; [split; [auto|lia]|done].
  - destruct Hw as [Hc Hb]. unfold within_capacity, MemoryCache_Exists.
    destruct (mc_items m !! key) as [item|] eqn:Hk; [|done].
    destruct (MemoryItem_IsExpired item now); simpl; [|done].
    split; [split; [|lia]|done]. unfold counted in *. simpl.
    pose proof (size_delete_present (mc_items m) key item Hk). lia.
  - destruct Hw as [Hc Hb]. unfold within_capacity, MemoryCache_SetTTL.
    destruct (mc_items m !! key) as [item|] eqn:Hk; [|done]. simpl.
    split; [split; [|lia]|done]. unfold counted in *. simpl.
    rewrite map_size_insert_Some; [done|by eexists].
  - destruct Hw as [Hc Hb]. unfold MemoryCache_cleanupExpired.
    destruct (purge_spec (expired_from clock 0 (Range (mc_items m))) m)
      as (_ & Hc' & Hle & Hmax).
    unfold within_capacity. rewrite Hmax. specialize (Hle Hc). split; [split; [auto|lia]|done].
  - unfold within_capacity, counted, MemoryCache_Clear. simpl.
    rewrite map_size_empty. split; [split; [done|lia]|done].
Qed.

(** X5. Whatever sequence of Set, Get, Delete, DeletePattern, Exists,
    SetTTL, clean-up sweeps and Clear is run on a new cache, [Size]
    returns the number of entries held, and that number never exceeds
    the configured maximum (or 1, when the maximum is below 1: a Set
    always stores its entry). *)
Theorem run_ops_within_capacity (maxSize : Z) (ops : list (CacheOp V)) :
  MemoryCache_Size (run_ops Marshal Unmarshal Range (NewMemoryCache maxSize) ops) =
    Z.of_nat (base.size (mc_items (run_ops Marshal Unmarshal Range (NewMemoryCache maxSize) ops))) /\
  MemoryCache_Size (run_ops Marshal Unmarshal Range (NewMemoryCache maxSize) ops)
    <= Z.max maxSize 1 /\
  mc_maxSize (run_ops Marshal Unmarshal Range (NewMemoryCache maxSize) ops) = maxSize.
Proof.
  assert (forall (m : MemoryCache V),
            within_capacity m ->
            within_capacity (run_ops Marshal Unmarshal Range m ops) /\
            mc_maxSize (run_ops Marshal Unmarshal Range m ops) = mc_maxSize m) as Hrun.
  { unfold run_ops. induction ops as [|op ops IH]; intros m Hw; simpl; [done|].
    destruct (apply_op_within_capacity m op Hw) as [Hw' Hmax].
    destruct (IH _ Hw') as [Hw'' Hmax']. split; [done|congruence]. }
  destruct (Hrun (NewMemoryCache maxSize)) as [[Hc Hb] Hmax].
  { unfold within_capacity, counted, NewMemoryCache. simpl. rewrite map_size_empty. lia. }
  rewrite Hmax in Hb. unfold MemoryCache_Size. simpl in *. done.
Qed.

(** X6. [SetTTL] does not look at the old expiry: applied to an entry
    that is present, expired or not, it makes [Get] return the entry's
    value again at every time up to the new expiry [now + ttl]; the
    creation time, by which evictions are ordered, is unchanged, and
    [GetTTL] then reports the time left to the new expiry. On a key that
    is absent it fails and leaves the cache as it is. *)
Theorem SetTTL_revives
  (m : MemoryCache V) (key : string) (item : MemoryItem V) (data : Data)
  (ttl now later later2 : Z) :
  mc_items m !! key = Some item ->
  Marshal (mi_Value item) = Some data ->
  Unmarshal data = Some (mi_Value item) ->
  later <= now + ttl ->
  (MemoryCache_SetTTL m key ttl now).1 = Ok tt /\
  (MemoryCache_Get Marshal Unmarshal (MemoryCache_SetTTL m key ttl now).2 key later).1 =
    Hit (mi_Value item) /\
  (exists item', mc_items (MemoryCache_SetTTL m key ttl now).2 !! key = Some item' /\
                 mi_CreatedAt item' = mi_CreatedAt item) /\
  MemoryCache_GetTTL (MemoryCache_SetTTL m key ttl now).2 key later later2 =
    Ok (now + ttl - later2) /\
  (forall k, k <> key ->
     mc_items (MemoryCache_SetTTL m key ttl now).2 !! k = mc_items m !! k) /\
  (forall absent, mc_items m !! absent = None ->
     is_Ok (MemoryCache_SetTTL m absent ttl now).1 = false /\
     (MemoryCache_SetTTL m absent ttl now).2 = m).
Proof.
  intros Hk Hm Hu Hlater. unfold MemoryCache_SetTTL. rewrite Hk. simpl.
  unfold MemoryCache_Get, MemoryCache_GetTTL, MemoryItem_IsExpired. simpl.
  rewrite lookup_insert_eq. simpl.
  replace (now + ttl <? later) with false by (symmetry; apply Z.ltb_ge; lia).
  rewrite Hm, Hu. simpl.
  split; [done|]. split; [done|]. split; [by eexists|]. split; [done|]. split.
  - intros k Hne. by rewrite lookup_insert_ne.
  - intros absent Ha. by rewrite Ha.
Qed.

(** X7. [Delete] removes exactly the key: right after [Set(k, v)] and
    [Delete(k)] a [Get(k)] misses and [Exists(k)] is false, every other
    key holds what it held after the [Set], and deleting a key that is
    absent changes nothing. *)
Theorem Delete_after_Set_misses
  (m : MemoryCache V) (key : string) (value : V) (ttl now1 now2 now : Z) :
  (MemoryCache_Get Marshal Unmarshal
     (MemoryCache_Delete (MemoryCache_Set Range m key value ttl now1 now2) key) key now).1
    = CacheMiss /\
  (MemoryCache_Exists
     (MemoryCache_Delete (MemoryCache_Set Range m key value ttl now1 now2) key) key now).1
    = false /\
  (forall k, k <> key ->
     mc_items (MemoryCache_Delete (MemoryCache_Set Range m key value ttl now1 now2) key) !! k
     = mc_items (MemoryCache_Set Range m key value ttl now1 now2) !! k) /\
  (forall absent, mc_items m !! absent = None -> MemoryCache_Delete m absent = m).
Proof.
  unfold MemoryCache_Delete at 1 2 3.
  assert (mc_items (MemoryCache_Set Range m key value ttl now1 now2) !! key =
          Some {| mi_Value := value; mi_ExpiresAt := now1 + ttl; mi_CreatedAt := now2 |}) as Hk.
  { unfold MemoryCache_Set. simpl. apply lookup_insert_eq. }
  rewrite Hk. unfold MemoryCache_Get, MemoryCache_Exists. cbn [mc_items].
  rewrite lookup_delete_eq. split; [done|]. split; [done|]. split.
  - intros k Hne. by rewrite lookup_delete_ne.
  - intros absent Ha. unfold MemoryCache_Delete. by rewrite Ha.
Qed.

End MemoryCacheRunProps.

Lemma DeletePattern_removes_matching_witness :
  mc_items (MemoryCache_DeletePattern map_to_list sample_cache "a*") !! "a" = None /\
  mc_items (MemoryCache_DeletePattern map_to_list sample_cache "a*") !! "b" =
    Some (sample_item 2 6 100) /\
  counted (MemoryCache_DeletePattern map_to_list sample_cache "a*").
Proof.
  destruct (DeletePattern_removes_matching map_to_list (fun _ => reflexivity _)
              sample_cache "a*") as [Hitems Hcounted].
  split; [exact (Hitems "a")|]. split; [exact (Hitems "b")|].
  apply Hcounted. reflexivity.
Defined.

Lemma cleanupExpired_sweeps_witness :
  mc_items (MemoryCache_cleanupExpired map_to_list sample_cache (fun _ => 200)) !! "a" = None /\
  mc_items (MemoryCache_cleanupExpired map_to_list sample_cache (fun _ => 50)) !! "a" =
    Some (sample_item 1 5 100).
Proof.
  split.
  - destruct (cleanupExpired_sweeps map_to_list (fun _ => reflexivity _)
                sample_cache (fun _ => 200) 200 200) as (Hgone & _); [intros _; lia|].
    apply (Hgone "a" (sample_item 1 5 100)); [reflexivity|simpl; lia].
  - destruct (cleanupExpired_sweeps map_to_list (fun _ => reflexivity _)
                sample_cache (fun _ => 50) 50 50) as (_ & Hkept & _); [intros _; lia|].
    apply (Hkept "a" (sample_item 1 5 100)); [reflexivity|simpl; lia].
Defined.

Lemma Stats_adds_up_witness :
  valid_items (MemoryCache_Stats map_to_list sample_cache (fun _ => 50)) +
  expired_items (MemoryCache_Stats map_to_list sample_cache (fun _ => 50)) = 2.
Proof.
  destruct (Stats_adds_up map_to_list (fun _ => reflexivity _) sample_cache (fun _ => 50))
    as (_ & _ & Hsum & Htotal); [reflexivity|].
  rewrite Hsum, Htotal. reflexivity.
Defined.

Lemma run_ops_within_capacity_witness :
  MemoryCache_Size (run_ops Some Some map_to_list (NewMemoryCache 2)
             [OpSet "a" 1 60 0 0; OpSet "b" 2 60 1 1; OpSet "c" 3 60 2 2;
              OpGet "a" 3; OpDeletePattern "b*"]) <= 2.
Proof.
  destruct (run_ops_within_capacity (V := Z) (Data := Z) Some Some map_to_list
              (fun _ => reflexivity _) 2
              [OpSet "a" 1 60 0 0; OpSet "b" 2 60 1 1; OpSet "c" 3 60 2 2;
               OpGet "a" 3; OpDeletePattern "b*"]) as (_ & Hbound & _).
  exact Hbound.
Defined.

Lemma SetTTL_revives_witness :
  (MemoryCache_Get Some Some (MemoryCache_SetTTL sample_cache "a" 60 150).2 "a" 210).1 = Hit 1 /\
  MemoryCache_GetTTL (MemoryCache_SetTTL sample_cache "a" 60 150).2 "a" 200 200 = Ok 10.
Proof.
  destruct (SetTTL_revives (V := Z) (Data := Z) Some Some sample_cache "a"
              (sample_item 1 5 100) 1 60 150 210 200) as (_ & Hget & _);
    [reflexivity|reflexivity|reflexivity|lia|].
  destruct (SetTTL_revives (V := Z) (Data := Z) Some Some sample_cache "a"
              (sample_item 1 5 100) 1 60 150 200 200) as (_ & _ & _ & Httl & _);
    [reflexivity|reflexivity|reflexivity|lia|].
  split; [exact Hget|exact Httl].
Defined.

Section MemoryCacheExpiryProps.

Context {V Data : Type}.
Variable Marshal : V -> option Data.
Variable Unmarshal : Data -> option V.

(** X25. [Exists] and [Get] treat a key alike: [Exists] answers true
    exactly for a key that is present and not past its expiry, every hit
    of [Get] is a key that [Exists]; both leave the same cache behind,
    and when [Exists] answers false the key is gone afterwards (an
    expired entry is dropped on this first touch), the other keys are as
    they were, and, in a cache whose counter was right, the counter is
    still right. [GetTTL] reports 0 for an expired entry without dropping
    it. *)
Theorem Exists_agrees_with_Get (m : MemoryCache V) (key : string) (now : Z) :
  ((MemoryCache_Exists m key now).1 = true <->
   exists item, mc_items m !! key = Some item /\ now <= mi_ExpiresAt item) /\
  (is_Hit (MemoryCache_Get Marshal Unmarshal m key now).1 = true ->
   (MemoryCache_Exists m key now).1 = true) /\
  (MemoryCache_Exists m key now).2 = (MemoryCache_Get Marshal Unmarshal m key now).2 /\
  ((MemoryCache_Exists m key now).1 = false ->
   mc_items (MemoryCache_Exists m key now).2 !! key = None /\
   (MemoryCache_Exists m key now).2 = MemoryCache_Delete m key) /\
  (forall k, k <> key ->
     mc_items (MemoryCache_Exists m key now).2 !! k = mc_items m !! k) /\
  (counted m -> counted (MemoryCache_Exists m key now).2) /\
  (forall item now2,
     mc_items m !! key = Some item -> mi_ExpiresAt item < now ->
     MemoryCache_GetTTL m key now now2 = Ok 0).
Proof.
  unfold MemoryCache_Exists, MemoryCache_Get, MemoryCache_Delete, MemoryCache_GetTTL,
    MemoryItem_IsExpired.
  destruct (mc_items m !! key) as [item|] eqn:Hk.
  - destruct (Z.ltb_spec (mi_ExpiresAt item) now) as [Hexp|Hlive]; cbn [fst snd mc_items].
    + split; [split; [done|]|].
      { intros (item' & [= <-] & Hle). lia. }
      split; [done|]. split; [done|]. split; [by rewrite lookup_delete_eq|].
      split; [intros k Hne; by rewrite lookup_delete_ne|].
      split; [|done]. unfold counted. cbn [mc_items mc_size]. intros Hc.
      pose proof (size_delete_present (mc_items m) key item Hk). lia.
    + split; [split; [intros _; exists item; split; [done|lia]|done]|].
      split; [done|]. split.
      { destruct (Marshal (mi_Value item)) as [data|]; [|done]. by destruct (Unmarshal data). }
      split; [done|]. split; [done|]. split; [done|].
      intros item' now2 [= <-] Hlt. lia.
  - cbn [fst snd]. split; [split; [done|by intros (item & ? & _)]|].
    split; [done|]. split; [done|]. split; [done|]. split; [done|]. split; [done|].
    intros item now2 [=].
Qed.

End MemoryCacheExpiryProps.

(* ===================================================================== *)
(** * Properties of the store: rounds *)
(* ===================================================================== *)

Lemma find_upsert_same (result : LotteryResult) rows :
  List.find (fun r => String.eqb (lr_Qihao r) (lr_Qihao result)) (upsert_result result rows)
  = Some result.
Proof.
  induction rows as [|row rest IH]; simpl.
  - by rewrite String.eqb_refl.
  - destruct (String.eqb (lr_Qihao row) (lr_Qihao result)) eqn:He; simpl.
    + by rewrite String.eqb_refl.
    + by rewrite He.
Qed.

Lemma find_upsert_other (result : LotteryResult) rows qihao :
  qihao <> lr_Qihao result ->
  List.find (fun r => String.eqb (lr_Qihao r) qihao) (upsert_result result rows)
  = List.find (fun r => String.eqb (lr_Qihao r) qihao) rows.
Proof.
  intros Hne. induction rows as [|row rest IH]; simpl.
  - destruct (String.eqb_spec (lr_Qihao result) qihao); [congruence|done].
  - destruct (String.eqb_spec (lr_Qihao row) (lr_Qihao result)) as [Hsame|Hdiff]; simpl.
    + destruct (String.eqb_spec (lr_Qihao result) qihao); [congruence|].
      destruct (String.eqb_spec (lr_Qihao row) qihao); [congruence|done].
    + by rewrite IH.
Qed.

Lemma CheckNewQihao_find (m : MySQLDB) (qihao : string) :
  MySQLDB_CheckNewQihao m qihao =
    match MySQLDB_GetLotteryResultByQihao m qihao with
    | Some _ => false
    | None => true
    end.
Proof.
  unfold MySQLDB_CheckNewQihao, MySQLDB_GetLotteryResultByQihao.
  induction (lottery_results m) as [|row rest IH]; [done|].
  rewrite filter_cons. simpl.
  destruct (decide (String.eqb (lr_Qihao row) qihao = true)) as [->|Hne]; [done|].
  apply not_true_is_false in Hne. by rewrite Hne.
Qed.

Lemma upsert_result_NoDup (result : LotteryResult) rows :
  NoDup (map lr_Qihao rows) -> NoDup (map lr_Qihao (upsert_result result rows)).
Proof.
  induction rows as [|row rest IH]; simpl; intros Hnd.
  - apply NoDup_singleton.
  - destruct (String.eqb_spec (lr_Qihao row) (lr_Qihao result)) as [Hsame|Hdiff]; simpl.
    + by rewrite <- Hsame.
    + apply NoDup_cons in Hnd as [Hnot Hnd]. apply NoDup_cons. split; [|by apply IH].
      intros (x & Hx & Hin)%list_elem_of_fmap.
      apply list_elem_of_In, upsert_result_In in Hin as [->|Hin]; [done|].
      apply Hnot, list_elem_of_fmap. exists x. split; [done|by apply list_elem_of_In].
Qed.

Lemma upsert_result_length (result : LotteryResult) rows :
  length (upsert_result result rows) =
    match List.find (fun r => String.eqb (lr_Qihao r) (lr_Qihao result)) rows with
    | Some _ => length rows
    | None => S (length rows)
    end.
Proof.
  induction rows as [|row rest IH]; simpl; [done|].
  destruct (String.eqb (lr_Qihao row) (lr_Qihao result)); simpl; [done|].
  rewrite IH. by destruct (find _ rest).
Qed.

(** X8. [SaveLotteryResult] then [GetLotteryResultByQihao] is a round
    trip: the identifier just saved reads back as the saved round and is
    no longer new to [CheckNewQihao]; every other identifier reads as
    before; the forecasts are untouched; the table grows by one row
    exactly when the identifier was new; identifiers that were unique stay
    unique; and saving the same round twice is the same as saving it
    once. *)
Theorem SaveLotteryResult_round_trip (m : MySQLDB) (result : LotteryResult) :
  MySQLDB_GetLotteryResultByQihao (MySQLDB_SaveLotteryResult m result) (lr_Qihao result)
    = Some result /\
  MySQLDB_CheckNewQihao (MySQLDB_SaveLotteryResult m result) (lr_Qihao result) = false /\
  (forall qihao, qihao <> lr_Qihao result ->
     MySQLDB_GetLotteryResultByQihao (MySQLDB_SaveLotteryResult m result) qihao
       = MySQLDB_GetLotteryResultByQihao m qihao /\
     MySQLDB_CheckNewQihao (MySQLDB_SaveLotteryResult m result) qihao
       = MySQLDB_CheckNewQihao m qihao) /\
  predictions (MySQLDB_SaveLotteryResult m result) = predictions m /\
  length (lottery_results (MySQLDB_SaveLotteryResult m result)) =
    (if MySQLDB_CheckNewQihao m (lr_Qihao result)
     then S (length (lottery_results m)) else length (lottery_results m)) /\
  (NoDup (map lr_Qihao (lottery_results m)) ->
   NoDup (map lr_Qihao (lottery_results (MySQLDB_SaveLotteryResult m result)))) /\
  MySQLDB_SaveLotteryResult (MySQLDB_SaveLotteryResult m result) result
    = MySQLDB_SaveLotteryResult m result.
Proof.
  assert (MySQLDB_GetLotteryResultByQihao (MySQLDB_SaveLotteryResult m result)
            (lr_Qihao result) = Some result) as Hsame by apply find_upsert_same.
  assert (forall qihao, qihao <> lr_Qihao result ->
            MySQLDB_GetLotteryResultByQihao (MySQLDB_SaveLotteryResult m result) qihao
            = MySQLDB_GetLotteryResultByQihao m qihao) as Hother.
  { intros qihao Hne. by apply find_upsert_other. }
  split; [done|]. split; [by rewrite CheckNewQihao_find, Hsame|].
  split; [intros qihao Hne; split; [by apply Hother|]|].
  { by rewrite !CheckNewQihao_find, Hother. }
  split; [done|]. split.
  { rewrite CheckNewQihao_find. unfold MySQLDB_SaveLotteryResult, MySQLDB_GetLotteryResultByQihao.
    simpl. rewrite upsert_result_length. by destruct (find _ _). }
  split; [apply upsert_result_NoDup|].
  unfold MySQLDB_SaveLotteryResult. simpl. f_equal.
  induction (lottery_results m) as [|row rest IH]; simpl.
  - by rewrite String.eqb_refl.
  - destruct (String.eqb (lr_Qihao row) (lr_Qihao result)) eqn:He; simpl.
    + by rewrite String.eqb_refl.
    + by rewrite He, IH.
Qed.

Lemma saveHistoricalData_lookup (historicalData : list LotteryResult) :
  forall (m : MySQLDB) qihao,
    MySQLDB_GetLotteryResultByQihao (App_saveHistoricalData m historicalData) qihao =
      match MySQLDB_GetLotteryResultByQihao m qihao with
      | Some stored => Some stored
      | None => List.find (fun data => String.eqb (lr_Qihao data) qihao) historicalData
      end.
Proof.
  unfold App_saveHistoricalData.
  induction historicalData as [|data rest IH]; intros m qihao; simpl.
  - by destruct (MySQLDB_GetLotteryResultByQihao m qihao).
  - rewrite IH. clear IH.
    destruct (MySQLDB_GetLotteryResultByQihao m (lr_Qihao data)) as [stored|] eqn:Hd.
    + destruct (MySQLDB_GetLotteryResultByQihao m qihao) eqn:Hq; [done|].
      destruct (String.eqb_spec (lr_Qihao data) qihao) as [<-|Hne]; [congruence|done].
    + destruct (String.eqb_spec (lr_Qihao data) qihao) as [<-|Hne].
      * unfold MySQLDB_GetLotteryResultByQihao at 1, MySQLDB_SaveLotteryResult. simpl.
        by rewrite find_upsert_same, Hd.
      * unfold MySQLDB_GetLotteryResultByQihao at 1, MySQLDB_SaveLotteryResult. simpl.
        rewrite find_upsert_other by done. done.
Qed.

(** X9. The start-up import of the historical window only fills gaps: an
    identifier reads afterwards as the round the store already held for
    it, else as the first entry of the window with that identifier, else
    not at all. So no stored round is ever overwritten by the window and
    every round of the window is known afterwards; the forecasts are
    untouched and unique identifiers stay unique. *)
Theorem saveHistoricalData_fills_gaps (m : MySQLDB) (historicalData : list LotteryResult) :
  (forall qihao,
     MySQLDB_GetLotteryResultByQihao (App_saveHistoricalData m historicalData) qihao =
       match MySQLDB_GetLotteryResultByQihao m qihao with
       | Some stored => Some stored
       | None => List.find (fun data => String.eqb (lr_Qihao data) qihao) historicalData
       end) /\
  (forall data, In data historicalData ->
     MySQLDB_CheckNewQihao (App_saveHistoricalData m historicalData) (lr_Qihao data) = false) /\
  predictions (App_saveHistoricalData m historicalData) = predictions m /\
  (NoDup (map lr_Qihao (lottery_results m)) ->
   NoDup (map lr_Qihao (lottery_results (App_saveHistoricalData m historicalData)))).
Proof.
  split; [apply saveHistoricalData_lookup|]. split; [|split].
  - intros data Hin. rewrite CheckNewQihao_find, saveHistoricalData_lookup.
    destruct (MySQLDB_GetLotteryResultByQihao m (lr_Qihao data)); [done|].
    destruct (find _ historicalData) eqn:Hf; [done|].
    apply (find_none _ _ Hf) in Hin. by rewrite String.eqb_refl in Hin.
  - unfold App_saveHistoricalData. revert m.
    induction historicalData as [|data rest IH]; intros m; simpl; [done|].
    rewrite IH. by destruct (MySQLDB_GetLotteryResultByQihao m (lr_Qihao data)).
  - unfold App_saveHistoricalData. revert m.
    induction historicalData as [|data rest IH]; intros m Hnd; simpl; [done|].
    apply IH. destruct (MySQLDB_GetLotteryResultByQihao m (lr_Qihao data)); [done|].
    by apply upsert_result_NoDup.
Qed.

(* ===================================================================== *)
(** * Properties of the store: pending forecasts *)
(* ===================================================================== *)

Lemma verified_not_unverified (p : Prediction) : verified p = true -> unverified p = false.
Proof. unfold verified, unverified. by destruct (p_IsCorrect p). Qed.

Section CollationProps.

Variable qihao_lt : string -> string -> bool.

Lemma filter_kept_length (latestQihao : string) (rows : list Prediction) :
  length rows =
    (length (filter (fun p => expired_pending qihao_lt latestQihao p = false) rows) +
     length (filter (fun p => expired_pending qihao_lt latestQihao p = true) rows))%nat.
Proof.
  induction rows as [|p rest IH]; [done|]. rewrite !filter_cons.
  destruct (expired_pending qihao_lt latestQihao p) eqn:He.
  - rewrite decide_False by done. rewrite decide_True by done. simpl. lia.
  - rewrite decide_True by done. rewrite decide_False by done. simpl. lia.
Qed.

Lemma filter_kept_settled (latestQihao : string) (rows : list Prediction) :
  filter (fun p => unverified p = false)
    (filter (fun p => expired_pending qihao_lt latestQihao p = false) rows)
  = filter (fun p => unverified p = false) rows.
Proof.
  induction rows as [|p rest IH]; [done|]. rewrite !filter_cons.
  destruct (decide (expired_pending qihao_lt latestQihao p = false)) as [He|He].
  - rewrite filter_cons. by rewrite IH.
  - destruct (decide (unverified p = false)) as [Hu|Hu]; [|done].
    exfalso. apply He. unfold expired_pending. rewrite Hu. apply andb_false_r.
Qed.

Lemma filter_kept_verified (latestQihao : string) (rows : list Prediction) :
  filter (fun p => verified p = true)
    (filter (fun p => expired_pending qihao_lt latestQihao p = false) rows)
  = filter (fun p => verified p = true) rows.
Proof.
  induction rows as [|p rest IH]; [done|]. rewrite !filter_cons.
  destruct (decide (expired_pending qihao_lt latestQihao p = false)) as [He|He].
  - rewrite filter_cons. by rewrite IH.
  - destruct (decide (verified p = true)) as [Hv|Hv]; [|done].
    exfalso. apply He. unfold expired_pending.
    rewrite (verified_not_unverified p Hv). apply andb_false_r.
Qed.

Lemma filter_kept_again (latestQihao : string) (rows : list Prediction) :
  filter (fun p => expired_pending qihao_lt latestQihao p = false)
    (filter (fun p => expired_pending qihao_lt latestQihao p = false) rows)
  = filter (fun p => expired_pending qihao_lt latestQihao p = false) rows /\
  filter (fun p => expired_pending qihao_lt latestQihao p = true)
    (filter (fun p => expired_pending qihao_lt latestQihao p = false) rows) = [].
Proof.
  induction rows as [|p rest [IH1 IH2]]; [done|]. rewrite !filter_cons.
  destruct (decide (expired_pending qihao_lt latestQihao p = false)) as [He|He]; [|done].
  rewrite !filter_cons. rewrite decide_True by done.
  rewrite decide_False by (rewrite He; discriminate). by rewrite IH1, IH2.
Qed.

(** X10. The start-up clean-up deletes pending forecasts only: every row
    that carries a verdict or an actual draw is kept, in order, so the
    accuracy statistics are the same before and after; the rounds are
    untouched; the reported count is the number of rows that went; a
    second clean-up for the same identifier finds nothing to delete; and
    with an empty window nothing is deleted at all. This holds for any
    ordering of the identifiers. *)
Theorem CleanupExpiredPredictions_spares_settled (m : MySQLDB) (latestQihao : string) :
  filter (fun p => unverified p = false)
    (predictions (MySQLDB_CleanupExpiredPredictions qihao_lt m latestQihao).2)
    = filter (fun p => unverified p = false) (predictions m) /\
  MySQLDB_GetPredictionStats (MySQLDB_CleanupExpiredPredictions qihao_lt m latestQihao).2
    = MySQLDB_GetPredictionStats m /\
  lottery_results (MySQLDB_CleanupExpiredPredictions qihao_lt m latestQihao).2
    = lottery_results m /\
  Z.of_nat (length (predictions m)) =
    Z.of_nat (length (predictions (MySQLDB_CleanupExpiredPredictions qihao_lt m latestQihao).2))
    + (MySQLDB_CleanupExpiredPredictions qihao_lt m latestQihao).1 /\
  MySQLDB_CleanupExpiredPredictions qihao_lt
    (MySQLDB_CleanupExpiredPredictions qihao_lt m latestQihao).2 latestQihao
    = (0, (MySQLDB_CleanupExpiredPredictions qihao_lt m latestQihao).2) /\
  App_cleanupExpiredPredictions qihao_lt m [] = (0, m).
Proof.
  unfold MySQLDB_CleanupExpiredPredictions, with_predictions. simpl.
  split; [apply filter_kept_settled|]. split.
  { unfold MySQLDB_GetPredictionStats. simpl. by rewrite filter_kept_verified. }
  split; [done|]. split.
  { rewrite (filter_kept_length latestQihao (predictions m)) at 1. lia. }
  split; [|done].
  destruct (filter_kept_again latestQihao (predictions m)) as [-> ->]. done.
Qed.

End CollationProps.

(* ===================================================================== *)
(** * Properties of the start-up synchronisation *)
(* ===================================================================== *)

Lemma lotteryMap_from (historicalData : list LotteryResult) :
  forall (acc : gmap string LotteryResult) qihao lotteryResult,
    fold_left (fun acc data => <[lr_Qihao data := data]> acc) historicalData acc !! qihao
      = Some lotteryResult ->
    acc !! qihao = Some lotteryResult \/
    (In lotteryResult historicalData /\ lr_Qihao lotteryResult = qihao).
Proof.
  induction historicalData as [|data rest IH]; intros acc qihao lotteryResult; simpl.
  - by left.
  - intros [Hacc|[Hin Hq]]%IH.
    + destruct (decide (lr_Qihao data = qihao)) as [He|Hne].
      * rewrite He, lookup_insert_eq in Hacc. injection Hacc as <-. right. by split; [left|].
      * rewrite lookup_insert_ne in Hacc by done. by left.
    + right. by split; [right|].
Qed.

Lemma Validator_store_cases (m : MySQLDB) qihao actual now :
  (Validator_ValidatePrediction m qihao actual now).2 = m \/
  exists isCorrect,
    predictions (Validator_ValidatePrediction m qihao actual now).2 =
      map (fun p => if targets qihao p
                    then set_verified actual (CalculateOddEven (lr_SumValue actual))
                           isCorrect now p
                    else p) (predictions m).
Proof.
  unfold Validator_ValidatePrediction.
  destruct (find _ _); [|by left].
  destruct (ParseOpenNum _); [|by left].
  destruct (ParseOpenNum _); [|by left].
  unfold MySQLDB_ValidatePrediction.
  destruct (limit 1 _) as [|row ?]; [by left|]. right. by eexists.
Qed.

Lemma synced_target lm p p' : synced lm p p' -> p_TargetQihao p' = p_TargetQihao p.
Proof. by intros [->|(r & b & t & _ & ->)]. Qed.

Lemma synced_step lm qihao lotteryResult isCorrect now rows0 rows :
  lm !! qihao = Some lotteryResult ->
  Forall2 (synced lm) rows0 rows ->
  Forall2 (synced lm) rows0
    (map (fun p => if targets qihao p
                   then set_verified lotteryResult
                          (CalculateOddEven (lr_SumValue lotteryResult)) isCorrect now p
                   else p) rows).
Proof.
  intros Hlm. induction 1 as [|p0 p rows0 rows Hs Hrest IH]; simpl; constructor; [|done].
  unfold targets. destruct (String.eqb_spec (p_TargetQihao p) qihao) as [Hq|Hne]; [|done].
  right. exists lotteryResult, isCorrect, now.
  rewrite <- (synced_target _ _ _ Hs), Hq. split; [done|].
  by destruct Hs as [->|(r & b & t & _ & ->)].
Qed.

Lemma sync_loop_synced lm clock (pending : list Prediction) :
  forall i (m : MySQLDB) (count : Z) rows0,
    Forall2 (synced lm) rows0 (predictions m) ->
    Forall2 (synced lm) rows0 (predictions (sync_loop lm clock i pending m count).2) /\
    lottery_results (sync_loop lm clock i pending m count).2 = lottery_results m /\
    count <= (sync_loop lm clock i pending m count).1 <= count + Z.of_nat (length pending).
Proof.
  induction pending as [|prediction rest IH]; intros i m count rows0 Hs; simpl.
  - split; [done|]. split; [done|lia].
  - destruct (lm !! p_TargetQihao prediction) as [lotteryResult|] eqn:Hlm.
    + pose proof (Validator_store_cases m (p_TargetQihao prediction) lotteryResult (clock i))
        as Hcases.
      pose proof (Validator_keeps_rounds m (p_TargetQihao prediction) lotteryResult (clock i))
        as Hrounds.
      destruct (Validator_ValidatePrediction m (p_TargetQihao prediction) lotteryResult
                  (clock i)) as [[validation|e] m'] eqn:Hv; simpl in Hcases, Hrounds.
      * assert (Forall2 (synced lm) rows0 (predictions m')) as Hs'.
        { destruct Hcases as [->|[isCorrect ->]]; [done|]. by apply synced_step. }
        destruct (IH (S i) m' (count + 1) rows0 Hs') as (H1 & H2 & H3).
        split; [done|]. split; [congruence|lia].
      * assert (Forall2 (synced lm) rows0 (predictions m')) as Hs'.
        { destruct Hcases as [->|[isCorrect ->]]; [done|]. by apply synced_step. }
        destruct (IH (S i) m' count rows0 Hs') as (H1 & H2 & H3).
        split; [done|]. split; [congruence|lia].
    + destruct (IH (S i) m count rows0 Hs) as (H1 & H2 & H3).
      split; [done|]. split; [done|lia].
Qed.

Lemma order_by_desc_length {A} (key : A -> Z) (l : list A) :
  length (order_by_desc key l) = length l.
Proof.
  assert (forall x l', length (insert_desc key x l') = S (length l')) as Hins.
  { intros x l'. induction l' as [|y l' IH]; simpl; [done|].
    destruct (key y <=? key x); simpl; [done|by rewrite IH]. }
  induction l as [|x l IH]; simpl; [done|]. by rewrite Hins, IH.
Qed.

(** X11. The start-up synchronisation never adds, removes or reorders a
    forecast row: each row is afterwards either exactly as it was or
    verified against the round that the window holds for its own target
    (actual draw, sum and parity label taken from that round), so a
    forecast whose target is not in the window is left as it was. The
    rounds are untouched, the window's map only holds rounds of the
    window under their own identifier, and the reported count lies
    between 0 and the number of forecasts that were pending. *)
Theorem syncPredictionVerifications_frame
  (m : MySQLDB) (historicalData : list LotteryResult) (clock : nat -> Z) :
  Forall2 (synced (lotteryMap historicalData)) (predictions m)
    (predictions (App_syncPredictionVerifications m historicalData clock).2) /\
  (forall i p, predictions m !! i = Some p ->
     lotteryMap historicalData !! p_TargetQihao p = None ->
     predictions (App_syncPredictionVerifications m historicalData clock).2 !! i = Some p) /\
  (forall qihao lotteryResult,
     lotteryMap historicalData !! qihao = Some lotteryResult ->
     In lotteryResult historicalData /\ lr_Qihao lotteryResult = qihao) /\
  lottery_results (App_syncPredictionVerifications m historicalData clock).2
    = lottery_results m /\
  0 <= (App_syncPredictionVerifications m historicalData clock).1
    <= Z.of_nat (length (filter (fun p => unverified p = true) (predictions m))).
Proof.
  assert (Forall2 (synced (lotteryMap historicalData)) (predictions m) (predictions m)) as Hrefl.
  { apply Forall_Forall2_diag, Forall_forall. intros p _. by left. }
  assert (Forall2 (synced (lotteryMap historicalData)) (predictions m)
            (predictions (App_syncPredictionVerifications m historicalData clock).2) /\
          lottery_results (App_syncPredictionVerifications m historicalData clock).2
            = lottery_results m /\
          0 <= (App_syncPredictionVerifications m historicalData clock).1
            <= Z.of_nat (length (filter (fun p => unverified p = true) (predictions m))))
    as (Hsynced & Hrounds & Hcount).
  { unfold App_syncPredictionVerifications.
    pose proof (order_by_desc_length p_PredictedAt
                  (filter (fun p => unverified p = true) (predictions m))) as Hlen.
    fold (MySQLDB_GetUnverifiedPredictions m) in Hlen.
    destruct (MySQLDB_GetUnverifiedPredictions m) as [|p0 pending] eqn:Hu.
    - simpl. split; [done|]. split; [done|lia].
    - destruct (sync_loop_synced (lotteryMap historicalData) clock (p0 :: pending) 0%nat m 0
                  (predictions m) Hrefl) as (H1 & H2 & H3).
      split; [done|]. split; [done|]. rewrite <- Hlen. lia. }
  split; [done|]. split; [|split; [|done]].
  - intros i p Hi Hnone.
    destruct (Forall2_lookup_l _ _ _ _ _ Hsynced Hi) as (p' & Hi' & Hs).
    rewrite Hi'. f_equal.
    destruct Hs as [->|(r & b & t & Hlm & _)]; [done|congruence].
  - intros qihao lotteryResult Hlm. unfold lotteryMap in Hlm.
    apply lotteryMap_from in Hlm as [Hempty|H]; [by rewrite lookup_empty in Hempty|done].
Qed.

(* ===================================================================== *)
(** * Properties of the default predictor *)
(* ===================================================================== *)

Lemma validate_history_Forall (history : list LotteryResult) :
  is_Ok (validate_history history) = true <->
  Forall (fun r => lr_Qihao r <> "" /\ lr_OpenNum r <> "" /\
                   is_Ok (ParseOpenNum (lr_OpenNum r)) = true) history.
Proof.
  induction history as [|r rest IH]; simpl.
  - split; [constructor|done].
  - destruct (String.eqb_spec (lr_Qihao r) "") as [Hq|Hq].
    { split; [done|]. intros H. inversion H as [|? ? [? _]]. done. }
    destruct (String.eqb_spec (lr_OpenNum r) "") as [Ho|Ho].
    { split; [done|]. intros H. inversion H as [|? ? (_ & ? & _)]. done. }
    destruct (ParseOpenNum (lr_OpenNum r)) as [nums|e] eqn:Hp.
    + rewrite IH. split.
      * intros H. constructor; [|done]. by rewrite Hp.
      * intros H. by inversion H.
    + split; [done|]. intros H. inversion H as [|? ? (_ & _ & Hok)]. by rewrite Hp in Hok.
Qed.

Lemma fixedOddEvenPrediction_outcomes (allNums : list (list Z)) :
  (3 <= length allNums)%nat ->
  DefaultPredictor_fixedOddEvenPrediction allNums = [2; 4; 0] \/
  DefaultPredictor_fixedOddEvenPrediction allNums = [1; 3; 1].
Proof.
  intros Hlen. unfold DefaultPredictor_fixedOddEvenPrediction.
  destruct (Nat.ltb_spec (length allNums) 3); [lia|].
  destruct (Z.rem _ 2 =? 0); [by left|by right].
Qed.

Lemma parsed_rows_length (history : list LotteryResult) :
  Forall (fun r => lr_Qihao r <> "" /\ lr_OpenNum r <> "" /\
                   is_Ok (ParseOpenNum (lr_OpenNum r)) = true) history ->
  length (flat_map (fun result => match ParseOpenNum (lr_OpenNum result) with
                                  | Ok nums => [nums]
                                  | Err _ => []
                                  end) history) = length history.
Proof.
  induction 1 as [|r rest (_ & _ & Hok) Hrest IH]; simpl; [done|].
  destruct (ParseOpenNum (lr_OpenNum r)); [|done]. simpl. by rewrite IH.
Qed.

Lemma Predict_success (history : list LotteryResult) (now : Z) :
  is_Ok (DefaultPredictor_Predict history now) = true <->
  (3 <= length history)%nat /\
  Forall (fun r => lr_Qihao r <> "" /\ lr_OpenNum r <> "" /\
                   is_Ok (ParseOpenNum (lr_OpenNum r)) = true) history.
Proof.
  unfold DefaultPredictor_Predict, DefaultPredictor_ValidateInput, GetRequiredHistorySize.
  unfold mbind, Result_bind.
  destruct (Z.ltb_spec (Z.of_nat (length history)) 3) as [Hshort|Hlong].
  { split; [done|]. intros [Hlen _]. lia. }
  pose proof (validate_history_Forall history) as Hvalid.
  destruct (validate_history history) as [[]|e]; simpl in Hvalid.
  - destruct history as [|r1 [|r2 [|r3 rest]]]; simpl in Hlong; try lia.
    cbn [take]. split; [|done]. intros _. split; [simpl; lia|by apply Hvalid].
  - split; [done|]. intros [_ Hall]. by apply Hvalid in Hall.
Qed.

Lemma Predict_Ok_shape (history : list LotteryResult) (now : Z) (result : PredictionResult) :
  DefaultPredictor_Predict history now = Ok result ->
  (pr_PredictedNum result = "2+4+0" \/ pr_PredictedNum result = "1+3+1") /\
  pr_AlgorithmVersion result = "v1.0" /\
  pr_Timestamp result = now /\
  exists newest rest,
    history = newest :: rest /\
    pr_TargetQihao result = DefaultPredictor_generateNextQihao (lr_Qihao newest).
Proof.
  intros Hp. assert (is_Ok (DefaultPredictor_Predict history now) = true) as Hok
    by by rewrite Hp.
  apply Predict_success in Hok as [Hlen Hall]. revert Hp.
  unfold DefaultPredictor_Predict, mbind, Result_bind.
  destruct (DefaultPredictor_ValidateInput history) as [[]|]; [|done].
  destruct history as [|r1 [|r2 [|r3 rest]]]; simpl in Hlen; try lia.
  cbn [take]. change (take 0 rest) with (@nil LotteryResult).
  intros [= <-]. cbn [pr_PredictedNum pr_AlgorithmVersion pr_Timestamp pr_TargetQihao].
  split; [|split; [done|split; [done|by eexists _, _]]].
  unfold DefaultPredictor_analyzeAndPredict.
  pose proof (parsed_rows_length _ (Forall_take _ 3%nat _ Hall)) as Hparsed.
  change (take 3 (r1 :: r2 :: r3 :: rest)) with [r1; r2; r3] in Hparsed.
  destruct (fixedOddEvenPrediction_outcomes _
              (eq_ind_r (fun n => (3 <= n)%nat) (le_n 3) Hparsed)) as [-> | ->];
    [by left|by right].
Qed.

(** X12. [Predict] succeeds exactly when the history has at least three
    rounds and every round of it, also one past the third that the
    forecast never reads, has an identifier and a draw that parses. When
    it succeeds the forecast is one of two fixed draws, ["2+4+0"] or
    ["1+3+1"] (the fallback [1, 2, 3] of [fixedOddEvenPrediction] is out
    of reach), and its target is [generateNextQihao] of the first round
    of the history. *)
Theorem Predict_outcomes (history : list LotteryResult) (now : Z) :
  (is_Ok (DefaultPredictor_Predict history now) = true <->
   (3 <= length history)%nat /\
   Forall (fun r => lr_Qihao r <> "" /\ lr_OpenNum r <> "" /\
                    is_Ok (ParseOpenNum (lr_OpenNum r)) = true) history) /\
  (forall result,
     DefaultPredictor_Predict history now = Ok result ->
     (pr_PredictedNum result = "2+4+0" \/ pr_PredictedNum result = "1+3+1") /\
     pr_AlgorithmVersion result = "v1.0" /\
     pr_Timestamp result = now /\
     exists newest rest,
       history = newest :: rest /\
       pr_TargetQihao result = DefaultPredictor_generateNextQihao (lr_Qihao newest)).
Proof.
  split; [apply Predict_success|apply Predict_Ok_shape].
Qed.

Lemma rem2_even (a : Z) : (Z.rem a 2 =? 0) = Z.even a.
Proof.
  pose proof (Z.quot_rem a 2 ltac:(lia)) as Hqr.
  pose proof (Z.rem_bound_abs a 2 ltac:(lia)) as Hb.
  assert (Z.even a = Z.even (Z.rem a 2)) as ->.
  { rewrite Hqr at 1. rewrite Z.add_comm. apply Z.even_add_mul_2. }
  assert (Z.rem a 2 = 0 \/ Z.rem a 2 = 1 \/ Z.rem a 2 = -1) as [->|[->| ->]] by lia; done.
Qed.

(** X13. The decision rule of the forecast: with the nine slots of the
    first three rounds of the history in a range where 64-bit sums do not
    wrap, the forecast is ["2+4+0"] when the truncated third of their
    total is even and ["1+3+1"] when it is odd; neither the order of the
    three rounds nor a round after the third has any influence. *)
Theorem Predict_parity_of_average
  (r1 r2 r3 : LotteryResult) (rest : list LotteryResult) (now : Z)
  (a1 b1 c1 a2 b2 c2 a3 b3 c3 : Z) (result : PredictionResult) :
  ParseOpenNum (lr_OpenNum r1) = Ok [a1; b1; c1] ->
  ParseOpenNum (lr_OpenNum r2) = Ok [a2; b2; c2] ->
  ParseOpenNum (lr_OpenNum r3) = Ok [a3; b3; c3] ->
  Forall (fun x => - 2 ^ 59 <= x <= 2 ^ 59) [a1; b1; c1; a2; b2; c2; a3; b3; c3] ->
  DefaultPredictor_Predict (r1 :: r2 :: r3 :: rest) now = Ok result ->
  pr_PredictedNum result =
    if Z.even (Z.quot (a1 + b1 + c1 + (a2 + b2 + c2) + (a3 + b3 + c3)) 3)
    then "2+4+0" else "1+3+1".
Proof.
  intros H1 H2 H3 Hbounds.
  repeat match goal with
         | H : Forall _ (_ :: _) |- _ => apply Forall_cons in H as [? H]
         end.
  change (2 ^ 59) with 576460752303423488 in *.
  unfold DefaultPredictor_Predict, mbind, Result_bind.
  destruct (DefaultPredictor_ValidateInput _); [|done].
  cbn [take]. change (take 0 rest) with (@nil LotteryResult).
  intros [= <-]. cbn [pr_PredictedNum].
  unfold DefaultPredictor_analyzeAndPredict. cbn [flat_map].
  rewrite H1, H2, H3. cbn [app].
  unfold DefaultPredictor_fixedOddEvenPrediction, position_sum.
  cbn [length Nat.ltb Nat.leb take fold_left lookup list_lookup].
  repeat match goal with
         | |- context [wrap64 ?z] =>
             lazymatch z with
             | context [wrap64 _] => fail
             | _ => rewrite (wrap64_small z)
                 by (change minInt64 with (-9223372036854775808);
                     change maxInt64 with 9223372036854775807; lia)
             end
         end.
  rewrite rem2_even.
  replace (0 + a1 + a2 + a3 + (0 + b1 + b2 + b3) + (0 + c1 + c2 + c3))
    with (a1 + b1 + c1 + (a2 + b2 + c2) + (a3 + b3 + c3)) by lia.
  by destruct (Z.even _).
Qed.

Lemma Predict_parity_of_average_witness :
  exists result,
    DefaultPredictor_Predict
      [sample_round "3326099" "1+7+9" 17 3; sample_round "3326098" "6+6+6" 18 2;
       sample_round "3326097" "4+0+3" 7 1] 5 = Ok result /\
    pr_PredictedNum result = "2+4+0".
Proof.
  eexists. split; [reflexivity|].
  apply (Predict_parity_of_average
           (sample_round "3326099" "1+7+9" 17 3) (sample_round "3326098" "6+6+6" 18 2)
           (sample_round "3326097" "4+0+3" 7 1) [] 5 1 7 9 6 6 6 4 0 3);
    [reflexivity|reflexivity|reflexivity|repeat constructor; lia|reflexivity].
Defined.

(* ===================================================================== *)
(** * Properties of the requests *)
(* ===================================================================== *)

Lemma validate_parts_parse parts :
  validate_parts parts = Ok tt -> exists nums, parse_parts parts = Ok nums.
Proof.
  induction parts as [|part rest IH]; simpl; [by eexists|].
  destruct (Atoi (TrimSpace part)) as [num|]; [|discriminate].
  destruct (_ || _); [discriminate|].
  intros [nums ->]%IH. by eexists.
Qed.

Lemma validateOpenNum_digits (openNum : string) :
  Client_validateOpenNum openNum = Ok tt ->
  exists a b c,
    ParseOpenNum openNum = Ok [a; b; c] /\ 0 <= a <= 9 /\ 0 <= b <= 9 /\ 0 <= c <= 9.
Proof.
  unfold Client_validateOpenNum. intros Hvalid.
  destruct (negb (length (Split openNum "+") =? 3)%nat) eqn:Hlen; [discriminate|].
  destruct (validate_parts_parse _ Hvalid) as [nums Hparse].
  assert (ParseOpenNum openNum = Ok nums) as Hopen.
  { unfold ParseOpenNum. by rewrite Hlen. }
  destruct (ParseOpenNum_three _ _ Hopen) as (a & b & c & ->).
  pose proof (validate_parts_range _ _ Hvalid Hparse) as Hall.
  inversion Hall as [|? ? Ha Hall1]; subst.
  inversion Hall1 as [|? ? Hb Hall2]; subst.
  inversion Hall2 as [|? ? Hc _]; subst. eauto 10.
Qed.

Section RequestProps.

Variable json_Unmarshal : string -> Result APIResponse.
Variable retryCount : Z.
Variable retryDelay : Z.
Variable outcomes : nat -> HTTPOutcome.

Lemma makeRequest_success (outcome : HTTPOutcome) (resp : APIResponse) :
  Client_makeRequest json_Unmarshal outcome = Ok resp ->
  Message resp = "success" /\
  exists body, outcome = Responded 200 (Ok body) /\ json_Unmarshal body = Ok resp.
Proof.
  unfold Client_makeRequest. destruct outcome as [e|StatusCode [body|e]]; [done| |].
  - destruct (Z.eqb_spec StatusCode 200) as [->|]; [|done]. simpl.
    destruct (json_Unmarshal body) as [apiResponse|e] eqn:Hj; [|done].
    destruct (String.eqb_spec (Message apiResponse) "success") as [Hm|]; [|done]. simpl.
    intros [= <-]. split; [done|]. by exists body.
  - by destruct (negb _).
Qed.

Lemma attempt_events_S (n : nat) :
  attempt_events retryDelay (S n) =
    (if (0 <? n)%nat
     then attempt_events retryDelay n ++ [Slept (wrap64 (retryDelay * Z.of_nat n))]
     else attempt_events retryDelay n) ++ [Requested n].
Proof.
  unfold attempt_events. rewrite seq_S, flat_map_app. simpl.
  destruct (0 <? n)%nat; by rewrite ?app_nil_r, <- ?app_assoc.
Qed.

Lemma fetch_attempts_spec (remaining : nat) :
  forall (attempt : nat) (lastErr : string),
    (forall i, (i < attempt)%nat ->
       is_Ok (Client_makeRequest json_Unmarshal (outcomes i)) = false) ->
    match fetch_attempts json_Unmarshal retryCount retryDelay outcomes remaining attempt
            lastErr (attempt_events retryDelay attempt) with
    | (Ok resp, events) =>
        exists k, (attempt <= k < attempt + remaining)%nat /\
          Client_makeRequest json_Unmarshal (outcomes k) = Ok resp /\
          (forall i, (i < k)%nat ->
             is_Ok (Client_makeRequest json_Unmarshal (outcomes i)) = false) /\
          events = attempt_events retryDelay (S k)
    | (Err _, events) =>
        (forall i, (i < attempt + remaining)%nat ->
           is_Ok (Client_makeRequest json_Unmarshal (outcomes i)) = false) /\
        events = attempt_events retryDelay (attempt + remaining)
    end.
Proof.
  induction remaining as [|remaining IH]; intros attempt lastErr Hfailed; simpl.
  - rewrite Nat.add_0_r. done.
  - rewrite <- attempt_events_S.
    destruct (Client_makeRequest json_Unmarshal (outcomes attempt)) as [resp|e] eqn:Hreq.
    + exists attempt. split; [lia|]. done.
    + specialize (IH (S attempt) e).
      replace (attempt + S remaining)%nat with (S attempt + remaining)%nat by lia.
      destruct (fetch_attempts _ _ _ _ remaining (S attempt) e _) as [[resp|e'] events].
      * destruct IH as (k & Hk & Hrest).
        { intros i Hi. destruct (decide (i = attempt)) as [->|]; [by rewrite Hreq|].
          apply Hfailed. lia. }
        exists k. split; [lia|done].
      * apply IH. intros i Hi. destruct (decide (i = attempt)) as [->|]; [by rewrite Hreq|].
        apply Hfailed. lia.
Qed.

(** X16. The retry loop of [FetchLotteryData]: it returns the response of
    the first attempt whose request succeeds, makes no request after it,
    and has slept [attempt] times the delay before every attempt but the
    first (a linear back-off); a response it returns carries the message
    ["success"]. It fails exactly when each of the [retryCount + 1]
    attempts failed, and with a negative [retryCount] it fails without
    making a request. *)
Theorem FetchLotteryData_retries :
  match Client_FetchLotteryData json_Unmarshal retryCount retryDelay outcomes with
  | (Ok resp, events) =>
      exists k : nat,
        Z.of_nat k <= retryCount /\
        Client_makeRequest json_Unmarshal (outcomes k) = Ok resp /\
        Message resp = "success" /\
        (forall i, (i < k)%nat ->
           is_Ok (Client_makeRequest json_Unmarshal (outcomes i)) = false) /\
        events = attempt_events retryDelay (S k)
  | (Err _, events) =>
      (forall i : nat, Z.of_nat i <= retryCount ->
         is_Ok (Client_makeRequest json_Unmarshal (outcomes i)) = false) /\
      events = attempt_events retryDelay (Z.to_nat (retryCount + 1)) /\
      (retryCount < 0 -> events = [])
  end.
Proof.
  unfold Client_FetchLotteryData.
  pose proof (fetch_attempts_spec (Z.to_nat (retryCount + 1)) 0 "<nil>") as Hspec.
  change (attempt_events retryDelay 0) with (@nil FetchEvent) in Hspec.
  destruct (fetch_attempts _ _ _ _ _ 0%nat "<nil>" []) as [[resp|e] events].
  - destruct Hspec as (k & Hk & Hreq & Hfailed & ->); [intros i Hi; lia|].
    exists k. split; [lia|]. split; [done|].
    split; [by apply makeRequest_success in Hreq as [? _]|]. done.
  - destruct Hspec as (Hfailed & ->); [intros i Hi; lia|].
    split; [intros i Hi; apply Hfailed; lia|]. split; [done|].
    intros Hneg. by replace (Z.to_nat (retryCount + 1)) with 0%nat by lia.
Qed.

End RequestProps.

(** X17. [CheckDataFreshness] answers whether the latest round is at most
    three and a half minutes old: the five-minute threshold that it tests
    first never decides the answer, and neither does the saturation of
    the duration. *)
Theorem CheckDataFreshness_three_and_a_half_minutes (latestTime now : Z) :
  Client_CheckDataFreshness latestTime now = (now - latestTime <=? 210 * Second).
Proof.
  unfold Client_CheckDataFreshness, saturate64, Minute, Second.
  change minInt64 with (-9223372036854775808). change maxInt64 with 9223372036854775807.
  destruct (Z.ltb_spec (5 * (60 * 1000000000))
              (Z.max (-9223372036854775808) (Z.min 9223372036854775807 (now - latestTime))));
    destruct (Z.ltb_spec (3 * (60 * 1000000000) + 30 * 1000000000)
                (Z.max (-9223372036854775808) (Z.min 9223372036854775807 (now - latestTime))));
    destruct (Z.leb_spec (now - latestTime) (210 * 1000000000)); lia.
Qed.

(* ===================================================================== *)
(** * Properties of the converted rounds *)
(* ===================================================================== *)

Section ConvertedProps.

Variable time_Parse : string -> string -> option Z.
Variable currentYear : Z.

Lemma Convert_digits apiData result :
  Client_ConvertAPIDataToLotteryResult time_Parse currentYear apiData = Ok result ->
  exists a b c,
    ParseOpenNum (lr_OpenNum result) = Ok [a; b; c] /\
    0 <= a <= 9 /\ 0 <= b <= 9 /\ 0 <= c <= 9.
Proof.
  intros (_ & -> & _ & Hvalid)%Convert_Ok. by apply validateOpenNum_digits.
Qed.

(** X14. The round that [FetchAndValidateLatestData] returns is the
    first entry of the response: its identifier and draw are the entry's,
    the draw has three slots, each a digit, and the sum is the sum of the
    slots whatever sum the entry reported. *)
Theorem FetchAndValidateLatestData_consistent
  (fetched : Result APIResponse) (result : LotteryResult) :
  Client_FetchAndValidateLatestData time_Parse currentYear fetched = Ok result ->
  exists apiResponse latestAPIData rest a b c,
    fetched = Ok apiResponse /\
    Data apiResponse = latestAPIData :: rest /\
    lr_Qihao result = api_Qihao latestAPIData /\
    lr_OpenNum result = api_OpenNum latestAPIData /\
    lr_OpenTimeString result = api_OpenTime latestAPIData /\
    ParseOpenNum (lr_OpenNum result) = Ok [a; b; c] /\
    0 <= a <= 9 /\ 0 <= b <= 9 /\ 0 <= c <= 9 /\
    lr_SumValue result = a + b + c.
Proof.
  intros Hf. destruct (FetchAndValidateLatestData_sum _ _ _ _ Hf) as (a & b & c & Hsum).
  revert Hf. unfold Client_FetchAndValidateLatestData.
  destruct fetched as [apiResponse|]; simpl; [|discriminate].
  destruct (Data apiResponse) as [|latestAPIData rest] eqn:Hdata; [discriminate|].
  destruct (Client_ConvertAPIDataToLotteryResult time_Parse currentYear latestAPIData)
    as [lotteryResult|] eqn:Hconv; simpl; [|discriminate].
  unfold Client_ConvertAPIDataToLotteryResult in Hconv.
  destruct (Client_parseOpenTime _ _ _); simpl in Hconv; [|discriminate].
  destruct (Atoi _); simpl in Hconv; [|discriminate].
  destruct (Client_validateOpenNum _) as [[]|]; simpl in Hconv; [|discriminate].
  injection Hconv as <-. simpl.
  destruct (ParseOpenNum (api_OpenNum latestAPIData)); simpl; [|discriminate].
  intros Hr. exists apiResponse, latestAPIData, rest, a, b, c.
  split; [done|]. split; [done|].
  destruct (negb _); injection Hr as <-; simpl; done.
Qed.

Lemma convert_all_spec (data : list APILotteryData) :
  Forall (fun result =>
            exists apiData,
              In apiData data /\
              Client_ConvertAPIDataToLotteryResult time_Parse currentYear apiData = Ok result)
    (convert_all time_Parse currentYear data) /\
  (length (convert_all time_Parse currentYear data) <= length data)%nat /\
  (forall apiData result,
     In apiData data ->
     Client_ConvertAPIDataToLotteryResult time_Parse currentYear apiData = Ok result ->
     In result (convert_all time_Parse currentYear data)) /\
  map lr_Qihao (convert_all time_Parse currentYear data) =
    map api_Qihao
      (List.filter
         (fun apiData =>
            is_Ok (Client_ConvertAPIDataToLotteryResult time_Parse currentYear apiData))
         data).
Proof.
  induction data as [|apiData rest (IH1 & IH2 & IH3 & IH4)]; simpl.
  - split; [constructor|]. split; [done|]. split; [intros ? ? []|done].
  - destruct (Client_ConvertAPIDataToLotteryResult time_Parse currentYear apiData)
      as [result|e] eqn:Hconv; simpl.
    + split; [|split; [lia|split]].
      * constructor; [by exists apiData; split; [left|]|].
        eapply Forall_impl; [exact IH1|]. intros r (d & Hd & Hr). exists d. by split; [right|].
      * intros d r [<-|Hin] Hr; [left; congruence|right; by eapply IH3].
      * destruct (Convert_Ok _ _ _ _ Hconv) as (-> & _). by rewrite IH4.
    + split; [|split; [lia|split]].
      * eapply Forall_impl; [exact IH1|]. intros r (d & Hd & Hr). exists d. by split; [right|].
      * intros d r [<-|Hin] Hr; [congruence|by eapply IH3].
      * done.
Qed.

(** X15. [GetHistoricalData] returns the entries of the response that
    convert, in the order of the response, and skips the others without
    failing; it fails only when the request failed or no entry converts.
    Every round it returns copies identifier, draw and time string from
    its entry and has a draw of three digit slots; its sum is the entry's
    reported sum, parsed. *)
Theorem GetHistoricalData_converted
  (fetched : Result APIResponse) (results : list LotteryResult) :
  Client_GetHistoricalData time_Parse currentYear fetched = Ok results ->
  exists apiResponse,
    fetched = Ok apiResponse /\
    results <> [] /\
    (length results <= length (Data apiResponse))%nat /\
    map lr_Qihao results =
      map api_Qihao
        (List.filter
           (fun apiData =>
              is_Ok (Client_ConvertAPIDataToLotteryResult time_Parse currentYear apiData))
           (Data apiResponse)) /\
    (forall apiData result,
       In apiData (Data apiResponse) ->
       Client_ConvertAPIDataToLotteryResult time_Parse currentYear apiData = Ok result ->
       In result results) /\
    Forall (fun result =>
              exists apiData a b c,
                In apiData (Data apiResponse) /\
                lr_Qihao result = api_Qihao apiData /\
                lr_OpenNum result = api_OpenNum apiData /\
                Atoi (api_Sum apiData) = Some (lr_SumValue result) /\
                ParseOpenNum (lr_OpenNum result) = Ok [a; b; c] /\
                0 <= a <= 9 /\ 0 <= b <= 9 /\ 0 <= c <= 9) results.
Proof.
  unfold Client_GetHistoricalData. destruct fetched as [apiResponse|]; simpl; [|discriminate].
  destruct (convert_all_spec (Data apiResponse)) as (Hall & Hlen & Hin & Hq).
  destruct (convert_all time_Parse currentYear (Data apiResponse)) as [|r rs] eqn:Hc;
    [discriminate|].
  intros [= <-]. exists apiResponse. split; [done|]. split; [done|]. split; [done|].
  split; [done|]. split; [done|].
  eapply Forall_impl; [exact Hall|]. intros result (apiData & Hd & Hr).
  destruct (Convert_digits _ _ Hr) as (a & b & c & Hdigits).
  destruct (Convert_Ok _ _ _ _ Hr) as (Hq' & Hnum & Hsum & _).
  exists apiData, a, b, c. done.
Qed.

End ConvertedProps.

Lemma FetchAndValidateLatestData_consistent_witness :
  exists result,
    Client_FetchAndValidateLatestData sample_time_Parse 2025 (Ok sample_response) = Ok result /\
    lr_SumValue result = 7.
Proof.
  eexists. split; [reflexivity|].
  destruct (FetchAndValidateLatestData_consistent sample_time_Parse 2025 (Ok sample_response)
              _ eq_refl) as (_ & _ & _ & a & b & c & _ & _ & _ & _ & _ & Hparse & _ & _ & _ & Hsum).
  rewrite Hsum. vm_compute in Hparse. by injection Hparse as <- <- <-.
Defined.

Lemma GetHistoricalData_converted_witness :
  exists results,
    Client_GetHistoricalData sample_time_Parse 2025 (Ok sample_response) = Ok results /\
    map lr_Qihao results = ["3326100"].
Proof.
  eexists. split; [reflexivity|].
  destruct (GetHistoricalData_converted sample_time_Parse 2025 (Ok sample_response) _ eq_refl)
    as (apiResponse & Hresp & _ & _ & Hq & _).
  injection Hresp as <-. exact Hq.
Defined.

(* ===================================================================== *)
(** * Properties of the statistics calculator *)
(* ===================================================================== *)

(** X18. The match classes of the statistics are those of the validator:
    for a verified forecast whose two draws parse, [categorizeMatch]
    succeeds and increments exactly the counter that is named by the
    [MatchType] which [performDetailedValidation] gives the same two
    draws, and leaves every other field of the statistics as it was. *)
Theorem categorizeMatch_follows_match_type
  (pred : Prediction) (stats : Statistics) (actualNum : string)
  (predictedNums actualNums : list Z) (now : Z) :
  p_ActualNum pred = Some actualNum ->
  ParseOpenNum (p_PredictedNum pred) = Ok predictedNums ->
  ParseOpenNum actualNum = Ok actualNums ->
  (StatisticsCalculator_categorizeMatch pred stats).1 = Ok tt /\
  (StatisticsCalculator_categorizeMatch pred stats).2 =
    (let matchType :=
       vr_MatchType (Validator_performDetailedValidation predictedNums actualNums now) in
     if String.eqb matchType "exact" then
       with_matches stats (wrap64 (st_ExactMatches stats + 1))
         (st_PartialMatches stats) (st_NoMatches stats)
     else if String.eqb matchType "partial" then
       with_matches stats (st_ExactMatches stats)
         (wrap64 (st_PartialMatches stats + 1)) (st_NoMatches stats)
     else
       with_matches stats (st_ExactMatches stats)
         (st_PartialMatches stats) (wrap64 (st_NoMatches stats + 1))).
Proof.
  intros Hactual Hpredicted Hparsed.
  destruct (ParseOpenNum_three _ _ Hpredicted) as (a & b & c & ->).
  destruct (ParseOpenNum_three _ _ Hparsed) as (x & y & z & ->).
  unfold StatisticsCalculator_categorizeMatch. rewrite Hactual, Hpredicted, Hparsed.
  unfold Validator_performDetailedValidation, Validator_getMatchedPositions, match_count.
  simpl. destruct (a =? x), (b =? y), (c =? z); simpl; done.
Qed.

Lemma categorizeMatch_step (pred : Prediction) (stats : Statistics) :
  0 <= st_ExactMatches stats -> 0 <= st_PartialMatches stats -> 0 <= st_NoMatches stats ->
  st_ExactMatches stats + st_PartialMatches stats + st_NoMatches stats < maxInt64 ->
  let stats' := (StatisticsCalculator_categorizeMatch pred stats).2 in
  0 <= st_ExactMatches stats' /\ 0 <= st_PartialMatches stats' /\ 0 <= st_NoMatches stats' /\
  st_ExactMatches stats' + st_PartialMatches stats' + st_NoMatches stats'
    <= st_ExactMatches stats + st_PartialMatches stats + st_NoMatches stats + 1 /\
  st_TotalPredictions stats' = st_TotalPredictions stats /\
  st_CorrectPredictions stats' = st_CorrectPredictions stats /\
  st_IncorrectPredictions stats' = st_IncorrectPredictions stats /\
  st_AccuracyRate stats' = st_AccuracyRate stats /\
  st_LastUpdateTime stats' = st_LastUpdateTime stats.
Proof.
  intros HE HP HN Hsum. unfold StatisticsCalculator_categorizeMatch.
  assert (forall z, 0 <= z < maxInt64 -> wrap64 (z + 1) = z + 1) as Hw.
  { intros z Hz. apply wrap64_small. unfold minInt64, maxInt64 in *. lia. }
  destruct (p_ActualNum pred); simpl; [|repeat split; lia].
  destruct (ParseOpenNum (p_PredictedNum pred)); simpl; [|repeat split; lia].
  destruct (ParseOpenNum _); simpl; [|repeat split; lia].
  destruct (_ && _); simpl; [|repeat split; lia].
  destruct (match_count _ _) as [[] matchCount]; simpl;
    [rewrite Hw by lia; repeat split; lia|].
  destruct (0 <? matchCount); simpl; rewrite Hw by lia; repeat split; lia.
Qed.

Lemma calculateDetailedStats_counts (predictions : list Prediction) :
  forall stats : Statistics,
    0 <= st_ExactMatches stats -> 0 <= st_PartialMatches stats -> 0 <= st_NoMatches stats ->
    st_ExactMatches stats + st_PartialMatches stats + st_NoMatches stats
      + Z.of_nat (length predictions) <= maxInt64 ->
    let stats' := StatisticsCalculator_calculateDetailedStats predictions stats in
    0 <= st_ExactMatches stats' /\ 0 <= st_PartialMatches stats' /\ 0 <= st_NoMatches stats' /\
    st_ExactMatches stats' + st_PartialMatches stats' + st_NoMatches stats'
      <= st_ExactMatches stats + st_PartialMatches stats + st_NoMatches stats
         + Z.of_nat (length (filter (fun p => verified p = true) predictions)) /\
    st_TotalPredictions stats' = st_TotalPredictions stats /\
    st_CorrectPredictions stats' = st_CorrectPredictions stats /\
    st_IncorrectPredictions stats' = st_IncorrectPredictions stats /\
    st_AccuracyRate stats' = st_AccuracyRate stats /\
    st_LastUpdateTime stats' = st_LastUpdateTime stats.
Proof.
  unfold StatisticsCalculator_calculateDetailedStats.
  induction predictions as [|pred rest IH]; intros stats HE HP HN Hsum; simpl.
  - rewrite Z.add_0_r. done.
  - simpl in Hsum.
    destruct (p_IsCorrect pred) as [isCorrect|] eqn:Hc.
    + rewrite filter_cons_True by (unfold verified; by rewrite Hc).
      assert (exists stats1,
                 stats1 = match p_ActualNum pred with
                          | Some _ => (StatisticsCalculator_categorizeMatch pred stats).2
                          | None => stats
                          end) as [stats1 Hstats1] by by eexists.
      rewrite <- Hstats1.
      assert (0 <= st_ExactMatches stats1 /\ 0 <= st_PartialMatches stats1 /\
              0 <= st_NoMatches stats1 /\
              st_ExactMatches stats1 + st_PartialMatches stats1 + st_NoMatches stats1
                <= st_ExactMatches stats + st_PartialMatches stats + st_NoMatches stats + 1 /\
              st_TotalPredictions stats1 = st_TotalPredictions stats /\
              st_CorrectPredictions stats1 = st_CorrectPredictions stats /\
              st_IncorrectPredictions stats1 = st_IncorrectPredictions stats /\
              st_AccuracyRate stats1 = st_AccuracyRate stats /\
              st_LastUpdateTime stats1 = st_LastUpdateTime stats)
        as (HE1 & HP1 & HN1 & Hsum1 & HT & HC & HI & HA & HL).
      { rewrite Hstats1. destruct (p_ActualNum pred).
        - apply categorizeMatch_step; lia.
        - repeat split; lia. }
      destruct (IH stats1 HE1 HP1 HN1 ltac:(lia)) as (H1 & H2 & H3 & H4 & H5 & H6 & H7 & H8 & H9).
      simpl. repeat split; try lia; congruence.
    + rewrite filter_cons_False by (unfold verified; by rewrite Hc).
      destruct (IH stats HE HP HN ltac:(lia)) as (H1 & H2 & H3 & H4 & H5 & H6 & H7 & H8 & H9).
      repeat split; try lia; congruence.
Qed.

Lemma insert_desc_Permutation {A} (key : A -> Z) x (l : list A) :
  insert_desc key x l ≡ₚ x :: l.
Proof.
  induction l as [|y l IH]; simpl; [done|].
  destruct (key y <=? key x); [done|]. rewrite IH. apply Permutation_swap.
Qed.

Lemma order_by_desc_Permutation {A} (key : A -> Z) (l : list A) :
  order_by_desc key l ≡ₚ l.
Proof.
  induction l as [|x l IH]; simpl; [done|]. by rewrite insert_desc_Permutation, IH.
Qed.

Lemma filter_take_length {A} (P : A -> Prop) `{forall x, Decision (P x)} (n : nat) (l : list A) :
  (length (filter P (take n l)) <= length (filter P l))%nat.
Proof.
  rewrite <- (take_drop n l) at 2. rewrite filter_app, length_app. lia.
Qed.

(** X19. The statistics are consistent counts: the total is the number
    of verified forecasts, correct and incorrect add up to it, and the
    three match classes, which are counted over the latest 100 forecasts
    only, are each non-negative and together never exceed 100 nor the
    total. *)
Theorem CalculateStatistics_counts (m : MySQLDB) (now : Z) (stats : Statistics) :
  StatisticsCalculator_CalculateStatistics m now = Ok stats ->
  st_TotalPredictions stats
    = Z.of_nat (length (filter (fun p => verified p = true) (predictions m))) /\
  0 <= st_CorrectPredictions stats <= st_TotalPredictions stats /\
  st_CorrectPredictions stats + st_IncorrectPredictions stats = st_TotalPredictions stats /\
  0 <= st_ExactMatches stats /\ 0 <= st_PartialMatches stats /\ 0 <= st_NoMatches stats /\
  st_ExactMatches stats + st_PartialMatches stats + st_NoMatches stats
    <= Z.min 100 (st_TotalPredictions stats) /\
  st_LastUpdateTime stats = now.
Proof.
  unfold StatisticsCalculator_CalculateStatistics, MySQLDB_GetPredictionStats.
  set (rows := filter (fun p => verified p = true) (predictions m)).
  assert (length (filter (fun p => verified p = true) (MySQLDB_GetLatestPredictions m 100))
          <= Nat.min 100 (length rows))%nat as Hlatest.
  { unfold MySQLDB_GetLatestPredictions, limit. apply Nat.min_glb.
    - etransitivity; [apply length_filter|]. rewrite length_take. lia.
    - etransitivity; [apply filter_take_length|].
      unfold rows. by rewrite order_by_desc_Permutation. }
  assert (length (MySQLDB_GetLatestPredictions m 100) <= 100)%nat as Hhundred.
  { unfold MySQLDB_GetLatestPredictions, limit. rewrite length_take. lia. }
  destruct rows as [|p0 rest] eqn:Hrows; [discriminate|].
  intros [= <-].
  pose proof (length_filter (fun p => correct p = true) (p0 :: rest)) as Hcorrect.
  match goal with
  | |- context [StatisticsCalculator_calculateDetailedStats ?ps ?s] =>
      destruct (calculateDetailedStats_counts ps s)
        as (HE & HP & HN & Hsum & HT & HC & HI & HA & HL)
  end; simpl; try lia.
  { unfold maxInt64. lia. }
  simpl in HT, HC, HI, HL, Hsum. rewrite HT, HC, HI, HL.
  change (length (p0 :: rest)) with (S (length rest)) in *.
  repeat split; lia.
Qed.

Lemma categorizeMatch_follows_match_type_witness :
  st_NoMatches
    (StatisticsCalculator_categorizeMatch sample_verified_forecast sample_statistics).2 = 1.
Proof.
  destruct (categorizeMatch_follows_match_type sample_verified_forecast sample_statistics
              "4+0+3" [2; 4; 0] [4; 0; 3] 0 eq_refl eq_refl eq_refl) as [_ Hstats].
  rewrite Hstats. reflexivity.
Defined.

Lemma CalculateStatistics_counts_witness :
  exists stats,
    StatisticsCalculator_CalculateStatistics sample_verified_store 40 = Ok stats /\
    st_TotalPredictions stats = 3.
Proof.
  eexists. split; [reflexivity|].
  destruct (CalculateStatistics_counts sample_verified_store 40 _ eq_refl) as (Htotal & _).
  rewrite Htotal. reflexivity.
Defined.

(* ===================================================================== *)
(** * What a cycle does to the store *)
(* ===================================================================== *)

Lemma verifyPreviousPrediction_mysql (actual : LotteryResult) (now : Z) (a : App) :
  mysql (App_verifyPreviousPrediction actual now a).1.2 =
    (Validator_ValidatePrediction (mysql a) (lr_Qihao actual) actual now).2.
Proof.
  unfold App_verifyPreviousPrediction. run_eff.
  by destruct (Validator_ValidatePrediction (mysql a) (lr_Qihao actual) actual now)
    as [[validation|e] m'].
Qed.

(** A forecast row as [generateNewPrediction] appends it. *)
Lemma generateNewPrediction_store (now : Z) (a : App) :
  match App_generateNewPrediction now a with
  | (Ok _, a', _) =>
      exists newest rest forecast,
        MySQLDB_GetLatestLotteryResults (mysql a) 3 = newest :: rest /\
        mysql a' = {| lottery_results := lottery_results (mysql a);
                      predictions := predictions (mysql a) ++ [forecast] |} /\
        forecast = pending_forecast
                     (DefaultPredictor_generateNextQihao (lr_Qihao newest))
                     (p_PredictedNum forecast) now /\
        (p_PredictedNum forecast = "2+4+0" \/ p_PredictedNum forecast = "1+3+1")
  | (Err _, a', _) => mysql a' = mysql a
  end.
Proof.
  unfold App_generateNewPrediction. run_eff.
  destruct (length (MySQLDB_GetLatestLotteryResults (mysql a) 3) <=? 2)%nat; cbn; [done|].
  destruct (DefaultPredictor_Predict (MySQLDB_GetLatestLotteryResults (mysql a) 3) now)
    as [predictionResult|e] eqn:Hp; cbn; [|done].
  destruct (Predict_Ok_shape _ _ _ Hp) as (Hnum & Hver & Hts & newest & rest & Hw & Ht).
  exists newest, rest. eexists. split; [done|]. split; [reflexivity|].
  cbn [p_PredictedNum]. split; [|done].
  unfold pending_forecast. rewrite Ht, Hver, Hts.
  destruct Hnum as [-> | ->]; reflexivity.
Qed.

Section AppStoreProps.

Variable time_Parse : string -> string -> option Z.
Variable currentYear : Z.

(** X20. What one cycle on a novel round leaves in the store, whether it
    succeeds or not. The round is saved. The forecast rows that target
    the round are verified against it (all of them, with one verdict) or,
    when the validation fails, left as they are; no other forecast row
    changes. Then, exactly when the cycle succeeds, one pending forecast
    is appended: its draw is ["2+4+0"] or ["1+3+1"] with the fitting sum
    and parity label, its time is the cycle's, and its target is the
    successor identifier of the round that heads the window, which is the
    observed round when that is later than every stored round. *)
Theorem processDataUpdate_store_effect
  (fetched : Result APIResponse) (now : Z) (a : App) (latestData : LotteryResult) :
  Client_FetchAndValidateLatestData time_Parse currentYear fetched = Ok latestData ->
  MySQLDB_CheckNewQihao (mysql a) (lr_Qihao latestData) = true ->
  match App_processDataUpdate time_Parse currentYear fetched now a with
  | (r, a', calls) =>
      lottery_results (mysql a') = upsert_result latestData (lottery_results (mysql a)) /\
      exists rows,
        (rows = predictions (mysql a) \/
         exists isCorrect,
           rows = map (fun p => if targets (lr_Qihao latestData) p
                                then set_verified latestData
                                       (CalculateOddEven (lr_SumValue latestData))
                                       isCorrect now p
                                else p) (predictions (mysql a))) /\
        match r with
        | Ok _ =>
            exists newest rest forecast,
              predictions (mysql a') = rows ++ [forecast] /\
              MySQLDB_GetLatestLotteryResults
                (MySQLDB_SaveLotteryResult (mysql a) latestData) 3 = newest :: rest /\
              forecast = pending_forecast
                           (DefaultPredictor_generateNextQihao (lr_Qihao newest))
                           (p_PredictedNum forecast) now /\
              (p_PredictedNum forecast = "2+4+0" \/ p_PredictedNum forecast = "1+3+1") /\
              ((forall row, In row (lottery_results (mysql a)) ->
                  lr_OpenTime row < lr_OpenTime latestData) ->
               newest = latestData)
        | Err _ => predictions (mysql a') = rows
        end
  end.
Proof.
  intros Hf Hnew. pose proof (processDataUpdate_cases time_Parse currentYear fetched now a) as Hc.
  rewrite Hf, Hnew in Hc. cbv zeta in Hc.
  set (a1 := {| mysql := MySQLDB_SaveLotteryResult (mysql a) latestData;
                lastAPIError := ""; lastDBError := "" |}) in *.
  pose proof (verifyPreviousPrediction_mysql latestData now a1) as Hv.
  pose proof (Validator_keeps_rounds (mysql a1) (lr_Qihao latestData) latestData now) as Hrounds.
  pose proof (Validator_store_cases (mysql a1) (lr_Qihao latestData) latestData now) as Hcases.
  rewrite <- Hv in Hrounds, Hcases.
  destruct (App_verifyPreviousPrediction latestData now a1) as [[vr a2] calls_v].
  cbn [fst snd] in Hrounds, Hcases.
  pose proof (generateNewPrediction_store now a2) as Hg.
  destruct (App_generateNewPrediction now a2) as [[gr a3] calls_g].
  destruct Hc as (r' & -> & Hr').
  assert (lottery_results (mysql a2) = upsert_result latestData (lottery_results (mysql a)))
    as Hsaved by by rewrite Hrounds.
  assert (predictions (mysql a2) = predictions (mysql a) \/
          exists isCorrect,
            predictions (mysql a2) =
              map (fun p => if targets (lr_Qihao latestData) p
                            then set_verified latestData
                                   (CalculateOddEven (lr_SumValue latestData))
                                   isCorrect now p
                            else p) (predictions (mysql a))) as Hrows.
  { destruct Hcases as [->|[isCorrect ->]]; [by left|right; by exists isCorrect]. }
  destruct gr as [[]|e]; destruct r' as [[]|e']; try discriminate Hr'.
  - destruct Hg as (newest & rest & forecast & Hw & -> & Hforecast & Hnum). cbn.
    split; [done|]. exists (predictions (mysql a2)). split; [done|].
    exists newest, rest, forecast. split; [done|].
    assert (MySQLDB_GetLatestLotteryResults
              (MySQLDB_SaveLotteryResult (mysql a) latestData) 3 = newest :: rest) as Hw'.
    { rewrite <- Hw. unfold MySQLDB_GetLatestLotteryResults. by rewrite Hsaved. }
    split; [done|]. split; [done|]. split; [done|].
    intros Hlater. destruct (GetLatestLotteryResults_newest (mysql a) latestData Hlater)
      as [rest' Hnewest]. congruence.
  - rewrite Hg. split; [done|]. by exists (predictions (mysql a2)).
Qed.

(** X21. The same batch processed twice in a row: whatever the first
    cycle did and however it ended, the second cycle leaves the store as
    it found it and makes no call that writes or notifies. *)
Theorem processDataUpdate_same_batch_twice
  (fetched : Result APIResponse) (now1 now2 : Z) (a : App) :
  mysql (App_processDataUpdate time_Parse currentYear fetched now2
           (App_processDataUpdate time_Parse currentYear fetched now1 a).1.2).1.2
    = mysql (App_processDataUpdate time_Parse currentYear fetched now1 a).1.2 /\
  Forall (fun c => writes_or_notifies c = false)
    (App_processDataUpdate time_Parse currentYear fetched now2
       (App_processDataUpdate time_Parse currentYear fetched now1 a).1.2).2.
Proof.
  pose proof (processDataUpdate_second_pass time_Parse currentYear fetched now1 now2 a) as H.
  destruct (App_processDataUpdate time_Parse currentYear fetched now1 a) as [[r1 a1] calls1].
  cbn [fst snd].
  by destruct (App_processDataUpdate time_Parse currentYear fetched now2 a1) as [[r2 a2] calls2].
Qed.

End AppStoreProps.

(** X20 at the sample store, fed the novel round 3326100. *)
Lemma processDataUpdate_store_effect_witness :
  map lr_Qihao
    (lottery_results
       (mysql (App_processDataUpdate sample_time_Parse 2025 (Ok sample_response) 50
                 sample_app).1.2)) =
    ["3326097"; "3326098"; "3326099"; "3326100"].
Proof.
  pose proof (processDataUpdate_store_effect sample_time_Parse 2025
                (Ok sample_response) 50 sample_app
                {| lr_Qihao := "3326100"; lr_OpenTime := 19;
                   lr_OpenTimeString := "08-23 01:16:00"; lr_OpenNum := "4+3+0";
                   lr_SumValue := 7 |}) as H.
  destruct (App_processDataUpdate _ _ _ _ _) as [[r a'] calls].
  destruct H as (Hrounds & _).
  - reflexivity.
  - reflexivity.
  - cbn [fst snd]. rewrite Hrounds. reflexivity.
Defined.

(* ===================================================================== *)
(** * Properties of the predictor manager *)
(* ===================================================================== *)

(** X22. The predictor manager delegates to its current predictor: a new
    manager predicts exactly as the default predictor does and never
    reports a missing predictor; [SetCurrentPredictor] fails exactly on a
    name that is not registered and then changes nothing; registering a
    predictor, even under the name of the current one, does not change
    what [Predict] returns until [SetCurrentPredictor] is called, after
    which [Predict] is the registered predictor's. *)
Theorem PredictorManager_delegates
  (pm : PredictorManager) (predictor : AnyPredictor) (name : string)
  (history : list LotteryResult) (now : Z) :
  PredictorManager_Predict NewPredictorManager history now
    = DefaultPredictor_Predict history now /\
  (is_Ok (PredictorManager_SetCurrentPredictor pm name).1 = false <->
   pm_predictors pm !! name = None) /\
  (pm_predictors pm !! name = None ->
   (PredictorManager_SetCurrentPredictor pm name).2 = pm) /\
  PredictorManager_Predict (PredictorManager_RegisterPredictor pm predictor) history now
    = PredictorManager_Predict pm history now /\
  (PredictorManager_SetCurrentPredictor
     (PredictorManager_RegisterPredictor pm predictor) (AnyPredictor_GetName predictor)).1
    = Ok tt /\
  PredictorManager_Predict
    (PredictorManager_SetCurrentPredictor
       (PredictorManager_RegisterPredictor pm predictor) (AnyPredictor_GetName predictor)).2
    history now
    = AnyPredictor_Predict predictor history now.
Proof.
  split.
  { unfold PredictorManager_Predict, NewPredictorManager,
      PredictorManager_SetCurrentPredictor, PredictorManager_RegisterPredictor.
    cbn [pm_predictors pm_current].
    change (AnyPredictor_GetName _) with "default".
    rewrite lookup_insert_eq. cbn [snd pm_current].
    unfold AnyPredictor_Predict. cbn.
    destruct (DefaultPredictor_Predict history now) as [result|e] eqn:Hp; [|done].
    destruct (Predict_Ok_shape _ _ _ Hp) as (_ & Hver & _).
    destruct result. cbn in *. by rewrite Hver. }
  unfold PredictorManager_SetCurrentPredictor, PredictorManager_RegisterPredictor.
  split; [|split].
  { destruct (pm_predictors pm !! name); cbn; split; done. }
  { by intros ->. }
  split; [done|]. cbn. rewrite lookup_insert_eq. done.
Qed.

(* ===================================================================== *)
(** * Properties of the parity labels *)
(* ===================================================================== *)

(** X23. The parity labels agree across the packages: the label that the
    store computes for a sum is one that [ParseOddEven] keeps, its
    English translation in the messages is the label that the bot
    computes from the sum itself, and it is the even label exactly for
    an even sum, negative sums included. *)
Theorem parity_labels_agree (sum : Z) :
  ParseOddEven (CalculateOddEven sum) = CalculateOddEven sum /\
  Bot_translateOddEven (CalculateOddEven sum) = Bot_analyzeOddEvenPattern sum /\
  (CalculateOddEven sum = even_label <-> Z.even sum = true) /\
  (CalculateOddEven sum = odd_label <-> Z.even sum = false).
Proof.
  unfold CalculateOddEven, Bot_analyzeOddEvenPattern. rewrite rem2_even.
  destruct (Z.even sum); repeat split; done.
Qed.

(* ===================================================================== *)
(** * Properties of batch validation *)
(* ===================================================================== *)

Lemma batch_verified_target results p p' :
  batch_verified results p p' -> p_TargetQihao p' = p_TargetQihao p.
Proof. by intros [->|(r & b & t & _ & _ & ->)]. Qed.

Lemma batch_verified_step results result isCorrect now rows0 rows :
  In result results ->
  Forall2 (batch_verified results) rows0 rows ->
  Forall2 (batch_verified results) rows0
    (map (fun p => if targets (lr_Qihao result) p
                   then set_verified result (CalculateOddEven (lr_SumValue result))
                          isCorrect now p
                   else p) rows).
Proof.
  intros Hin. induction 1 as [|p0 p rows0 rows Hs Hrest IH]; simpl; constructor; [|done].
  unfold targets. destruct (String.eqb_spec (p_TargetQihao p) (lr_Qihao result)) as [Hq|Hne];
    [|done].
  right. exists result, isCorrect, now.
  rewrite <- (batch_verified_target _ _ _ Hs), Hq. split; [done|]. split; [done|].
  by destruct Hs as [->|(r & b & t & _ & _ & ->)].
Qed.

Lemma validate_batch_frame (all : list LotteryResult) clock (results : list LotteryResult) :
  forall i (m : MySQLDB) rows0,
    (forall result, In result results -> In result all) ->
    Forall2 (batch_verified all) rows0 (predictions m) ->
    Forall2 (batch_verified all) rows0 (predictions (validate_batch clock i results m).2) /\
    lottery_results (validate_batch clock i results m).2 = lottery_results m /\
    (length (validate_batch clock i results m).1 <= length results)%nat.
Proof.
  induction results as [|result rest IH]; intros i m rows0 Hsub Hs; simpl.
  - split; [done|]. split; [done|lia].
  - pose proof (Validator_store_cases m (lr_Qihao result) result (clock i)) as Hcases.
    pose proof (Validator_keeps_rounds m (lr_Qihao result) result (clock i)) as Hrounds.
    destruct (Validator_ValidatePrediction m (lr_Qihao result) result (clock i))
      as [[validation|e] m'] eqn:Hv; simpl in Hcases, Hrounds.
    + assert (Forall2 (batch_verified all) rows0 (predictions m')) as Hs'.
      { destruct Hcases as [->|[isCorrect ->]]; [done|].
        apply batch_verified_step; [|done]. apply Hsub. by left. }
      destruct (IH (S i) m' rows0 (fun r Hr => Hsub r (or_intror Hr)) Hs') as (H1 & H2 & H3).
      destruct (validate_batch clock (S i) rest m') as [validationResults m''].
      simpl in *. split; [done|]. split; [congruence|lia].
    + assert (Forall2 (batch_verified all) rows0 (predictions m')) as Hs'.
      { destruct Hcases as [->|[isCorrect ->]]; [done|].
        apply batch_verified_step; [|done]. apply Hsub. by left. }
      destruct (IH (S i) m' rows0 (fun r Hr => Hsub r (or_intror Hr)) Hs') as (H1 & H2 & H3).
      split; [done|]. split; [congruence|lia].
Qed.

(** X24. A batch validation never adds, removes or reorders a forecast
    row and never touches the rounds: each forecast row is afterwards as
    it was or verified against a round of the batch that carries its
    target, so a forecast whose target is not in the batch is left as it
    was; rounds whose validation fails are skipped, so there are at most
    as many validation results as rounds. *)
Theorem ValidateBatch_frame (m : MySQLDB) (results : list LotteryResult) (clock : nat -> Z) :
  Forall2 (batch_verified results) (predictions m)
    (predictions (Validator_ValidateBatch m results clock).2) /\
  (forall i p, predictions m !! i = Some p ->
     (forall result, In result results -> lr_Qihao result <> p_TargetQihao p) ->
     predictions (Validator_ValidateBatch m results clock).2 !! i = Some p) /\
  lottery_results (Validator_ValidateBatch m results clock).2 = lottery_results m /\
  (length (Validator_ValidateBatch m results clock).1 <= length results)%nat.
Proof.
  assert (Forall2 (batch_verified results) (predictions m) (predictions m)) as Hrefl.
  { apply Forall_Forall2_diag, Forall_forall. intros p _. by left. }
  destruct (validate_batch_frame results clock results 0%nat m (predictions m)
              (fun r Hr => Hr) Hrefl) as (Hrows & Hrounds & Hlen).
  split; [done|]. split; [|done].
  intros i p Hi Hnone.
  destruct (Forall2_lookup_l _ _ _ _ _ Hrows Hi) as (p' & Hi' & Hs).
  unfold Validator_ValidateBatch. rewrite Hi'. f_equal.
  destruct Hs as [->|(r & b & t & Hin & Hq & _)]; [done|]. by destruct (Hnone r Hin).
Qed.

(* ===================================================================== *)
(** * Properties of the ordered queries *)
(* ===================================================================== *)

Lemma insert_desc_descending {A} (key : A -> Z) x (l : list A) :
  descending key l -> descending key (insert_desc key x l).
Proof.
  induction l as [|y l IH]; simpl; [done|]. intros [Hy Hl].
  destruct (Z.leb_spec (key y) (key x)) as [Hle|Hgt]; simpl.
  - split; [|done]. constructor; [done|].
    eapply Forall_impl; [exact Hy|]. simpl. intros z Hz. lia.
  - split; [|by apply IH]. rewrite insert_desc_Permutation. constructor; [lia|done].
Qed.

Lemma order_by_desc_descending {A} (key : A -> Z) (l : list A) :
  descending key (order_by_desc key l).
Proof.
  induction l as [|x l IH]; simpl; [done|]. by apply insert_desc_descending.
Qed.

Lemma descending_take {A} (key : A -> Z) (n : nat) (l : list A) :
  descending key l -> descending key (take n l).
Proof.
  revert n. induction l as [|x l IH]; intros [|n]; simpl; try done.
  intros [Hx Hl]. split; [by apply Forall_take|by apply IH].
Qed.

Lemma descending_app {A} (key : A -> Z) (l1 l2 : list A) :
  descending key (l1 ++ l2) ->
  forall r r', In r l1 -> In r' l2 -> key r' <= key r.
Proof.
  induction l1 as [|x l1 IH]; simpl; [done|]. intros [Hx Hl] r r' [<-|Hr] Hr'.
  - rewrite Forall_forall in Hx. apply Hx, list_elem_of_In, in_or_app. by right.
  - by apply IH.
Qed.

Lemma limit_order_by_desc {A} (key : A -> Z) (n : Z) (table : list A) :
  greatest_first key (Z.to_nat n) table (limit n (order_by_desc key table)).
Proof.
  unfold greatest_first, limit. split; [|split].
  - by rewrite length_take, order_by_desc_length.
  - apply descending_take, order_by_desc_descending.
  - exists (drop (Z.to_nat n) (order_by_desc key table)). split.
    + by rewrite take_drop, order_by_desc_Permutation.
    + apply descending_app. rewrite take_drop. apply order_by_desc_descending.
Qed.

(** X26. The ordered queries return what their names say:
    [GetLatestLotteryResults(n)] the [n] stored rounds with the latest
    open times, latest first, [GetLatestPredictions(n)] the [n] forecasts
    with the greatest numeric target identifiers, greatest first, and
    [GetUnverifiedPredictions] every pending forecast and no other, most
    recently predicted first; with fewer than [n] rows all of them are
    returned. *)
Theorem ordered_queries_greatest_first (m : MySQLDB) (n : Z) :
  greatest_first lr_OpenTime (Z.to_nat n) (lottery_results m)
    (MySQLDB_GetLatestLotteryResults m n) /\
  greatest_first (fun p => cast_unsigned (p_TargetQihao p)) (Z.to_nat n) (predictions m)
    (MySQLDB_GetLatestPredictions m n) /\
  descending p_PredictedAt (MySQLDB_GetUnverifiedPredictions m) /\
  MySQLDB_GetUnverifiedPredictions m
    ≡ₚ filter (fun p => unverified p = true) (predictions m).
Proof.
  split; [apply limit_order_by_desc|]. split; [apply limit_order_by_desc|].
  split; [apply order_by_desc_descending|apply order_by_desc_Permutation].
Qed.

(* ===================================================================== *)
(** * Printing and parsing draws *)
(* ===================================================================== *)

Lemma digits_Split_head s : forall acc v rest,
  digits_acc s acc = Some v ->
  Split (s +:+ String "+" rest) "+" = s :: Split rest "+".
Proof.
  induction s as [|c r IH]; intros acc v rest; simpl; [done|].
  destruct (is_digit c) eqn:Hc; [|discriminate].
  destruct (digit_not_blank c Hc) as (_ & _ & -> & _). intros Hv.
  by rewrite (IH _ _ rest Hv).
Qed.

Lemma digits_Split_last s : forall acc v,
  digits_acc s acc = Some v -> Split s "+" = [s].
Proof.
  induction s as [|c r IH]; intros acc v; simpl; [done|].
  destruct (is_digit c) eqn:Hc; [|discriminate].
  destruct (digit_not_blank c Hc) as (_ & _ & -> & _). intros Hv.
  by rewrite (IH _ _ Hv).
Qed.

Lemma digits_trim_right s : forall acc v,
  digits_acc s acc = Some v -> trim_right s = s.
Proof.
  induction s as [|c r IH]; intros acc v; simpl; [done|].
  destruct (is_digit c) eqn:Hc; [|discriminate].
  destruct (digit_not_blank c Hc) as (_ & Hsp & _). intros Hv.
  rewrite (IH _ _ Hv). destruct r; [by rewrite Hsp|done].
Qed.

Lemma digits_Atoi_TrimSpace s v :
  digits_value s = Some v -> v <= maxInt64 -> Atoi (TrimSpace s) = Some v.
Proof.
  destruct s as [|c r]; [discriminate|]. intros Hv Hmax.
  assert (is_digit c = true) as Hc.
  { simpl in Hv. by destruct (is_digit c). }
  destruct (digit_not_blank c Hc) as (_ & Hsp & _).
  pose proof (digits_acc_bounds _ _ _ Hv ltac:(lia)) as Hpos.
  unfold TrimSpace. cbn [trim_left]. rewrite Hsp.
  rewrite (digits_trim_right _ _ _ Hv).
  unfold Atoi. rewrite (ParseInt_digit_head c r Hc), Hv.
  unfold in_int64, minInt64.
  replace (- 2 ^ 63 <=? v) with true by (symmetry; apply Z.leb_le; lia).
  replace (v <=? maxInt64) with true by (symmetry; apply Z.leb_le; lia).
  done.
Qed.

Lemma FormatInt_digits n : 0 <= n -> digits_acc (FormatInt n) 0 = Some n.
Proof.
  intros Hn. pose proof (digits_value_FormatInt n Hn) as Hv.
  unfold digits_value in Hv. by destruct (FormatInt n).
Qed.

(** X27. A draw printed by [FormatOpenNum] parses back to the same three
    numbers with [ParseOpenNum], for all non-negative numbers of the
    range of [int]; a list of any other length prints as the empty
    string, which does not parse. *)
Theorem ParseOpenNum_FormatOpenNum (a b c : Z) :
  0 <= a <= maxInt64 -> 0 <= b <= maxInt64 -> 0 <= c <= maxInt64 ->
  ParseOpenNum (FormatOpenNum [a; b; c]) = Ok [a; b; c] /\
  (forall nums : list Z,
     length nums <> 3%nat ->
     FormatOpenNum nums = "" /\ is_Ok (ParseOpenNum (FormatOpenNum nums)) = false).
Proof.
  intros Ha Hb Hc. split.
  - unfold FormatOpenNum, ParseOpenNum.
    change (FormatInt a +:+ "+" +:+ FormatInt b +:+ "+" +:+ FormatInt c)
      with (FormatInt a +:+ String "+" (FormatInt b +:+ String "+" (FormatInt c))).
    rewrite (digits_Split_head _ _ _ _ (FormatInt_digits a ltac:(lia))).
    rewrite (digits_Split_head _ _ _ _ (FormatInt_digits b ltac:(lia))).
    rewrite (digits_Split_last _ _ _ (FormatInt_digits c ltac:(lia))).
    cbn [length Nat.eqb negb parse_parts].
    rewrite (digits_Atoi_TrimSpace _ _ (digits_value_FormatInt a ltac:(lia)) ltac:(lia)).
    rewrite (digits_Atoi_TrimSpace _ _ (digits_value_FormatInt b ltac:(lia)) ltac:(lia)).
    rewrite (digits_Atoi_TrimSpace _ _ (digits_value_FormatInt c ltac:(lia)) ltac:(lia)).
    done.
  - intros nums Hlen.
    assert (FormatOpenNum nums = "") as ->; [|done].
    destruct nums as [|x [|y [|z [|w nums]]]]; simpl in *; done.
Qed.

Lemma ParseOpenNum_FormatOpenNum_witness :
  ParseOpenNum (FormatOpenNum [2; 4; 0]) = Ok [2; 4; 0].
Proof.
  destruct (ParseOpenNum_FormatOpenNum 2 4 0) as [H _]; try (unfold maxInt64; lia).
  exact H.
Defined.

(* ===================================================================== *)
(** * Properties of the cache manager *)
(* ===================================================================== *)

Lemma evictOldest_lookup {V} Range (m : MemoryCache V) k item :
  mc_items (MemoryCache_evictOldest Range m) !! k = Some item ->
  mc_items m !! k = Some item.
Proof.
  unfold MemoryCache_evictOldest.
  destruct (oldest (Range (mc_items m))) as [[oldestKey t]|]; [|done].
  destruct (mc_items m !! oldestKey); [|done]. simpl.
  destruct (decide (k = oldestKey)) as [->|Hne];
    [by rewrite lookup_delete_eq|by rewrite lookup_delete_ne].
Qed.

Lemma Set_lookup_other {V} Range (m : MemoryCache V) key value ttl now1 now2 k item :
  k <> key ->
  mc_items (MemoryCache_Set Range m key value ttl now1 now2) !! k = Some item ->
  mc_items m !! k = Some item.
Proof.
  intros Hne. unfold MemoryCache_Set. simpl.
  rewrite lookup_insert_ne by done. rewrite lookup_delete_ne by done.
  destruct (mc_maxSize m <=? mc_size m); [apply evictOldest_lookup|done].
Qed.

Lemma Set_lookup_same {V} Range (m : MemoryCache V) key value ttl now1 now2 :
  mc_items (MemoryCache_Set Range m key value ttl now1 now2) !! key =
    Some {| mi_Value := value; mi_ExpiresAt := now1 + ttl; mi_CreatedAt := now2 |}.
Proof. unfold MemoryCache_Set. simpl. apply lookup_insert_eq. Qed.

Lemma Set_holds {V} Range (m : MemoryCache V) key value ttl now1 now2 :
  holds_or_misses (MemoryCache_Set Range m key value ttl now1 now2) key value.
Proof. intros item. rewrite Set_lookup_same. by intros [= <-]. Qed.

Lemma Set_other_holds {V} Range (m : MemoryCache V) key value ttl now1 now2 k v :
  k <> key -> holds_or_misses m k v ->
  holds_or_misses (MemoryCache_Set Range m key value ttl now1 now2) k v.
Proof. intros Hne Hm item Hitem. eapply Hm, Set_lookup_other; done. Qed.

Lemma apply_op_holds {V Data} (Marshal : V -> option Data) (Unmarshal : Data -> option V)
  Range (m : MemoryCache V) (op : CacheOp V) key value :
  sets_key key op = false ->
  holds_or_misses m key value ->
  holds_or_misses (apply_op Marshal Unmarshal Range m op) key value.
Proof.
  intros Hop Hm.
  destruct op as [key' value' ttl now1 now2|key' now|key'|pattern|key' now|key' ttl now|clock|];
    simpl in *.
  - apply Set_other_holds; [|done]. intros ->. by rewrite String.eqb_refl in Hop.
  - unfold MemoryCache_Get. destruct (mc_items m !! key') as [item'|] eqn:Hk; [|done].
    destruct (MemoryItem_IsExpired item' now); simpl.
    + intros item. simpl. destruct (decide (key = key')) as [->|Hne];
        [by rewrite lookup_delete_eq|rewrite lookup_delete_ne by done; apply Hm].
    + destruct (Marshal (mi_Value item')) as [data|]; [|done]. by destruct (Unmarshal data).
  - unfold MemoryCache_Delete. destruct (mc_items m !! key'); [|done].
    intros item. simpl. destruct (decide (key = key')) as [->|Hne];
      [by rewrite lookup_delete_eq|rewrite lookup_delete_ne by done; apply Hm].
  - unfold MemoryCache_DeletePattern. intros item.
    destruct (purge_spec (map fst (List.filter (fun entry => matchPattern pattern entry.1)
                                     (Range (mc_items m)))) m) as (Hlook & _).
    rewrite Hlook. destruct (decide _); [done|apply Hm].
  - unfold MemoryCache_Exists. destruct (mc_items m !! key') as [item'|] eqn:Hk; [|done].
    destruct (MemoryItem_IsExpired item' now); simpl; [|done].
    intros item. simpl. destruct (decide (key = key')) as [->|Hne];
      [by rewrite lookup_delete_eq|rewrite lookup_delete_ne by done; apply Hm].
  - unfold MemoryCache_SetTTL. destruct (mc_items m !! key') as [item'|] eqn:Hk; [|done].
    intros item. simpl. destruct (decide (key = key')) as [->|Hne].
    + rewrite lookup_insert_eq. intros [= <-]. simpl. by apply Hm.
    + rewrite lookup_insert_ne by done. apply Hm.
  - unfold MemoryCache_cleanupExpired. intros item.
    destruct (purge_spec (expired_from clock 0 (Range (mc_items m))) m) as (Hlook & _).
    rewrite Hlook. destruct (decide _); [done|apply Hm].
  - intros item. simpl. by rewrite lookup_empty.
Qed.

Lemma run_ops_holds {V Data} (Marshal : V -> option Data) (Unmarshal : Data -> option V)
  Range (ops : list (CacheOp V)) key value :
  forall m : MemoryCache V,
    Forall (fun op => sets_key key op = false) ops ->
    holds_or_misses m key value ->
    holds_or_misses (run_ops Marshal Unmarshal Range m ops) key value.
Proof.
  unfold run_ops. induction ops as [|op ops IH]; intros m Hops Hm; simpl; [done|].
  apply Forall_cons in Hops as [Hop Hops]. apply IH; [done|]. by apply apply_op_holds.
Qed.

Section CacheManagerProps.

Context {Data : Type}.
Variable Marshal : CacheValue -> option Data.
Variable Unmarshal : Data -> Dest -> option CacheValue.
Variable Range : gmap string (MemoryItem CacheValue) -> list (string * MemoryItem CacheValue).

(** The JSON encoding is faithful. *)
Hypothesis Hjson : json_faithful Marshal Unmarshal.

Lemma OnNewLotteryData_holds (cm : CacheManager) (mysql : MySQLDB) (data : LotteryResult)
  (clock : nat -> Z) :
  holds_or_misses (cm_memory (CacheManager_OnNewLotteryData Range cm mysql data clock))
    "lottery:last3" (VLotteryResults (MySQLDB_GetLatestLotteryResults mysql 3)).
Proof.
  unfold CacheManager_OnNewLotteryData, CacheManager_Set, with_memory. cbn [cm_memory].
  apply Set_other_holds; [done|]. apply Set_holds.
Qed.

Lemma GetLast3LotteryData_holds (cm : CacheManager) (stored mysql : MySQLDB)
  (clock : nat -> Z) :
  lottery_results mysql = lottery_results stored ->
  holds_or_misses (cm_memory cm) "lottery:last3"
    (VLotteryResults (MySQLDB_GetLatestLotteryResults stored 3)) ->
  (CacheManager_GetLast3LotteryData Marshal Unmarshal Range cm mysql clock).1
    = Ok (MySQLDB_GetLatestLotteryResults mysql 3).
Proof.
  intros Hrounds Hholds. destruct Hjson as [Htyped Hround].
  assert (MySQLDB_GetLatestLotteryResults stored 3 = MySQLDB_GetLatestLotteryResults mysql 3)
    as Hsame by (unfold MySQLDB_GetLatestLotteryResults; by rewrite Hrounds).
  unfold CacheManager_GetLast3LotteryData, CacheManager_Get, MemoryCache_Get.
  change (CacheManager_getFromDatabase mysql "lottery:last3")
    with (Ok (VLotteryResults (MySQLDB_GetLatestLotteryResults mysql 3))).
  destruct (mc_items (cm_memory cm) !! "lottery:last3") as [item|] eqn:Hk; [|done].
  destruct (MemoryItem_IsExpired item (clock 0%nat)); [done|].
  destruct (Marshal (mi_Value item)) as [data|] eqn:Hm; [|done].
  destruct (Unmarshal data DLotteryResults) as [value|] eqn:Hu; [|done].
  rewrite (Hholds item Hk) in Hm.
  rewrite (Hround _ _ value Hm Hu). cbn. by rewrite Hsame.
Qed.

(** X28. The window that the cycle reads through the cache manager is
    the store's: after [OnNewLotteryData] has run against a store, and
    after any further cache operations that do not themselves store a
    window, [GetLast3LotteryData] returns the three latest rounds of any
    store with the same rounds, whatever the clock, the capacity and the
    earlier content of the cache are: a window that was evicted, has
    expired or cannot be decoded is read from the store again. *)
Theorem GetLast3LotteryData_reads_the_store
  (cm : CacheManager) (stored mysql : MySQLDB) (data : LotteryResult)
  (ops : list (CacheOp CacheValue)) (dest : Dest) (clock1 clock2 : nat -> Z) :
  lottery_results mysql = lottery_results stored ->
  Forall (fun op => sets_key "lottery:last3" op = false) ops ->
  (CacheManager_GetLast3LotteryData Marshal Unmarshal Range
     (with_memory cm
        (run_ops Marshal (fun data => Unmarshal data dest) Range
           (cm_memory (CacheManager_OnNewLotteryData Range cm stored data clock1)) ops))
     mysql clock2).1
    = Ok (MySQLDB_GetLatestLotteryResults mysql 3).
Proof.
  intros Hrounds Hops. apply (GetLast3LotteryData_holds _ stored); [done|].
  cbn [cm_memory with_memory]. apply run_ops_holds; [done|]. apply OnNewLotteryData_holds.
Qed.

(** X29. The round that the cycle reads back for its notification
    through [GetLatestLotteryData], after [OnNewLotteryData] has announced
    a round and after any further cache operations that store no latest
    round, is that announced round or, when the cached copy is gone,
    expired or undecodable, the round with the latest open time in the
    store; it fails only when the store holds no round at all. *)
Theorem GetLatestLotteryData_after_OnNewLotteryData
  (cm : CacheManager) (stored mysql : MySQLDB) (data : LotteryResult)
  (ops : list (CacheOp CacheValue)) (dest : Dest) (clock1 clock2 : nat -> Z) :
  Forall (fun op => sets_key "lottery:latest" op = false) ops ->
  (CacheManager_GetLatestLotteryData Marshal Unmarshal Range
     (with_memory cm
        (run_ops Marshal (fun data => Unmarshal data dest) Range
           (cm_memory (CacheManager_OnNewLotteryData Range cm stored data clock1)) ops))
     mysql clock2).1 = Ok data \/
  (CacheManager_GetLatestLotteryData Marshal Unmarshal Range
     (with_memory cm
        (run_ops Marshal (fun data => Unmarshal data dest) Range
           (cm_memory (CacheManager_OnNewLotteryData Range cm stored data clock1)) ops))
     mysql clock2).1 =
    match MySQLDB_GetLatestLotteryResults mysql 1 with
    | [] => Err "no lottery data found"
    | result :: _ => Ok result
    end.
Proof.
  intros Hops. destruct Hjson as [Htyped Hround].
  assert (holds_or_misses
            (run_ops Marshal (fun data => Unmarshal data dest) Range
               (cm_memory (CacheManager_OnNewLotteryData Range cm stored data clock1)) ops)
            "lottery:latest" (VLotteryResult true data)) as Hholds.
  { apply run_ops_holds; [done|].
    unfold CacheManager_OnNewLotteryData, CacheManager_Set, with_memory. cbn [cm_memory].
    apply Set_other_holds; [done|]. apply Set_other_holds; [done|]. apply Set_holds. }
  unfold CacheManager_GetLatestLotteryData, CacheManager_Get, MemoryCache_Get.
  cbn [cm_memory with_memory].
  change (CacheManager_getFromDatabase mysql "lottery:latest")
    with (match MySQLDB_GetLatestLotteryResults mysql 1 with
          | [] => Err "no latest lottery data"
          | result :: _ => Ok (VLotteryResult false result)
          end).
  destruct (mc_items _ !! "lottery:latest") as [item|] eqn:Hk.
  - destruct (MemoryItem_IsExpired item (clock2 0%nat)).
    { right. by destruct (MySQLDB_GetLatestLotteryResults mysql 1). }
    destruct (Marshal (mi_Value item)) as [encoded|] eqn:Hm.
    2: { right. by destruct (MySQLDB_GetLatestLotteryResults mysql 1). }
    destruct (Unmarshal encoded DLotteryResult) as [value|] eqn:Hu.
    2: { right. by destruct (MySQLDB_GetLatestLotteryResults mysql 1). }
    rewrite (Hholds item Hk) in Hm. rewrite (Hround _ _ value Hm Hu). by left.
  - right. by destruct (MySQLDB_GetLatestLotteryResults mysql 1).
Qed.

End CacheManagerProps.

Lemma GetLast3LotteryData_reads_the_store_witness :
  (CacheManager_GetLast3LotteryData sample_Marshal sample_Unmarshal map_to_list
     (with_memory (NewCacheManager 60)
        (run_ops sample_Marshal (fun data => sample_Unmarshal data DPredictions) map_to_list
           (cm_memory (CacheManager_OnNewLotteryData map_to_list (NewCacheManager 60)
                         sample_store (sample_round "3326099" "1+7+9" 17 3) (fun _ => 0)))
           [OpDeletePattern "stats:*"; OpGet "prediction:latest" 5]))
     sample_store (fun _ => 10)).1
    = Ok (MySQLDB_GetLatestLotteryResults sample_store 3).
Proof.
  apply (fun Hjson =>
           GetLast3LotteryData_reads_the_store sample_Marshal sample_Unmarshal map_to_list
             Hjson (NewCacheManager 60) sample_store sample_store).
  - unfold json_faithful, sample_Marshal, sample_Unmarshal. split.
    + intros data dest value. destruct (decide (Dest_of data = dest)) as [<-|]; [|done].
      intros [= <-]. by destruct data.
    + intros stored data value [= <-]. rewrite decide_True by done. by intros [= <-].
  - reflexivity.
  - repeat constructor.
Defined.

Lemma GetLatestLotteryData_after_OnNewLotteryData_witness :
  (CacheManager_GetLatestLotteryData sample_Marshal sample_Unmarshal map_to_list
     (with_memory (NewCacheManager 60)
        (run_ops sample_Marshal (fun data => sample_Unmarshal data DPredictions) map_to_list
           (cm_memory (CacheManager_OnNewLotteryData map_to_list (NewCacheManager 60)
                         sample_store (sample_round "3326099" "1+7+9" 17 3) (fun _ => 0)))
           []))
     sample_store (fun _ => 10)).1
    = Ok (sample_round "3326099" "1+7+9" 17 3).
Proof.
  destruct (fun Hjson =>
              GetLatestLotteryData_after_OnNewLotteryData sample_Marshal sample_Unmarshal
                map_to_list Hjson (NewCacheManager 60) sample_store sample_store
                (sample_round "3326099" "1+7+9" 17 3) [] DPredictions
                (fun _ => 0) (fun _ => 10)) as [H|H].
  - unfold json_faithful, sample_Marshal, sample_Unmarshal. split.
    + intros data dest value. destruct (decide (Dest_of data = dest)) as [<-|]; [|done].
      intros [= <-]. by destruct data.
    + intros stored data value [= <-]. rewrite decide_True by done. by intros [= <-].
  - constructor.
  - exact H.
  - exact H.
Defined.

(* ===================================================================== *)
(** * Properties of the trend analysis *)
(* ===================================================================== *)

Lemma nth_map_seq {A} (f : nat -> A) (k n : nat) (d : A) :
  (k < n)%nat -> nth k (map f (seq 0 n)) d = f k.
Proof.
  intros Hk. rewrite (nth_indep _ d (f 0%nat)) by (rewrite length_map, length_seq; lia).
  rewrite map_nth. by rewrite seq_nth by lia.
Qed.

Lemma trend_of_counts (c : nat) (first last : bool) :
  (c <= 9)%nat ->
  let average (n : nat) :=
    PrimFloat.mul (PrimFloat.div (float64_of_int (Z.of_nat n)) (float64_of_int 10)) 100%float in
  let recent := average (c + (if last then 1 else 0))%nat in
  let previous := average ((if first then 1 else 0) + c)%nat in
  (if PrimFloat.ltb (PrimFloat.add previous 1%float) recent then "improving"
   else if PrimFloat.ltb recent (PrimFloat.sub previous 1%float) then "declining"
   else "stable") =
  (if last && negb first then "improving"
   else if first && negb last then "declining"
   else "stable").
Proof.
  intros Hc.
  do 10 (destruct c as [|c]; [by destruct first, last; vm_compute|]). lia.
Qed.

Lemma calculateMovingAverage_short (accuracy : list bool) :
  (length accuracy < 11)%nat ->
  StatisticsCalculator_analyzeTrendDirection
    (StatisticsCalculator_calculateMovingAverage accuracy 10) = "insufficient_data".
Proof.
  intros Hlen. unfold StatisticsCalculator_calculateMovingAverage.
  destruct (Z.ltb_spec (Z.of_nat (length accuracy)) 10) as [Hlt|Hge]; [done|].
  assert (length accuracy = 10%nat) as -> by lia. done.
Qed.

(** X30. The trend direction is decided by two verdicts only. With
    fewer than 11 verdicts it is ["insufficient_data"]. With more, it
    compares the last verdict of the list with the one ten places before
    it: ["improving"] when the last is correct and that one wrong,
    ["declining"] when it is the other way round, ["stable"] when they
    agree; the moving averages are exact, so the tolerance of one point
    never matters. As [GetTrendAnalysis] lists the newest forecast
    first, the last verdict is that of the oldest forecast in view; with
    fewer than 11 verified forecasts in the store the direction is
    ["insufficient_data"]. *)
Theorem trend_direction_two_verdicts
  (pre mid short : list bool) (first last : bool) (m : MySQLDB) (now : Z) :
  length mid = 9%nat ->
  (length short < 11)%nat ->
  StatisticsCalculator_analyzeTrendDirection
    (StatisticsCalculator_calculateMovingAverage short 10) = "insufficient_data" /\
  StatisticsCalculator_analyzeTrendDirection
    (StatisticsCalculator_calculateMovingAverage (pre ++ first :: mid ++ [last]) 10) =
    (if last && negb first then "improving"
     else if first && negb last then "declining"
     else "stable") /\
  ((length (filter (fun p => verified p = true) (predictions m)) < 11)%nat ->
   trend_direction (StatisticsCalculator_GetTrendAnalysis m now) = "insufficient_data").
Proof.
  intros Hmid Hshort. split; [by apply calculateMovingAverage_short|]. split.
  - unfold StatisticsCalculator_calculateMovingAverage.
    assert (length (pre ++ first :: mid ++ [last]) = (length pre + 11)%nat) as Hlen.
    { rewrite length_app. simpl. rewrite length_app. simpl. lia. }
    rewrite Hlen.
    destruct (Z.ltb_spec (Z.of_nat (length pre + 11)) 10) as [Hlt|_]; [lia|].
    replace (Z.to_nat (Z.of_nat (length pre + 11) - 10 + 1)) with (S (S (length pre))) by lia.
    unfold StatisticsCalculator_analyzeTrendDirection.
    rewrite length_map, length_seq. cbn [Nat.ltb Nat.leb].
    replace (S (S (length pre)) - 1)%nat with (S (length pre)) by lia.
    replace (S (S (length pre)) - 2)%nat with (length pre) by lia.
    rewrite !nth_map_seq by lia. cbv zeta.
    unfold window_correct.
    replace (Z.to_nat (10 - 1 + Z.of_nat (S (length pre)) - 10 + 1)) with (S (length pre))
      by lia.
    replace (Z.to_nat (10 - 1 + Z.of_nat (length pre) - 10 + 1)) with (length pre) by lia.
    change (Z.to_nat 10) with 10%nat.
    rewrite drop_app_length.
    replace (pre ++ first :: mid ++ [last]) with ((pre ++ [first]) ++ mid ++ [last])
      by by rewrite <- app_assoc.
    rewrite (drop_app_length' (pre ++ [first])) by (rewrite length_app; simpl; lia).
    rewrite (take_ge (mid ++ [last])) by (rewrite length_app; simpl; lia).
    change (take 10 (first :: mid ++ [last])) with (first :: take 9 (mid ++ [last])).
    rewrite (take_app_length' mid) by done.
    rewrite List.filter_app. cbn [List.filter]. rewrite length_app.
    pose proof (List.filter_length_le (fun correct : bool => correct) mid) as Hle.
    rewrite Hmid in Hle.
    pose proof (trend_of_counts (length (List.filter (fun correct : bool => correct) mid))
                  first last Hle) as Htrend.
    cbv zeta in Htrend. rewrite <- Htrend.
    by destruct first, last.
  - intros Hfew. unfold StatisticsCalculator_GetTrendAnalysis. cbn [trend_direction].
    apply calculateMovingAverage_short.
    assert (forall l : list Prediction,
              length (flat_map (fun pred => match p_IsCorrect pred with
                                            | Some isCorrect => [isCorrect]
                                            | None => []
                                            end) l)
              = length (filter (fun p => verified p = true) l)) as Hcount.
    { induction l as [|p l IH]; [done|]. simpl.
      destruct (p_IsCorrect p) eqn:Hc; simpl.
      - rewrite filter_cons_True by (unfold verified; by rewrite Hc). simpl. by rewrite IH.
      - rewrite filter_cons_False by (unfold verified; by rewrite Hc). exact IH. }
    rewrite Hcount.
    eapply Nat.le_lt_trans; [|exact Hfew].
    unfold MySQLDB_GetLatestPredictions, limit.
    etransitivity; [apply filter_take_length|]. by rewrite order_by_desc_Permutation.
Qed.

Lemma trend_direction_two_verdicts_witness :
  StatisticsCalculator_analyzeTrendDirection
    (StatisticsCalculator_calculateMovingAverage
       ([true] ++ false :: [true; true; false; false; true; false; true; true; false] ++ [true])
       10) = "improving".
Proof.
  destruct (trend_direction_two_verdicts [true]
              [true; true; false; false; true; false; true; true; false] [] false true
              sample_store 0) as (_ & H & _).
  - reflexivity.
  - simpl. lia.
  - exact H.
Defined.

(* ===================================================================== *)
(** * A verified forecast verified again by the orchestrator *)
(* ===================================================================== *)

(** The callers do not guard the store's unconditional UPDATE either. A
    cycle observes round 3326100 while the stored round 3326099 carries
    a later open time: it verifies the forecast for 3326100 (sum 7, flag
    false, time 50) and appends a new pending forecast that targets
    3326100 again. The start-up synchronisation then finds that pending
    forecast, verifies the target against the window's round (reported
    sum 8) and so rewrites the row that was verified before as well:
    sum 8, flag true, time 99. *)
Example cycle_then_sync_reverifies :
  map (fun p => (p_TargetQihao p, p_ActualSum p, p_IsCorrect p, p_VerifiedAt p))
    (predictions
       (mysql (App_processDataUpdate sample_time_Parse 2025 (Ok sample_response) 50
                 sample_late_app).1.2))
  = [("3326100", Some 7, Some false, Some 50); ("3326100", None, None, None)] /\
  map (fun p => (p_TargetQihao p, p_ActualSum p, p_IsCorrect p, p_VerifiedAt p))
    (predictions
       (App_syncPredictionVerifications
          (mysql (App_processDataUpdate sample_time_Parse 2025 (Ok sample_response) 50
                    sample_late_app).1.2)
          sample_window (fun _ => 99)).2)
  = [("3326100", Some 8, Some true, Some 99); ("3326100", Some 8, Some true, Some 99)].
Proof. split; reflexivity. Qed.
